(** * Error normalisation, sanitisation and de-duplication pipeline

    A shallow embedding of the TypeScript classes [SanitizationConfig]
    (utils/sanitization/dataSanitizer), [ErrorProcessor]
    (utils/errors/errorProcessor) and [ErrorHandler]
    (utils/errors/errorHandler), with the properties their specification
    states about them.

    Conventions of the embedding.
    - A JavaScript string is a [string]; its characters stand for code
      units, and case mapping and white space are those of the ASCII range.
    - A JavaScript number is an integer [Z] (status codes, lengths).
    - An object is the ordered list of its own enumerable properties.
    - [undefined] in an optional position is [None]. *)

From Stdlib Require Import ZArith Ascii String DecimalString.
From stdpp Require Import base list gmap strings.

Set Warnings "-register-all".
Local Open Scope Z_scope.

(* ================================================================== *)
(** ** String primitives (the JavaScript [String] methods the code uses) *)

Definition charCode (c : ascii) : nat := nat_of_ascii c.

(** One character of [String.prototype.toLowerCase]. *)
Definition toLowerChar (c : ascii) : ascii :=
  if ((65 <=? charCode c) && (charCode c <=? 90))%nat
  then ascii_of_nat (charCode c + 32) else c.

Fixpoint toLowerCase (s : string) : string :=
  match s with
  | EmptyString => EmptyString
  | String c rest => String (toLowerChar c) (toLowerCase rest)
  end.

(** [s.startsWith(p)]. *)
Fixpoint startsWith (s p : string) : bool :=
  match p, s with
  | EmptyString, _ => true
  | String _ _, EmptyString => false
  | String a p', String b s' => if Ascii.eqb a b then startsWith s' p' else false
  end.

(** [s.includes(sub)]. *)
Fixpoint includes (s sub : string) : bool :=
  startsWith s sub ||
  match s with
  | EmptyString => false
  | String _ rest => includes rest sub
  end.

(** [s.indexOf(sub)]; [None] stands for the result [-1]. *)
Fixpoint indexOf (s sub : string) : option nat :=
  if startsWith s sub then Some 0%nat
  else match s with
       | EmptyString => None
       | String _ rest => S <$> indexOf rest sub
       end.

Fixpoint takeChars (n : nat) (s : string) : string :=
  match n, s with
  | S n', String c rest => String c (takeChars n' rest)
  | _, _ => EmptyString
  end.

Fixpoint dropChars (n : nat) (s : string) : string :=
  match n, s with
  | S n', String _ rest => dropChars n' rest
  | _, _ => s
  end.

(** [s.substring(0, n)]: a negative end is clamped to 0, an end past the
    length to the length. *)
Definition substring0 (s : string) (n : Z) : string := takeChars (Z.to_nat n) s.

Fixpoint filterChars (keep : ascii -> bool) (s : string) : string :=
  match s with
  | EmptyString => EmptyString
  | String c rest =>
      if keep c then String c (filterChars keep rest) else filterChars keep rest
  end.

Fixpoint containsChar (c : ascii) (s : string) : bool :=
  match s with
  | EmptyString => false
  | String d rest => Ascii.eqb c d || containsChar c rest
  end.

(** White space removed by [trim]: TAB, LF, VT, FF, CR and SPACE. *)
Definition isWhitespace (c : ascii) : bool :=
  (((9 <=? charCode c) && (charCode c <=? 13)) || (charCode c =? 32))%nat.

Fixpoint trimStart (s : string) : string :=
  match s with
  | EmptyString => EmptyString
  | String c rest => if isWhitespace c then trimStart rest else s
  end.

Fixpoint trimEnd (s : string) : string :=
  match s with
  | EmptyString => EmptyString
  | String c rest =>
      match trimEnd rest with
      | EmptyString => if isWhitespace c then EmptyString else String c EmptyString
      | kept => String c kept
      end
  end.

Definition trim (s : string) : string := trimEnd (trimStart s).

(** Template-literal rendering of an integer number. *)
Definition numberToString (n : Z) : string := NilZero.string_of_int (Z.to_int n).

(** A JavaScript string is falsy exactly when it is empty. *)
Definition nonEmpty (s : string) : bool :=
  match s with EmptyString => false | String _ _ => true end.

(* ================================================================== *)
(** ** Values handed to the sanitizer *)

Inductive value : Type :=
  | VUndefined
  | VNull
  | VBool (b : bool)
  | VNumber (n : Z)
  | VString (s : string)
  | VArray (items : list value)
  | VObject (props : list (string * value)).

(** [typeof v === "object" && v !== null]. *)
Definition isObjectLike (v : value) : bool :=
  match v with
  | VArray _ | VObject _ => true
  | _ => false
  end.

(** JavaScript truthiness. *)
Definition truthy (v : value) : bool :=
  match v with
  | VUndefined | VNull => false
  | VBool b => b
  | VNumber n => negb (n =? 0)
  | VString s => nonEmpty s
  | VArray _ | VObject _ => true
  end.

Fixpoint lookupProp (key : string) (props : list (string * value)) : option value :=
  match props with
  | [] => None
  | (k, v) :: rest => if String.eqb k key then Some v else lookupProp key rest
  end.

(* ================================================================== *)
(** ** SanitizationConfig *)

Record SanitizationParams : Type := {
  sensitiveKeys : list string;
  maskValue : string;
  skipProperties : option (list string);
  truncateUrls : option bool;
  maxStringLength : option Z
}.

Definition defaultSanitizationParams : SanitizationParams := {|
  sensitiveKeys :=
    ["password"; "apiKey"; "secret"; "authorization"; "token";
     "accessToken"; "refreshToken"; "cookie"];
  maskValue := "********";
  skipProperties := None;
  truncateUrls := None;
  maxStringLength := None
|}.

(** [value.length > maxLength ? value.substring(0, maxLength) + "..." : value] *)
Definition truncateString (value : string) (maxLength : Z) : string :=
  if Z.of_nat (String.length value) >? maxLength
  then substring0 value maxLength +:+ "..."
  else value.

Definition sanitizeUrl (value : string) : string :=
  if includes value "http" then
    match indexOf value "http" with
    | Some httpIndex => substring0 value (Z.of_nat httpIndex) +:+ "..."
    | None => value
    end
  else value.

(** [config.maxStringLength] used as a condition: set and not zero. *)
Definition maxLengthInForce (config : SanitizationParams) : option Z :=
  match maxStringLength config with
  | Some n => if n =? 0 then None else Some n
  | None => None
  end.

Definition truncateUrlsInForce (config : SanitizationParams) : bool :=
  match truncateUrls config with Some b => b | None => false end.

(** The test of the deletion loop:
    [config.skipProperties.some(prop => key.toLowerCase().includes(prop.toLowerCase()))],
    guarded by [config.skipProperties && config.skipProperties.length > 0]. *)
Definition isSkippedKey (config : SanitizationParams) (key : string) : bool :=
  match skipProperties config with
  | Some skipped =>
      existsb (fun prop => includes (toLowerCase key) (toLowerCase prop)) skipped
  | None => false
  end.

(** [sensitiveKeysSet.has(key.toLowerCase()) ||
     config.sensitiveKeys.some(k => key.toLowerCase().includes(k.toLowerCase()))] *)
Definition isSensitiveKey (config : SanitizationParams) (key : string) : bool :=
  existsb (fun k => String.eqb (toLowerCase k) (toLowerCase key)) (sensitiveKeys config)
  || existsb (fun k => includes (toLowerCase key) (toLowerCase k)) (sensitiveKeys config).

(** The string branch of the property loop: URL rewriting, then truncation. *)
Definition processString (config : SanitizationParams) (value : string) : string :=
  let processedValue :=
    if truncateUrlsInForce config && includes value "http"
    then sanitizeUrl value else value in
  match maxLengthInForce config with
  | Some maxLength => truncateString processedValue maxLength
  | None => processedValue
  end.

(** [sanitizeData(data, config)].  The object case walks the shallow copy
    once: a property the deletion loop removes is dropped, every other one
    is rewritten by the [forEach] body. *)
Fixpoint sanitizeData (config : SanitizationParams) (data : value) : value :=
  match data with
  | VUndefined | VNull => data
  | VString s =>
      match maxLengthInForce config with
      | Some maxLength => VString (truncateString s maxLength)
      | None => data
      end
  | VBool _ | VNumber _ => data
  | VArray items =>
      VArray
        ((fix mapItems (l : list value) : list value :=
            match l with
            | [] => []
            | item :: rest =>
                (if isObjectLike item then sanitizeData config item else item)
                :: mapItems rest
            end) items)
  | VObject props =>
      VObject
        ((fix eachProp (l : list (string * value)) : list (string * value) :=
            match l with
            | [] => []
            | (key, v) :: rest =>
                if isSkippedKey config key then eachProp rest
                else
                  (key,
                   if isSensitiveKey config key then VString (maskValue config)
                   else match v with
                        | VString s => VString (processString config s)
                        | VArray _ | VObject _ => sanitizeData config v
                        | _ => v
                        end) :: eachProp rest
            end) props)
  end.

(** The two passes of the object case, as the source writes them. *)
Definition removeSkipped (config : SanitizationParams)
    (props : list (string * value)) : list (string * value) :=
  List.filter (fun kv => negb (isSkippedKey config (fst kv))) props.

Definition processProperty (config : SanitizationParams)
    (kv : string * value) : string * value :=
  (fst kv,
   if isSensitiveKey config (fst kv) then VString (maskValue config)
   else match snd kv with
        | VString s => VString (processString config s)
        | VArray _ | VObject _ => sanitizeData config (snd kv)
        | other => other
        end).

Definition sanitizeItem (config : SanitizationParams) (item : value) : value :=
  if isObjectLike item then sanitizeData config item else item.

(** Every property of [v], at any depth, whose key is sensitive holds the
    mask value. *)
Fixpoint allSensitiveMasked (config : SanitizationParams) (v : value) : bool :=
  match v with
  | VArray items => forallb (allSensitiveMasked config) items
  | VObject props =>
      forallb
        (fun kv =>
           if isSensitiveKey config kv.1 then
             match kv.2 with
             | VString s => String.eqb s (maskValue config)
             | _ => false
             end
           else allSensitiveMasked config kv.2)
        props
  | _ => true
  end.



Definition DQUOTE : ascii := ascii_of_nat 34.

(** The characters [sanitizeString] drops: quotes, backslash and angle
    brackets. *)
Definition isDangerousChar (c : ascii) : bool :=
  existsb (Ascii.eqb c) [DQUOTE; "'"; "\"; "<"; ">"]%char.

Definition sanitizeString (value : string) : string :=
  if nonEmpty value then trim (filterChars (fun c => negb (isDangerousChar c)) value)
  else EmptyString.

(* ================================================================== *)
(** ** ErrorProcessor.cleanMessage *)

Definition ESC : ascii := ascii_of_nat 27.
Definition LF : ascii := ascii_of_nat 10.

Definition isDigit (c : ascii) : bool :=
  ((48 <=? charCode c) && (charCode c <=? 57))%nat.

Definition isLetter (c : ascii) : bool :=
  (((65 <=? charCode c) && (charCode c <=? 90))
   || ((97 <=? charCode c) && (charCode c <=? 122)))%nat.

(** Length of a match of [\d+(?:;\d+)*m] at the head of [s].  The flag
    says whether the character just read was a digit: a digit is then
    needed after the opening bracket and after each semicolon.  The
    pattern is unambiguous, so backtracking finds no other match. *)
Fixpoint colorCodeTail (afterDigit : bool) (s : string) : option nat :=
  match s with
  | EmptyString => None
  | String c rest =>
      if isDigit c then S <$> colorCodeTail true rest
      else if afterDigit then
        if Ascii.eqb c ";" then S <$> colorCodeTail false rest
        else if Ascii.eqb c "m" then Some 1%nat
        else None
      else None
  end.

(** Length of a match of [[0-9;]*[A-Za-z]] at the head of [s]. *)
Fixpoint parameterTail (s : string) : option nat :=
  match s with
  | EmptyString => None
  | String c rest =>
      if isDigit c || Ascii.eqb c ";" then S <$> parameterTail rest
      else if isLetter c then Some 1%nat
      else None
  end.

(** Length of a match of [\??[0-9;]*[A-Za-z]] at the head of [s]. *)
Definition controlTail (s : string) : option nat :=
  match s with
  | String "?" rest => S <$> parameterTail rest
  | _ => parameterTail s
  end.

(** Length of a match, at the head of [s], of the pattern built in
    [cleanMessage]:
    [ESC \[ \d+ (?:;\d+)* m  |  ESC \?? [0-9;]* [A-Za-z]]. *)
Definition matchAnsi (s : string) : option nat :=
  match s with
  | String c rest =>
      if Ascii.eqb c ESC then
        match
          match rest with
          | String "[" params => S <$> colorCodeTail false params
          | _ => None
          end
        with
        | Some n => Some (S n)
        | None => S <$> controlTail rest
        end
      else None
  | EmptyString => None
  end.

(** [s.replace(pattern, empty)] with the [g] flag: scan from the left, drop
    each match and resume after it.  [skip] counts the characters of the
    current match still to drop. *)
Fixpoint stripAnsiFrom (skip : nat) (s : string) : string :=
  match s with
  | EmptyString => EmptyString
  | String c rest =>
      match skip with
      | S k => stripAnsiFrom k rest
      | O =>
          match matchAnsi s with
          | Some (S n) => stripAnsiFrom n rest
          | _ => String c (stripAnsiFrom 0 rest)
          end
      end
  end.

Definition stripAnsi (s : string) : string := stripAnsiFrom 0 s.

Fixpoint dropTrailingQuote (s : string) : string :=
  match s with
  | EmptyString => EmptyString
  | String c EmptyString => if Ascii.eqb c "'" then EmptyString else s
  | String c rest => String c (dropTrailingQuote rest)
  end.

(** [s.replace(/^'Error: |^'|'$/g, empty)]: the first two alternatives can
    only match at index 0, the third only on the last character. *)
Definition stripErrorPrefix (s : string) : string :=
  dropTrailingQuote
    (if startsWith s "'Error: " then dropChars 8 s
     else if startsWith s "'" then dropChars 1 s
     else s).

(** [s.split("\n")[0]]. *)
Fixpoint firstLine (s : string) : string :=
  match s with
  | EmptyString => EmptyString
  | String c rest => if Ascii.eqb c LF then EmptyString else String c (firstLine rest)
  end.

Definition cleanMessage (message : string) : string :=
  if nonEmpty message then
    let cleaned := sanitizeString message in
    let cleaned := stripAnsi cleaned in
    let cleaned := stripErrorPrefix cleaned in
    firstLine cleaned
  else EmptyString.

(** Every ESC character of [s] begins a match of the pattern, by either
    alternative. *)
Fixpoint everyEscStartsMatch (s : string) : bool :=
  match s with
  | EmptyString => true
  | String c rest =>
      (if Ascii.eqb c ESC then bool_decide (is_Some (matchAnsi s)) else true)
      && everyEscStartsMatch rest
  end.

(* ================================================================== *)
(** ** The error taxonomy *)

(** Modelled from the spec: the enumeration [ErrorCategory]
    (models/enums/errorCategory is not among the sources).  The members
    are those the source names; a member's string value is taken to be
    its name. *)
Inductive ErrorCategory : Type :=
  | NETWORK | HTTP_CLIENT | HTTP_SERVER | AUTHENTICATION | AUTHORIZATION
  | NOT_FOUND | CONNECTION | QUERY | TRANSACTION | CONSTRAINT | DATABASE
  | PERMISSION | CONFLICT | CONFIGURATION | NOT_IMPLEMENTED | SERVICE
  | TIMEOUT | UI | ELEMENT | NAVIGATION | SELECTOR | ASSERTION | VALIDATION
  | IO | PARSING | SERIALIZATION | SETUP | TEARDOWN | TEST | FIXTURE
  | PERFORMANCE | MEMORY | RESOURCE_LIMIT | ENVIRONMENT | DEPENDENCY
  | FILE_NOT_FOUND | PATH_IS_DIRECTORY | NOT_A_DIRECTORY
  | DIRECTORY_NOT_EMPTY | FILE_EXISTS | ACCESS_DENIED | FILE_BUSY
  | FILE_TOO_LARGE | FILE_NAME_TOO_LONG | NO_SPACE | READ_ONLY_FILE_SYSTEM
  | UNKNOWN.

Definition categoryName (c : ErrorCategory) : string :=
  match c with
  | NETWORK => "NETWORK" | HTTP_CLIENT => "HTTP_CLIENT"
  | HTTP_SERVER => "HTTP_SERVER" | AUTHENTICATION => "AUTHENTICATION"
  | AUTHORIZATION => "AUTHORIZATION" | NOT_FOUND => "NOT_FOUND"
  | CONNECTION => "CONNECTION" | QUERY => "QUERY"
  | TRANSACTION => "TRANSACTION" | CONSTRAINT => "CONSTRAINT"
  | DATABASE => "DATABASE" | PERMISSION => "PERMISSION"
  | CONFLICT => "CONFLICT" | CONFIGURATION => "CONFIGURATION"
  | NOT_IMPLEMENTED => "NOT_IMPLEMENTED" | SERVICE => "SERVICE"
  | TIMEOUT => "TIMEOUT" | UI => "UI" | ELEMENT => "ELEMENT"
  | NAVIGATION => "NAVIGATION" | SELECTOR => "SELECTOR"
  | ASSERTION => "ASSERTION" | VALIDATION => "VALIDATION" | IO => "IO"
  | PARSING => "PARSING" | SERIALIZATION => "SERIALIZATION"
  | SETUP => "SETUP" | TEARDOWN => "TEARDOWN" | TEST => "TEST"
  | FIXTURE => "FIXTURE" | PERFORMANCE => "PERFORMANCE"
  | MEMORY => "MEMORY" | RESOURCE_LIMIT => "RESOURCE_LIMIT"
  | ENVIRONMENT => "ENVIRONMENT" | DEPENDENCY => "DEPENDENCY"
  | FILE_NOT_FOUND => "FILE_NOT_FOUND"
  | PATH_IS_DIRECTORY => "PATH_IS_DIRECTORY"
  | NOT_A_DIRECTORY => "NOT_A_DIRECTORY"
  | DIRECTORY_NOT_EMPTY => "DIRECTORY_NOT_EMPTY"
  | FILE_EXISTS => "FILE_EXISTS" | ACCESS_DENIED => "ACCESS_DENIED"
  | FILE_BUSY => "FILE_BUSY" | FILE_TOO_LARGE => "FILE_TOO_LARGE"
  | FILE_NAME_TOO_LONG => "FILE_NAME_TOO_LONG" | NO_SPACE => "NO_SPACE"
  | READ_ONLY_FILE_SYSTEM => "READ_ONLY_FILE_SYSTEM"
  | UNKNOWN => "UNKNOWN"
  end.

Definition allCategories : list ErrorCategory :=
  [NETWORK; HTTP_CLIENT; HTTP_SERVER; AUTHENTICATION; AUTHORIZATION;
   NOT_FOUND; CONNECTION; QUERY; TRANSACTION; CONSTRAINT; DATABASE;
   PERMISSION; CONFLICT; CONFIGURATION; NOT_IMPLEMENTED; SERVICE; TIMEOUT;
   UI; ELEMENT; NAVIGATION; SELECTOR; ASSERTION; VALIDATION; IO; PARSING;
   SERIALIZATION; SETUP; TEARDOWN; TEST; FIXTURE; PERFORMANCE; MEMORY;
   RESOURCE_LIMIT; ENVIRONMENT; DEPENDENCY; FILE_NOT_FOUND;
   PATH_IS_DIRECTORY; NOT_A_DIRECTORY; DIRECTORY_NOT_EMPTY; FILE_EXISTS;
   ACCESS_DENIED; FILE_BUSY; FILE_TOO_LARGE; FILE_NAME_TOO_LONG; NO_SPACE;
   READ_ONLY_FILE_SYSTEM; UNKNOWN].

(** [name in ErrorCategory], returning the member. *)
Definition parseCategory (name : string) : option ErrorCategory :=
  List.find (fun c => String.eqb (categoryName c) name) allCategories.

(* ================================================================== *)
(** ** Error values *)

(** The parts of an axios error the code reads, typed as axios declares
    them. *)
Record AxiosResponse : Type := {
  status : Z;
  statusText : string;
  data : value
}.

Record AxiosRequestConfig : Type := {
  configUrl : option string;
  configMethod : option string;
  configHeaders : value
}.

Record AxiosError : Type := {
  response : option AxiosResponse;
  config : option AxiosRequestConfig
}.

(** [PlaywrightMatcherResult] of models/interfaces/errorHandler. *)
Record PlaywrightMatcherResult : Type := {
  matcherName : string;
  pass : bool;
  expected : value;
  actual : value;
  matcherMessage : option string;
  log : option (list string)
}.

(** An object caught as an error.
    - [instanceOfError]: [error instanceof Error];
    - [errorMessage]: [error.message] of an [Error] instance;
    - [appErrorCategory]: set when [error instanceof AppError], to the
      string held by its [category];
    - [axiosError]: set exactly when [axios.isAxiosError(error)];
    - [matcherResult]: set when ["matcherResult" in error], to the
      property's value ([None] inside for [undefined]); the code reads
      it on instances of [Error] only;
    - [ownProps]: the own enumerable properties, [code] among them.  A
      property that holds a function is listed with the value
      [VUndefined]: the pipeline tells either from a string and from an
      object by [typeof], and [JSON.stringify] leaves out both. *)
Record ErrorObject : Type := {
  instanceOfError : bool;
  errorMessage : string;
  appErrorCategory : option string;
  axiosError : option AxiosError;
  matcherResult : option (option PlaywrightMatcherResult);
  ownProps : list (string * value)
}.

(** What [String(error)] does with an object: the conversion every
    object inherits, a conversion of the object's own that returns a
    text, or one that raises (a [toString] that throws; an object
    without prototype, on which the runtime raises a [TypeError]). *)
Inductive Conversion (T : Type) : Type :=
  | DefaultConversion
  | Converts (text : string)
  | ConversionRaises (e : T).
Arguments DefaultConversion {T}.
Arguments Converts {T} text.
Arguments ConversionRaises {T} e.

(** The code an object brings with it, by what it does at the four
    places where the pipeline runs it; [T] is the type of what is raised.
    - [conversion]: [String(error)];
    - [assignRaises]: the reads of
      [Object.getOwnPropertyNames(error).reduce(...)] and the writes of
      [Object.assign(error, errorObj)] raise this (a frozen error, a
      property that cannot be written, an accessor that throws);
    - [traversalRaises]: [sanitizeData], run over the object's own
      properties, its request headers or its response data, raises this
      (an accessor that throws; a structure that contains itself, on
      which the runtime raises a [RangeError]);
    - [stringifyRaises]: [JSON.stringify] of the extra details raises
      this (a [toJSON] method that throws, a value that cannot be
      serialized).
    The outcome is taken to be the same each time the place is reached;
    the tests of the object's kind ([instanceof], [in],
    [axios.isAxiosError]) and the reads of its properties outside these
    places are taken to run no code. *)
Record UserCode (T : Type) : Type := {
  conversion : Conversion T;
  assignRaises : option T;
  traversalRaises : option T;
  stringifyRaises : option T
}.
Arguments conversion {T} _.
Arguments assignRaises {T} _.
Arguments traversalRaises {T} _.
Arguments stringifyRaises {T} _.

(** Whatever a [catch] clause can receive:
    - [ThrownObject o]: an ordinary error object, with the inherited
      conversion to a string, properties that are plain writable data,
      and no cycle;
    - [ThrownValue v]: a plain value (a string, a number, a data object,
      an array, ...);
    - [ThrownWithCode o code]: an object that reads as [o] and brings
      the code [code] with it. *)
Inductive thrown : Type :=
  | ThrownObject (o : ErrorObject)
  | ThrownValue (v : value)
  | ThrownWithCode (o : ErrorObject) (code : UserCode thrown).

(** The outcome of a call that may raise. *)
Inductive result (A : Type) : Type :=
  | Ok (a : A)
  | Throw (e : thrown).
Arguments Ok {A} a.
Arguments Throw {A} e.

Definition bindResult {A B : Type} (r : result A) (k : A -> result B) : result B :=
  match r with
  | Ok a => k a
  | Throw e => Throw e
  end.

(** A step that raises [e] when [failure] is [Some e]. *)
Definition raiseIf (failure : option thrown) : result unit :=
  match failure with
  | Some e => Throw e
  | None => Ok tt
  end.

(** The code a thrown value brings with it, if any. *)
Definition userCode (error : thrown) : option (UserCode thrown) :=
  match error with
  | ThrownWithCode _ code => Some code
  | _ => None
  end.


(** What the code of [error] raises at the place [site]. *)
Definition raisedAt (site : UserCode thrown -> option thrown) (error : thrown)
    : option thrown :=
  match userCode error with
  | Some code => site code
  | None => None
  end.

Notation "'let*' x ':=' r 'in' k" := (bindResult r (fun x => k))
  (at level 10, x name, r at level 100, k at level 200).

(** The collaborators of the pipeline.
    - [urlPathname u] is [new URL(u, "http://example.com").pathname], and
      [None] when the constructor raises its [TypeError];
    - [getDefaultParams] is the current process-wide sanitization default.

    Modelled from the spec: [isExpectedStatus] and [isNegativeTest] are
    the two lookups of [RequestContext] (utils/errors/requestContext is
    not among the sources), each a total boolean function. *)
Class Platform : Type := {
  urlPathname : string -> option string;
  isExpectedStatus : string -> Z -> bool;
  isNegativeTest : string -> bool;
  getDefaultParams : SanitizationParams
}.

(** The [TypeError] raised by [new URL] on an input it cannot parse. *)
Definition invalidUrlError : thrown :=
  ThrownObject {|
    instanceOfError := true;
    errorMessage := "Invalid URL";
    appErrorCategory := None;
    axiosError := None;
    matcherResult := None;
    ownProps := [("code", VString "ERR_INVALID_URL")]
  |}.

(** [String(v)]. *)
Fixpoint toStringValue (v : value) : string :=
  match v with
  | VUndefined => "undefined"
  | VNull => "null"
  | VBool true => "true"
  | VBool false => "false"
  | VNumber n => numberToString n
  | VString s => s
  | VArray items =>
      (fix join (l : list value) : string :=
         match l with
         | [] => EmptyString
         | item :: rest =>
             (match item with
              | VUndefined | VNull => EmptyString
              | _ => toStringValue item
              end)
             +:+ (match rest with [] => EmptyString | _ => "," +:+ join rest end)
         end) items
  | VObject _ => "[object Object]"
  end.

(** [axios.isAxiosError(error)]. *)
Definition isAxiosError (error : thrown) : option AxiosError :=
  match error with
  | ThrownObject o | ThrownWithCode o _ => axiosError o
  | ThrownValue _ => None
  end.

(** [error.response?.status], with [undefined] as [None]. *)
Definition responseStatus (ax : AxiosError) : option Z :=
  status <$> response ax.

(** [error.response?.status] used as a condition. *)
Definition truthyStatus (ax : AxiosError) : option Z :=
  match responseStatus ax with
  | Some n => if n =? 0 then None else Some n
  | None => None
  end.

(** [error.config?.url]. *)
Definition requestUrl (ax : AxiosError) : option string :=
  match config ax with
  | Some c => configUrl c
  | None => None
  end.

(** [error.message] of an error object. *)
Definition messageOf (o : ErrorObject) : value :=
  if instanceOfError o then VString (errorMessage o)
  else match lookupProp "message" (ownProps o) with
       | Some m => m
       | None => VUndefined
       end.

(* ================================================================== *)
(** ** ErrorProcessor *)

Record ErrorDetails : Type := {
  source : string;
  context : string;
  message : string;
  category : ErrorCategory;
  statusCode : option Z;
  url : option string
}.

Section ErrorProcessor.
Context `{platform : Platform}.

Definition formatAxiosErrorMessage (o : ErrorObject) (ax : AxiosError) : result string :=
  let status := responseStatus ax in
  let statusText := statusText <$> response ax in
  let* url :=
    match requestUrl ax with
    | Some u =>
        if nonEmpty u then
          match urlPathname u with
          | Some path => Ok path
          | None => Throw invalidUrlError
          end
        else Ok "unknown"
    | None => Ok "unknown"
    end in
  Ok ("HTTP "
      +:+ (match truthyStatus ax with Some n => numberToString n | None => "Error" end)
      +:+ ": "
      +:+ (match statusText with
           | Some t => if nonEmpty t then t else toStringValue (messageOf o)
           | None => toStringValue (messageOf o)
           end)
      +:+ " ("
      +:+ (match config ax with
           | Some c =>
               match configMethod c with
               | Some m => if nonEmpty m then m else "GET"
               | None => "GET"
               end
           | None => "GET"
           end)
      +:+ " " +:+ url +:+ ")").

Definition getErrorMessage (error : thrown) : result string :=
  match error with
  | ThrownObject o | ThrownWithCode o _ =>
      if instanceOfError o then Ok (cleanMessage (errorMessage o))
      else
        match axiosError o with
        | Some ax => formatAxiosErrorMessage o ax
        | None =>
            match lookupProp "message" (ownProps o) with
            | Some (VString m) => Ok (cleanMessage m)
            | _ => Ok "Unknown error occurred"
            end
        end
  | ThrownValue (VString s) => Ok (cleanMessage s)
  | ThrownValue (VObject props) =>
      match lookupProp "message" props with
      | Some (VString m) => Ok (cleanMessage m)
      | _ => Ok "Unknown error occurred"
      end
  | ThrownValue _ => Ok "Unknown error occurred"
  end.

(** [error instanceof Error ? error.message.toLowerCase()
                             : String(error).toLowerCase()].
    [String] gives [[object Object]] for an object with the inherited
    conversion, and runs the object's own conversion when it has one. *)
Definition getErrorMessageAsLowerCase (error : thrown) : result string :=
  match error with
  | ThrownObject o =>
      if instanceOfError o then Ok (toLowerCase (errorMessage o))
      else Ok (toLowerCase "[object Object]")
  | ThrownValue v => Ok (toLowerCase (toStringValue v))
  | ThrownWithCode o code =>
      if instanceOfError o then Ok (toLowerCase (errorMessage o))
      else
        match conversion code with
        | DefaultConversion => Ok (toLowerCase "[object Object]")
        | Converts text => Ok (toLowerCase text)
        | ConversionRaises e => Throw e
        end
  end.

Definition containsAnyKeyword (text : string) (keywords : list string) : bool :=
  existsb (fun keyword => includes text keyword) keywords.

(** [error instanceof Error && "matcherResult" in error]. *)
Definition hasMatcherResult (error : thrown) : bool :=
  match error with
  | ThrownObject o | ThrownWithCode o _ =>
      instanceOfError o && bool_decide (is_Some (matcherResult o))
  | ThrownValue _ => false
  end.

(** The two keyword tests that close [getContextFromError]. *)
Definition keywordContext (errorMessage : string) : string :=
  if containsAnyKeyword errorMessage ["database"; "query"; "sql"]
  then "Database Error"
  else if containsAnyKeyword errorMessage ["permission"; "access"; "unauthorized"]
  then "Permission Error"
  else "General Error".

Definition getContextFromError (error : thrown) : result string :=
  if bool_decide (is_Some (isAxiosError error)) then Ok "API Request Error"
  else if hasMatcherResult error then Ok "Playwright Test Error"
  else
    let* errorMessage := getErrorMessageAsLowerCase error in
    Ok (keywordContext errorMessage).

(** The label [getContextFromError] returns, when it returns. *)
Definition derivedContext (error : thrown) : string :=
  match getContextFromError error with
  | Ok label => label
  | Throw _ => EmptyString
  end.

Definition categorizeAxiosError (ax : AxiosError) : ErrorCategory :=
  match truthyStatus ax with
  | None => NETWORK
  | Some statusCode =>
      if statusCode =? 401 then AUTHENTICATION
      else if statusCode =? 403 then AUTHORIZATION
      else if statusCode =? 404 then NOT_FOUND
      else if (400 <=? statusCode) && (statusCode <? 500) then HTTP_CLIENT
      else if 500 <=? statusCode then HTTP_SERVER
      else UNKNOWN
  end.

(** The [switch] on [error.code]. *)
Definition categoryOfCode (code : value) : option ErrorCategory :=
  match code with
  | VString c =>
      if String.eqb c "ENOENT" then Some FILE_NOT_FOUND
      else if String.eqb c "EISDIR" then Some PATH_IS_DIRECTORY
      else if String.eqb c "ENOTDIR" then Some NOT_A_DIRECTORY
      else if String.eqb c "ENOTEMPTY" then Some DIRECTORY_NOT_EMPTY
      else if String.eqb c "EEXIST" then Some FILE_EXISTS
      else if String.eqb c "EACCES" then Some ACCESS_DENIED
      else if String.eqb c "EBUSY" then Some FILE_BUSY
      else if String.eqb c "EFBIG" then Some FILE_TOO_LARGE
      else if String.eqb c "ENAMETOOLONG" then Some FILE_NAME_TOO_LONG
      else if String.eqb c "ENOSPC" then Some NO_SPACE
      else if String.eqb c "EROFS" then Some READ_ONLY_FILE_SYSTEM
      else None
  | _ => None
  end.

(** The keyword table, in the order of the object literal. *)
Definition patterns : list (ErrorCategory * list string) :=
  [(CONNECTION, ["connection"; "connect"]);
   (QUERY, ["query"; "sql"]);
   (TRANSACTION, ["transaction"]);
   (CONSTRAINT, ["constraint"; "duplicate"]);
   (DATABASE, ["database"; "db"]);
   (PERMISSION, ["permission"; "access"; "denied"]);
   (NOT_FOUND, ["not found"; "missing"; "doesn't exist"]);
   (CONFLICT, ["conflict"]);
   (AUTHENTICATION, ["authentication"; "login"]);
   (AUTHORIZATION, ["authorization"; "forbidden"]);
   (CONFIGURATION, ["configuration"; "config"]);
   (NOT_IMPLEMENTED, ["not_implemented"; "unimplemented"]);
   (SERVICE, ["service"; "unavailable"]);
   (NETWORK, ["network"]);
   (TIMEOUT, ["timeout"; "gateway"; "retry"]);
   (UI, ["ui"; "interface"; "view"; "render"]);
   (ELEMENT, ["element"; "component"; "dom"]);
   (NAVIGATION, ["navigation"; "route"; "redirect"]);
   (SELECTOR, ["selector"; "locator"; "xpath"; "css"]);
   (ASSERTION, ["assertion"; "expect"; "should"]);
   (VALIDATION, ["validation"; "invalid"; "schema"]);
   (IO, ["i/o"; "input/output"]);
   (PARSING, ["parse"; "parsing"]);
   (SERIALIZATION, ["serialize"; "serialization"]);
   (SETUP, ["setup"; "before"; "beforeAll"]);
   (TEARDOWN, ["teardown"; "after"; "afterAll"]);
   (TEST, ["test failed"; "test error"]);
   (FIXTURE, ["fixture"]);
   (PERFORMANCE, ["performance"; "slow"; "timeout"]);
   (MEMORY, ["memory"; "out of memory"; "heap"]);
   (RESOURCE_LIMIT, ["resource limit"; "quota"]);
   (ENVIRONMENT, ["environment"; "env"; "variable"]);
   (DEPENDENCY, ["dependency"; "module"; "import"]);
   (FILE_NOT_FOUND, ["file not found"; "no such file"; "doesn't exist"]);
   (PATH_IS_DIRECTORY,
    ["is a directory"; "cannot write to directory";
     "cannot read directory as file"]);
   (NOT_A_DIRECTORY, ["not a directory"]);
   (DIRECTORY_NOT_EMPTY, ["directory not empty"]);
   (FILE_EXISTS, ["file already exists"; "already exists"]);
   (ACCESS_DENIED, ["permission denied"; "access denied"]);
   (NO_SPACE, ["no space"; "disk full"]);
   (FILE_TOO_LARGE, ["file too large"])].

(** The loop over [Object.entries(patterns)]. *)
Definition categoryOfKeywords (msg : string) : option ErrorCategory :=
  fst <$> List.find (fun entry => existsb (fun keyword => includes msg keyword) (snd entry))
                    patterns.

(** [categorizeErrorByMessage(error)], [error] an instance of [Error]. *)
Definition categorizeErrorByMessage (o : ErrorObject) : ErrorCategory :=
  let msg := toLowerCase (errorMessage o) in
  match
    match lookupProp "code" (ownProps o) with
    | Some code => categoryOfCode code
    | None => None
    end
  with
  | Some c => c
  | None =>
      match categoryOfKeywords msg with
      | Some c => c
      | None =>
          match appErrorCategory o with
          | Some name =>
              match parseCategory name with
              | Some c => c
              | None => UNKNOWN
              end
          | None => UNKNOWN
          end
      end
  end.

Definition categorizeError (error : thrown) : ErrorCategory :=
  match isAxiosError error with
  | Some ax => categorizeAxiosError ax
  | None =>
      if hasMatcherResult error then TEST
      else
        match error with
        | ThrownObject o | ThrownWithCode o _ =>
            if instanceOfError o then categorizeErrorByMessage o else UNKNOWN
        | ThrownValue _ => UNKNOWN
        end
  end.

(** [addHttpDetailsIfAvailable]: the record with [statusCode] and [url]
    set, when the error is an axios error with a truthy status. *)
Definition addHttpDetailsIfAvailable (error : thrown) (details : ErrorDetails)
    : ErrorDetails :=
  match isAxiosError error with
  | Some ax =>
      match truthyStatus ax with
      | Some n =>
          {| source := source details; context := context details;
             message := message details; category := category details;
             statusCode := Some n; url := requestUrl ax |}
      | None => details
      end
  | None => details
  end.

(** The closing step of [createErrorDetails] on an instance of [Error]:
    the own properties of [error] other than [stack] are read, and
    [Object.assign(error, errorObj)] writes the values read back to
    [error].  On an ordinary error it changes nothing; otherwise it
    raises what the code of the error raises. *)
Definition assignBack (error : thrown) : result unit :=
  match error with
  | ThrownWithCode o code => if instanceOfError o then raiseIf (assignRaises code) else Ok tt
  | _ => Ok tt
  end.

(** [createErrorDetails(error, source, context?)]. *)
Definition createErrorDetails (error : thrown) (source : string)
    (context : option string) : result ErrorDetails :=
  let* context :=
    match context with
    | Some c => if nonEmpty c then Ok c else getContextFromError error
    | None => getContextFromError error
    end in
  let* message := getErrorMessage error in
  let details :=
    {| source := source; context := context; message := message;
       category := categorizeError error; statusCode := None; url := None |} in
  let details := addHttpDetailsIfAvailable error details in
  let* _ := assignBack error in
  Ok details.

Definition createCacheKey (details : ErrorDetails) : string :=
  source details +:+ "_" +:+ categoryName (category details) +:+ "_"
  +:+ substring0 (message details) 50.

(** [sanitizeObject(obj)]. *)
Definition sanitizeObject (obj : value) : value :=
  if truthy obj then
    let customSanitizationParams :=
      {| sensitiveKeys := sensitiveKeys getDefaultParams;
         maskValue := maskValue getDefaultParams;
         skipProperties := Some ["stack"];
         truncateUrls := Some true;
         maxStringLength := Some 1000 |} in
    sanitizeData customSanitizationParams obj
  else VObject [].

(** [SanitizationConfig.sanitizeHeaders(headers)]. *)
Definition sanitizeHeaders (headers : value) : value :=
  if truthy headers && isObjectLike headers
  then sanitizeData getDefaultParams headers
  else VObject [].

Definition extractPlaywrightDetails (matcher : option PlaywrightMatcherResult) : value :=
  match matcher with
  | None => VObject []
  | Some matcher =>
      VObject
        [("name", VString (matcherName matcher));
         ("pass", VBool (pass matcher));
         ("expected", expected matcher);
         ("actual", actual matcher);
         ("message",
          match matcherMessage matcher with
          | Some m => if nonEmpty m then VString (cleanMessage m) else VUndefined
          | None => VUndefined
          end);
         ("log",
          match log matcher with
          | Some entries =>
              VArray
                (List.map (fun entry => VString (cleanMessage entry))
                   (List.filter (fun entry => negb (includes entry "http")) entries))
          | None => VUndefined
          end)]
  end.

Definition optionalString (s : option string) : value :=
  match s with Some s => VString s | None => VUndefined end.

Definition extractAxiosDetails (ax : AxiosError) : result value :=
  let result :=
    [("status", match responseStatus ax with Some n => VNumber n | None => VUndefined end);
     ("statusText", optionalString (statusText <$> response ax))] in
  let* result :=
    match config ax with
    | Some c =>
        let* url :=
          match configUrl c with
          | Some u =>
              if nonEmpty u then
                match urlPathname u with
                | Some path => Ok (VString path)
                | None => Throw invalidUrlError
                end
              else Ok VUndefined
          | None => Ok VUndefined
          end in
        Ok (result ++ [("method", optionalString (configMethod c));
                       ("url", url);
                       ("headers", sanitizeHeaders (configHeaders c))])
    | None => Ok result
    end in
  match response ax with
  | Some r =>
      if truthy (data r) && isObjectLike (data r)
      then Ok (VObject (result ++ [("data", sanitizeObject (data r))]))
      else Ok (VObject result)
  | None => Ok (VObject result)
  end.

(** [extractAxiosDetails] hands the request headers or the response
    data to [sanitizeData]. *)
Definition sanitizesParts (ax : AxiosError) : bool :=
  match config ax with
  | Some c => truthy (configHeaders c) && isObjectLike (configHeaders c)
  | None => false
  end
  || match response ax with
     | Some r => truthy (data r) && isObjectLike (data r)
     | None => false
     end.

Definition extractExtraDetails (error : thrown) : result value :=
  match error with
  | ThrownObject o | ThrownWithCode o _ =>
      if hasMatcherResult error then
        Ok (extractPlaywrightDetails
              (match matcherResult o with Some m => m | None => None end))
      else
        match axiosError o with
        | Some ax =>
            let* details := extractAxiosDetails ax in
            let* _ :=
              if sanitizesParts ax then raiseIf (raisedAt traversalRaises error)
              else Ok tt in
            Ok details
        | None =>
            let* _ := raiseIf (raisedAt traversalRaises error) in
            Ok (sanitizeObject (VObject (ownProps o)))
        end
  | ThrownValue v =>
      if isObjectLike v then Ok (sanitizeObject v) else Ok (VObject [])
  end.

End ErrorProcessor.

(* ================================================================== *)
(** ** ErrorHandler *)

(** A line handed to the log sink.  [logger.error] always receives
    [JSON.stringify(v, null, 2)]; the line records [v] itself. *)
Inductive LogLine : Type :=
  | InfoLine (text : string)
  | ErrorLine (json : value).

(** The process-wide state: the insertion-ordered set [loggedErrors] and
    the lines written to the sink so far. *)
Record HandlerState : Type := {
  loggedErrors : list string;
  logLines : list LogLine
}.

Definition MAX_CACHE_SIZE : nat := 1000.

(** [Set.prototype.add]: a new key goes last, a present key stays. *)
Definition setAdd (key : string) (keys : list string) : list string :=
  if bool_decide (key ∈ keys) then keys else keys ++ [key].

(** [Set.prototype.delete]. *)
Definition setDelete (key : string) (keys : list string) : list string :=
  List.filter (fun k => negb (String.eqb k key)) keys.

(** [manageCacheSize(cacheKey)], on the set alone. *)
Definition manageCacheSize (cacheKey : string) (cache : list string) : list string :=
  let cache := setAdd cacheKey cache in
  if (MAX_CACHE_SIZE <? length cache)%nat then
    match cache with
    | firstItem :: _ => setDelete firstItem cache
    | [] => cache
    end
  else cache.

Definition loggerInfo (text : string) (st : HandlerState) : HandlerState :=
  {| loggedErrors := loggedErrors st; logLines := logLines st ++ [InfoLine text] |}.

Definition loggerError (json : value) (st : HandlerState) : HandlerState :=
  {| loggedErrors := loggedErrors st; logLines := logLines st ++ [ErrorLine json] |}.

Definition detailsToValue (details : ErrorDetails) : value :=
  VObject
    ([("source", VString (source details));
      ("context", VString (context details));
      ("message", VString (message details));
      ("category", VString (categoryName (category details)))]
     ++ match statusCode details with
        | Some n => [("statusCode", VNumber n); ("url", optionalString (url details))]
        | None => []
        end).

(** [Object.keys(v).length]. *)
Definition keyCount (v : value) : nat :=
  match v with
  | VObject props => length props
  | VArray items => length items
  | _ => 0%nat
  end.

(** [extraDetails?.statusText || "Unknown"]. *)
Definition extraType (extraDetails : value) : value :=
  match extraDetails with
  | VObject props =>
      match lookupProp "statusText" props with
      | Some t => if truthy t then t else VString "Unknown"
      | None => VString "Unknown"
      end
  | _ => VString "Unknown"
  end.

Section ErrorHandler.
Context `{platform : Platform}.

Definition shouldSkipErrorLogging (error : thrown) (context : option string) : bool :=
  match context with
  | Some context =>
      if nonEmpty context then
        match isAxiosError error with
        | Some ax =>
            match truthyStatus ax with
            | Some n => isExpectedStatus context n && isNegativeTest context
            | None => false
            end
        | None => false
        end
      else false
  | None => false
  end.

(** The text of the informational line; [context] is rendered as the
    template literal does. *)
Definition expectedErrorLine (context : option string) (n : Z) : string :=
  "Expected error in negative test ["
  +:+ (match context with Some c => c | None => "undefined" end)
  +:+ "]: Status " +:+ numberToString n.

(** The [try] block of [captureError]: the state it leaves, and whether
    it completed or raised.  It can raise where [createErrorDetails]
    does, where the extra details are collected, and where
    [JSON.stringify] is given them. *)
Definition captureErrorTry (error : thrown) (source : string)
    (context : option string) (st : HandlerState) : HandlerState * result unit :=
  if shouldSkipErrorLogging error context then
    match isAxiosError error with
    | Some ax =>
        match truthyStatus ax with
        | Some n => (loggerInfo (expectedErrorLine context n) st, Ok tt)
        | None => (st, Ok tt)
        end
    | None => (st, Ok tt)
    end
  else
    match createErrorDetails error source context with
    | Throw e => (st, Throw e)
    | Ok details =>
        let cacheKey := createCacheKey details in
        if bool_decide (cacheKey ∈ loggedErrors st) then (st, Ok tt)
        else
          let st :=
            {| loggedErrors := manageCacheSize cacheKey (loggedErrors st);
               logLines := logLines st |} in
          let sanitizedDetails := sanitizeObject (detailsToValue details) in
          let st := loggerError sanitizedDetails st in
          match extractExtraDetails error with
          | Throw e => (st, Throw e)
          | Ok extraDetails =>
              if (0 <? keyCount extraDetails)%nat then
                match raisedAt stringifyRaises error with
                | Some e => (st, Throw e)
                | None =>
                    (loggerError
                       (VObject [("source", VString source);
                                 ("type", extraType extraDetails);
                                 ("details", extraDetails)]) st,
                     Ok tt)
                end
              else (st, Ok tt)
          end
    end.

(** The [catch] block.  Nothing guards it: what [getErrorMessage] raises
    on the failure leaves [captureError]. *)
Definition captureErrorCatch (loggingError : thrown) (source : string)
    (st : HandlerState) : HandlerState * result unit :=
  match getErrorMessage loggingError with
  | Ok message =>
      (loggerError
         (VObject [("source", VString source);
                   ("context", VString "Error Handler Failure");
                   ("message", VString message);
                   ("category", VString (categoryName UNKNOWN))]) st,
       Ok tt)
  | Throw e => (st, Throw e)
  end.

Definition captureError (error : thrown) (source : string)
    (context : option string) (st : HandlerState) : HandlerState * result unit :=
  match captureErrorTry error source context st with
  | (st', Ok _) => (st', Ok tt)
  | (st', Throw loggingError) => captureErrorCatch loggingError source st'
  end.

(** [resetCache()]. *)
Definition resetCache (st : HandlerState) : HandlerState :=
  {| loggedErrors := []; logLines := logLines st |}.

(** A sequence of [captureError] calls, each made in the state the
    previous one left. *)
Definition captureAll (calls : list (thrown * string * option string))
    (st : HandlerState) : HandlerState :=
  foldl (fun st call =>
           match call with
           | (error, source, context) => (captureError error source context st).1
           end) st calls.

(** The fingerprint a call computes, when it reaches that step. *)
Definition fingerprintOf (call : thrown * string * option string) : option string :=
  match call with
  | (error, source, context) =>
      if shouldSkipErrorLogging error context then None
      else match createErrorDetails error source context with
           | Ok details => Some (createCacheKey details)
           | Throw _ => None
           end
  end.

End ErrorHandler.

(** A platform for running the definitions: a URL parser for absolute
    [http://] and [https://] URLs with a non-empty host and for
    references starting with a slash (the path runs to the first [?] or
    [#]); no status is an expected result. *)
Fixpoint untilQueryOrFragment (s : string) : string :=
  match s with
  | EmptyString => EmptyString
  | String c rest =>
      if Ascii.eqb c "?" || Ascii.eqb c "#" then EmptyString
      else String c (untilQueryOrFragment rest)
  end.

Fixpoint afterAuthority (s : string) : string :=
  match s with
  | EmptyString => EmptyString
  | String c rest =>
      if Ascii.eqb c "/" || Ascii.eqb c "?" || Ascii.eqb c "#" then s
      else afterAuthority rest
  end.

Definition simpleUrlPathname (u : string) : option string :=
  let absolute (rest : string) :=
    match rest with
    | EmptyString => None
    | String c _ =>
        if Ascii.eqb c "/" || Ascii.eqb c "?" || Ascii.eqb c "#" then None
        else match untilQueryOrFragment (afterAuthority rest) with
             | EmptyString => Some "/"
             | path => Some path
             end
    end in
  if startsWith u "https://" then absolute (dropChars 8 u)
  else if startsWith u "http://" then absolute (dropChars 7 u)
  else if startsWith u "/" then Some (untilQueryOrFragment u)
  else Some ("/" +:+ untilQueryOrFragment u).

Definition samplePlatform : Platform := {|
  urlPathname := simpleUrlPathname;
  isExpectedStatus := fun _ _ => false;
  isNegativeTest := fun _ => false;
  getDefaultParams := defaultSanitizationParams
|}.

(** A platform on which context ["negative login"] expects status 401. *)
Definition negativeTestPlatform : Platform := {|
  urlPathname := simpleUrlPathname;
  isExpectedStatus := fun context n => String.eqb context "negative login" && (n =? 401);
  isNegativeTest := fun context => String.eqb context "negative login";
  getDefaultParams := defaultSanitizationParams
|}.

Definition emptyState : HandlerState := {| loggedErrors := []; logLines := [] |}.

(** No key occurs twice, as a test. *)
Fixpoint allDistinct (keys : list string) : bool :=
  match keys with
  | [] => true
  | key :: rest => negb (existsb (String.eqb key) rest) && allDistinct rest
  end.

(* ================================================================== *)
(** ** sanitizeData over a store of mutable objects

    The same function with objects and arrays held in a store and named
    by references, as the JavaScript runtime has them: [{...data}] and
    [data.map] allocate, [delete] and assignment write to the store. *)

Definition loc : Type := nat.

Inductive ref_value : Type :=
  | RUndefined
  | RNull
  | RBool (b : bool)
  | RNumber (n : Z)
  | RString (s : string)
  | RRef (l : loc).

Inductive heap_object : Type :=
  | HArray (items : list ref_value)
  | HObject (props : list (string * ref_value)).

Abbreviation heap := (gmap loc heap_object).

Definition allocate (o : heap_object) (h : heap) : loc * heap :=
  let l := fresh (dom h) in (l, <[l := o]> h).

(** [keys.includes(key)] for the keys an object has. *)
Fixpoint assignProp (key : string) (v : ref_value)
    (props : list (string * ref_value)) : list (string * ref_value) :=
  match props with
  | [] => [(key, v)]
  | (k, old) :: rest =>
      if String.eqb k key then (k, v) :: rest
      else (k, old) :: assignProp key v rest
  end.

Fixpoint readProp (key : string) (props : list (string * ref_value)) : ref_value :=
  match props with
  | [] => RUndefined
  | (k, v) :: rest => if String.eqb k key then v else readProp key rest
  end.

Definition objectProps (o : loc) (h : heap) : list (string * ref_value) :=
  match h !! o with
  | Some (HObject props) => props
  | _ => []
  end.

(** [Object.keys(o)]. *)
Definition objectKeys (o : loc) (h : heap) : list string := (objectProps o h).*1.

(** [o[key]]. *)
Definition getProp (o : loc) (key : string) (h : heap) : ref_value :=
  readProp key (objectProps o h).

(** [o[key] = v]. *)
Definition setProp (o : loc) (key : string) (v : ref_value) (h : heap) : heap :=
  match h !! o with
  | Some (HObject props) => <[o := HObject (assignProp key v props)]> h
  | _ => h
  end.

(** [delete o[key]]. *)
Definition deleteProp (o : loc) (key : string) (h : heap) : heap :=
  match h !! o with
  | Some (HObject props) =>
      <[o := HObject (List.filter (fun kv => negb (String.eqb kv.1 key)) props)]> h
  | _ => h
  end.

(** [a[k]] of an array. *)
Definition getItem (a : loc) (k : nat) (h : heap) : option ref_value :=
  match h !! a with
  | Some (HArray items) => items !! k
  | _ => None
  end.

(** The store of the next element of the array [map] is building. *)
Definition pushItem (a : loc) (v : ref_value) (h : heap) : heap :=
  match h !! a with
  | Some (HArray items) => <[a := HArray (items ++ [v])]> h
  | _ => h
  end.

Definition isRef (v : ref_value) : bool :=
  match v with RRef _ => true | _ => false end.

(** The callbacks of [data.map] for indices [k], [k+1], ..., [count]
    of them; each reads [data[k]] when its turn comes.  [None] is the
    [RangeError] of an exhausted call stack. *)
Fixpoint mapLoop (recur : ref_value -> heap -> heap * option ref_value)
    (data target : loc) (k count : nat) (h : heap) : heap * option unit :=
  match count with
  | O => (h, Some tt)
  | S count' =>
      match getItem data k h with
      | Some item =>
          match (if isRef item then recur item h else (h, Some item)) with
          | (h, Some mapped) => mapLoop recur data target (S k) count' (pushItem target mapped h)
          | (h, None) => (h, None)
          end
      | None => mapLoop recur data target (S k) count' h
      end
  end.

(** The loop that deletes the skipped properties of the copy. *)
Fixpoint deleteLoop (config : SanitizationParams) (copy : loc)
    (keys : list string) (h : heap) : heap :=
  match keys with
  | [] => h
  | key :: rest =>
      deleteLoop config copy rest
        (if isSkippedKey config key then deleteProp copy key h else h)
  end.

(** The [forEach] over the remaining keys of the copy. *)
Fixpoint forEachLoop (recur : ref_value -> heap -> heap * option ref_value)
    (config : SanitizationParams) (copy : loc) (keys : list string) (h : heap)
    : heap * option unit :=
  match keys with
  | [] => (h, Some tt)
  | key :: rest =>
      if isSensitiveKey config key then
        forEachLoop recur config copy rest
          (setProp copy key (RString (maskValue config)) h)
      else
        match getProp copy key h with
        | RString s =>
            forEachLoop recur config copy rest
              (setProp copy key (RString (processString config s)) h)
        | RRef l =>
            match recur (RRef l) h with
            | (h, Some sanitized) =>
                forEachLoop recur config copy rest (setProp copy key sanitized h)
            | (h, None) => (h, None)
            end
        | _ => forEachLoop recur config copy rest h
        end
  end.

(** [sanitizeData(data, config)] in store [h], with room for [depth]
    nested calls: the store it leaves, and the value returned ([None]
    when the call stack is exhausted, as on a cyclic structure). *)
Fixpoint sanitizeDataH (depth : nat) (config : SanitizationParams)
    (data : ref_value) (h : heap) : heap * option ref_value :=
  match data with
  | RUndefined | RNull => (h, Some data)
  | RString s =>
      (h, Some (match maxLengthInForce config with
                | Some maxLength => RString (truncateString s maxLength)
                | None => data
                end))
  | RBool _ | RNumber _ => (h, Some data)
  | RRef l =>
      match depth with
      | O => (h, None)
      | S depth' =>
          match h !! l with
          | Some (HArray items) =>
              let '(target, h) := allocate (HArray []) h in
              match mapLoop (sanitizeDataH depth' config) l target 0 (length items) h with
              | (h, Some _) => (h, Some (RRef target))
              | (h, None) => (h, None)
              end
          | Some (HObject props) =>
              let '(copy, h) := allocate (HObject props) h in
              let h :=
                match skipProperties config with
                | Some (_ :: _) => deleteLoop config copy (objectKeys copy h) h
                | _ => h
                end in
              match forEachLoop (sanitizeDataH depth' config) config copy
                      (objectKeys copy h) h with
              | (h, Some _) => (h, Some (RRef copy))
              | (h, None) => (h, None)
              end
          | None => (h, Some RUndefined)
          end
      end
  end.

(** The tree a store value denotes, read to depth [depth], provided none
    of its objects and arrays lies at a location of [old]. *)
Fixpoint readOutside (old : gset loc) (depth : nat) (h : heap) (v : ref_value)
    : option value :=
  match v with
  | RUndefined => Some VUndefined
  | RNull => Some VNull
  | RBool b => Some (VBool b)
  | RNumber n => Some (VNumber n)
  | RString s => Some (VString s)
  | RRef l =>
      match depth with
      | O => None
      | S depth' =>
          if decide (l ∈ old) then None
          else
            match h !! l with
            | Some (HArray items) =>
                VArray <$> mapM (readOutside old depth' h) items
            | Some (HObject props) =>
                VObject
                  <$> mapM (fun kv => pair kv.1 <$> readOutside old depth' h kv.2) props
            | None => None
            end
      end
  end.

(** [item] denotes [t]; the property [kv] denotes the property [kt]. *)
Definition itemReads (old : gset loc) (depth : nat) (h : heap)
    (item : ref_value) (t : value) : Prop :=
  readOutside old depth h item = Some t.

Definition propReads (old : gset loc) (depth : nat) (h : heap)
    (kv : string * ref_value) (kt : string * value) : Prop :=
  kv.1 = kt.1 /\ readOutside old depth h kv.2 = Some kt.2.

(** Outside [old], every object and array of [h] is found unchanged in
    [h']. *)
Definition preservedOutside (old : gset loc) (h h' : heap) : Prop :=
  forall l c, l ∉ old -> h !! l = Some c -> h' !! l = Some c.

(** The tree a store value denotes. *)
Definition readValue (depth : nat) (h : heap) (v : ref_value) : option value :=
  readOutside ∅ depth h v.

(** No object of [v] has two properties of one key, as in JavaScript. *)
Fixpoint uniqueKeys (v : value) : bool :=
  match v with
  | VArray items => forallb uniqueKeys items
  | VObject props =>
      allDistinct (List.map fst props)
      && forallb (fun kv => uniqueKeys kv.2) props
  | _ => true
  end.

(* ================================================================== *)
(** ** ErrorProcessor: the stricter cleaning pass *)

(** The policy [sanitizeObject] builds from the current defaults. *)
Definition customSanitizationParams `{platform : Platform} : SanitizationParams := {|
  sensitiveKeys := sensitiveKeys getDefaultParams;
  maskValue := maskValue getDefaultParams;
  skipProperties := Some ["stack"];
  truncateUrls := Some true;
  maxStringLength := Some 1000
|}.

(** What [sanitizeObject] leaves fit for a log, at any depth: no
    property whose key is skipped; under a sensitive key the mask; any
    other string property free of [http] and within [maxLength] and the
    three dots. *)
Fixpoint fitForLog (config : SanitizationParams) (maxLength : Z) (v : value) : bool :=
  match v with
  | VArray items =>
      forallb (fun item => if isObjectLike item then fitForLog config maxLength item else true)
        items
  | VObject props =>
      forallb
        (fun kv =>
           negb (isSkippedKey config kv.1)
           && if isSensitiveKey config kv.1 then
                match kv.2 with
                | VString s => String.eqb s (maskValue config)
                | _ => false
                end
              else
                match kv.2 with
                | VString s =>
                    negb (includes s "http")
                    && (Z.of_nat (String.length s) <=? maxLength + 3)
                | VArray _ | VObject _ => fitForLog config maxLength kv.2
                | _ => true
                end)
        props
  | _ => true
  end.

Definition processSanitizedString (value : string) : string :=
  let cleanValue := cleanMessage value in
  if includes cleanValue "http" then
    match indexOf cleanValue "http" with
    | Some httpIndex => substring0 cleanValue (Z.of_nat httpIndex) +:+ "..."
    | None => cleanValue
    end
  else if Z.of_nat (String.length cleanValue) >? 1000
       then substring0 cleanValue 1000 +:+ "..."
       else cleanValue.

Section CleaningPass.
Context `{platform : Platform}.

(** [processSanitizedObject(key, value)]; the [catch] around
    [sanitizeObject] guards against an exhausted call stack, which a
    finite value does not cause. *)
Definition processSanitizedObject (key : string) (v : value) : value :=
  if negb (String.eqb key "parent") && negb (String.eqb key "cause")
  then sanitizeObject v
  else VString "[Circular Reference]".

Definition processSanitizedValue (key : string) (v : value) : value :=
  match v with
  | VString s => VString (processSanitizedString s)
  | VArray _ | VObject _ => processSanitizedObject key v
  | _ => v
  end.

(** [processAndCleanSanitizedObject(sanitized)].  The result starts as
    an empty object literal, so an assignment to the key [__proto__]
    reaches the prototype setter and leaves no property. *)
Definition processAndCleanSanitizedObject (sanitized : list (string * value))
    : list (string * value) :=
  let skipProps := ["stack"] in
  List.map (fun kv => (kv.1, processSanitizedValue kv.1 kv.2))
    (List.filter
       (fun kv =>
          negb (existsb (fun prop => includes (toLowerCase kv.1) prop) skipProps)
          && negb (String.eqb kv.1 "__proto__"))
       sanitized).

End CleaningPass.

(* ================================================================== *)
(** ** ErrorHandler: the other entry points *)

(** Computations of the handler: they read and write the process-wide
    state and may raise. *)
Definition handled (A : Type) : Type := HandlerState -> HandlerState * result A.

Definition pureH {A : Type} (a : A) : handled A := fun st => (st, Ok a).

Definition raise {A : Type} (e : thrown) : handled A := fun st => (st, Throw e).

Definition andThen {A B : Type} (m : handled A) (k : A -> handled B) : handled B :=
  fun st =>
    match m st with
    | (st', Ok a) => k a st'
    | (st', Throw e) => (st', Throw e)
    end.

(** [try { body } catch (error) { handler }]. *)
Definition tryCatch {A : Type} (body : handled A) (handler : thrown -> handled A)
    : handled A :=
  fun st =>
    match body st with
    | (st', Throw e) => handler e st'
    | (st', Ok a) => (st', Ok a)
    end.

Definition liftResult {A : Type} (r : result A) : handled A := fun st => (st, r).

(** [new Error(message)]. *)
Definition newError (message : string) : thrown :=
  ThrownObject {|
    instanceOfError := true;
    errorMessage := message;
    appErrorCategory := None;
    axiosError := None;
    matcherResult := None;
    ownProps := []
  |}.

Section EntryPoints.
Context `{platform : Platform}.

Definition logAndThrow {A : Type} (message source : string) : handled A :=
  andThen (captureError (newError message) source None)
    (fun _ => raise (newError message)).

(** [context ? `${context} (non-fatal)` : "Non-fatal error"]. *)
Definition nonFatalContext (context : option string) : string :=
  match context with
  | Some c => if nonEmpty c then c +:+ " (non-fatal)" else "Non-fatal error"
  | None => "Non-fatal error"
  end.

Definition logAndContinue (error : thrown) (source : string)
    (context : option string) : handled unit :=
  captureError error source (Some (nonFatalContext context)).

(* ------------------------------------------------------------------ *)
(** *** FileManager: the checks on paths *)

(** [s.endsWith(suffix)]. *)
Fixpoint endsWith (s suffix : string) : bool :=
  String.eqb s suffix
  || match s with
     | EmptyString => false
     | String _ rest => endsWith rest suffix
     end.

Definition validatePath (filePath paramName : string) : handled unit :=
  andThen
    (if nonEmpty filePath then pureH tt
     else logAndThrow ("Invalid arguments: '" +:+ paramName +:+ "' is required.")
            "validatePath")
    (fun _ =>
       if String.eqb paramName "filePath"
          && (endsWith filePath "/" || endsWith filePath "\")
       then logAndThrow
              ("Invalid file path: '" +:+ filePath
               +:+ "' cannot end with a directory separator.")
              "validatePath"
       else pureH tt).

(** [throw ErrorHandler.captureError(...)]: [captureError] returns
    nothing, and that is what is raised. *)
Definition throwCaptured {A : Type} (error : thrown) (source context : string)
    : handled A :=
  andThen (captureError error source (Some context))
    (fun _ => raise (ThrownValue VUndefined)).

End EntryPoints.

(** The two functions of the [path] module the checks use:
    [resolveFromCwd p] is [path.resolve(process.cwd(), p)] and
    [pathJoin] is [path.join]. *)
Class NodePath : Type := {
  resolveFromCwd : string -> string;
  pathJoin : string -> string -> string
}.

Section FileManagerPaths.
Context `{platform : Platform} `{nodePath : NodePath}.

Definition getDirPath (dirPath : string) : handled string :=
  tryCatch
    (andThen (validatePath dirPath "dirPath")
       (fun _ => pureH (resolveFromCwd dirPath)))
    (fun error =>
       throwCaptured error "getDirPath"
         ("Failed to resolve directory path: " +:+ dirPath)).

Definition getFilePath (dirPath fileName : string) : handled string :=
  tryCatch
    (andThen (validatePath dirPath "dirPath") (fun _ =>
     andThen (validatePath fileName "fileName") (fun _ =>
     andThen (getDirPath dirPath) (fun fullDirPath =>
     pureH (pathJoin fullDirPath fileName)))))
    (fun error =>
       throwCaptured error "getFilePath"
         ("Failed to construct file path for dirPath: '" +:+ dirPath
          +:+ "', fileName: '" +:+ fileName +:+ "'")).

End FileManagerPaths.

(* ================================================================== *)
(** ** Environment settings *)

(** [process.env]: the variables that are set.  The code reads some of
    them when a class is loaded or built and others at each call; the
    environment is taken not to change in between. *)
Definition environment : Type := string -> option string.

(** [EnvironmentDetector.isRunningInCIEnvironment()]. *)
Definition isRunningInCIEnvironment (env : environment) : bool :=
  existsb
    (fun name => match env name with Some v => nonEmpty v | None => false end)
    ["CI"; "GITHUB_ACTIONS"; "GITLAB_CI"; "TRAVIS"; "CIRCLECI"; "JENKINS_URL";
     "BITBUCKET_BUILD_NUMBER"].

(** [process.env.NAME ?? ""]. *)
Definition envOrEmpty (env : environment) (name : string) : string :=
  match env name with Some v => v | None => EmptyString end.

Record UserCredentials : Type := {
  username : string;
  password : string
}.

(** [validateEnvironmentVariable(value, variableName)]; a variable that
    is not set reads as [None]. *)
Definition validateEnvironmentVariable (value : option string)
    (variableName : string) : result unit :=
  match value with
  | Some v =>
      if negb (nonEmpty v) || String.eqb (trim v) EmptyString
      then Throw (newError ("Environment variable " +:+ variableName
                            +:+ " is not set or is empty"))
      else Ok tt
  | None =>
      Throw (newError ("Environment variable " +:+ variableName
                       +:+ " is not set or is empty"))
  end.

Section EnvironmentSettings.
Context `{platform : Platform}.
Variable env : environment.

(** [getEnvironmentVariable(getValue, variableName, methodName,
    errorMessage, sanitize)], with [value] what [getValue()] returns. *)
Definition getEnvironmentVariable (value : option string)
    (variableName methodName errorMessage : string) (sanitize : bool)
    : handled string :=
  tryCatch
    (andThen (liftResult (validateEnvironmentVariable value variableName))
       (fun _ =>
          pureH (match value with
                 | Some v => if sanitize then sanitizeString v else v
                 | None => EmptyString
                 end)))
    (fun error =>
       andThen (captureError error methodName (Some errorMessage))
         (fun _ => raise error)).

Definition getCIPortalBaseUrl : handled string :=
  getEnvironmentVariable (Some (envOrEmpty env "CI_PORTAL_BASE_URL"))
    "CI_PORTAL_BASE_URL" "retrievePortalBaseUrl"
    "Failed to retrieve portal base URL" true.

Definition getLocalPortalBaseUrl : handled string :=
  getEnvironmentVariable (env "PORTAL_URL")
    "PORTAL_URL" "retrieveLocalPortalBaseUrl"
    "Failed to retrieve local portal base URL" false.

Definition getCIApiBaseUrl : handled string :=
  getEnvironmentVariable (Some (envOrEmpty env "CI_API_BASE_URL"))
    "CI_API_BASE_URL" "retrieveApiBaseUrl"
    "Failed to retrieve API base URL" true.

Definition getLocalApiBaseUrl : handled string :=
  getEnvironmentVariable (env "API_BASE_URL")
    "API_URL" "retrieveLocalApiBaseUrl"
    "Failed to retrieve local API base URL" false.

Definition verifyCredentials (credentials : UserCredentials) : handled unit :=
  if negb (nonEmpty (username credentials)) || negb (nonEmpty (password credentials))
  then logAndThrow "Invalid credentials: Missing username or password."
         "EnvironmentVariablesManager"
  else pureH tt.

Definition getCICredentials : handled UserCredentials :=
  tryCatch
    (let credentials :=
       {| username := sanitizeString (envOrEmpty env "CI_PORTAL_USERNAME");
          password := sanitizeString (envOrEmpty env "CI_PORTAL_PASSWORD") |} in
     andThen (verifyCredentials credentials) (fun _ => pureH credentials))
    (fun error =>
       andThen (captureError error "retrieveCiEnvironmentVariables"
                  (Some "Failed to retrieve CI credentials"))
         (fun _ => raise error)).

(** [EnvironmentResolver.getEnvironmentValue]. *)
Definition getEnvironmentValue {A : Type} (ciMethod localMethod : handled A)
    (methodName errorMessage : string) : handled A :=
  tryCatch
    (if isRunningInCIEnvironment env then ciMethod else localMethod)
    (fun error =>
       andThen (captureError error methodName (Some errorMessage))
         (fun _ => raise error)).

Definition getPortalBaseUrl : handled string :=
  getEnvironmentValue getCIPortalBaseUrl getLocalPortalBaseUrl
    "fetchPortalBaseUrl" "Failed to fetch portal base URL".

Definition getApiBaseUrl : handled string :=
  getEnvironmentValue getCIApiBaseUrl getLocalApiBaseUrl
    "fetchApiBaseUrl" "Failed to fetch API base URL".

End EnvironmentSettings.

(** [getAuthStoragePath()]. *)
Definition getAuthStoragePath (env : environment) : string :=
  match env "CI" with
  | Some v => if nonEmpty v then ".auth/ci-login.json" else ".auth/local-login.json"
  | None => ".auth/local-login.json"
  end.

(** The record of an [Error] with message [message], logged from [from]
    with the context [given], a non-empty string. *)
Definition contextRecord (message from given : string) : ErrorDetails := {|
  source := from;
  context := given;
  message := cleanMessage message;
  category := categorizeErrorByMessage
                {| instanceOfError := true; errorMessage := message;
                   appErrorCategory := None; axiosError := None;
                   matcherResult := None; ownProps := [] |};
  statusCode := None;
  url := None
|}.

(* ================================================================== *)
(** ** Inputs of the specification's scenarios *)

(** Scenario C: [{token: "abc123", nested: {password: "xyz"}}]. *)
Definition scenarioC_input : value :=
  VObject [("token", VString "abc123");
           ("nested", VObject [("password", VString "xyz")])].

Definition scenarioC_output : value :=
  VObject [("token", VString "********");
           ("nested", VObject [("password", VString "********")])].



(** A message with two colour codes and a second line. *)
Definition colouredMessage : string :=
  String ESC "[31mred" +:+ String ESC "[0;1m alert" +:+ String LF "    at frame".

(** A message that begins with the control sequence [ESC [ 2 K], which
    erases the line, and one that holds the sequences [ESC c] and
    [ESC 7 A]. *)
Definition eraseLineMessage : string := String ESC "[2Kdone".

Definition resetMessage : string := String ESC "c" +:+ String ESC "7Aready".

(** Scenario B: the fields the scenario fixes. *)
Definition scenarioB_url : string := "https://api.example.com/users/42".

Definition isScenarioB (o : ErrorObject) : Prop :=
  exists ax r c,
    axiosError o = Some ax
    /\ response ax = Some r /\ status r = 404 /\ statusText r = "Not Found"
    /\ config ax = Some c
    /\ configUrl c = Some scenarioB_url /\ configMethod c = Some "GET".

Definition scenarioB_axios : AxiosError := {|
  response := Some {| status := 404; statusText := "Not Found"; data := VUndefined |};
  config := Some {| configUrl := Some scenarioB_url;
                    configMethod := Some "GET";
                    configHeaders := VUndefined |}
|}.

(** Scenario B as an axios-shaped object that is not an [Error]. *)
Definition scenarioB_error : ErrorObject := {|
  instanceOfError := false;
  errorMessage := EmptyString;
  appErrorCategory := None;
  axiosError := Some scenarioB_axios;
  matcherResult := None;
  ownProps := []
|}.

(** Scenario B as an instance of [Error], as the axios library raises it. *)
Definition scenarioB_instance : ErrorObject := {|
  instanceOfError := true;
  errorMessage := "Request failed with status code 404";
  appErrorCategory := None;
  axiosError := Some scenarioB_axios;
  matcherResult := None;
  ownProps := [("code", VString "ERR_BAD_REQUEST")]
|}.

(** A file-system error whose message also holds a keyword. *)
Definition enoentPermissionError : ErrorObject := {|
  instanceOfError := true;
  errorMessage := "ENOENT: permission check failed, open '/etc/app.json'";
  appErrorCategory := None;
  axiosError := None;
  matcherResult := None;
  ownProps := [("errno", VNumber (-2)); ("code", VString "ENOENT");
               ("syscall", VString "open")]
|}.

(** The same error without its [code]. *)
Definition permissionMessageError : ErrorObject := {|
  instanceOfError := true;
  errorMessage := "ENOENT: permission check failed, open '/etc/app.json'";
  appErrorCategory := None;
  axiosError := None;
  matcherResult := None;
  ownProps := []
|}.


(** The record logged when the handler itself fails. *)
Definition fallbackRecord (source message : string) : value :=
  VObject [("source", VString source);
           ("context", VString "Error Handler Failure");
           ("message", VString message);
           ("category", VString "UNKNOWN")].

(** A 401 answer, as met by a negative login test. *)
Definition unauthorizedError : ErrorObject := {|
  instanceOfError := true;
  errorMessage := "Request failed with status code 401";
  appErrorCategory := None;
  axiosError :=
    Some {| response := Some {| status := 401; statusText := "Unauthorized";
                                data := VUndefined |};
            config := None |};
  matcherResult := None;
  ownProps := []
|}.

(** Calls number [0] to [n-1] of a run of thrown strings, each with a
    fingerprint of its own. *)
Definition numberedCall (i : nat) : thrown * string * option string :=
  (ThrownValue (VString "worker stopped"),
   numberToString (Z.of_nat i), None).

Definition numberedKey (i : nat) : string :=
  numberToString (Z.of_nat i) +:+ "_UNKNOWN_worker stopped".

(** Scenario C laid out in a store: the outer object at location 0,
    the nested one at location 1. *)
Definition scenarioC_store : heap :=
  <[0%nat := HObject [("token", RString "abc123"); ("nested", RRef 1%nat)]]>
    (<[1%nat := HObject [("password", RString "xyz")]]> ∅).

(** The policy [sanitizeObject] uses when the defaults are the initial
    ones. *)
Definition sampleObjectPolicy : SanitizationParams :=
  customSanitizationParams (platform := samplePlatform).

(** A policy that asks for nothing. *)
Definition plainPolicy : SanitizationParams := {|
  sensitiveKeys := [];
  maskValue := "********";
  skipProperties := Some [];
  truncateUrls := Some false;
  maxStringLength := Some 0
|}.

(** Policies with an empty entry in a key list. *)
Definition emptyKeyPolicy : SanitizationParams := {|
  sensitiveKeys := [EmptyString];
  maskValue := "#";
  skipProperties := None;
  truncateUrls := None;
  maxStringLength := None
|}.

Definition emptySkipPolicy : SanitizationParams := {|
  sensitiveKeys := [];
  maskValue := "#";
  skipProperties := Some [EmptyString];
  truncateUrls := None;
  maxStringLength := None
|}.

(** An [Error] with code [EACCES] whose message names no keyword. *)
Definition accessDeniedError : ErrorObject := {|
  instanceOfError := true;
  errorMessage := "open failed";
  appErrorCategory := None;
  axiosError := None;
  matcherResult := None;
  ownProps := [("code", VString "EACCES")]
|}.

(** A response with status 302. *)
Definition redirectAxios : AxiosError := {|
  response := Some {| status := 302; statusText := "Found"; data := VUndefined |};
  config := None
|}.


(** An axios error as axios raises it, an instance of [Error], whose
    request URL cannot be parsed. *)
Definition unparsableUrlInstance : ErrorObject := {|
  instanceOfError := true;
  errorMessage := "Network Error";
  appErrorCategory := None;
  axiosError :=
    Some {| response := None;
            config := Some {| configUrl := Some "https://";
                              configMethod := Some "post";
                              configHeaders := VUndefined |} |};
  matcherResult := None;
  ownProps := []
|}.

(** The record of [new Error(message)] built without a context. *)
Definition errorRecord (message from : string) : ErrorDetails := {|
  source := from;
  context := keywordContext (toLowerCase message);
  message := cleanMessage message;
  category := categorizeErrorByMessage
                {| instanceOfError := true; errorMessage := message;
                   appErrorCategory := None; axiosError := None;
                   matcherResult := None; ownProps := [] |};
  statusCode := None;
  url := None
|}.

(** A stand-in for the [path] module, for running the definitions on
    relative paths without dots: the working directory is [/work]. *)
Definition sampleNodePath : NodePath := {|
  resolveFromCwd := fun p => "/work/" +:+ p;
  pathJoin := fun dir name => dir +:+ "/" +:+ name
|}.

(** A build on Jenkins, where [CI] itself is not set. *)
Definition jenkinsEnvironment : environment :=
  fun name =>
    if String.eqb name "JENKINS_URL" then Some "https://jenkins.example/" else None.

(** A CI build with the portal variables set, and a local run. *)
Definition ciEnvironment : environment :=
  fun name =>
    if String.eqb name "CI" then Some "true"
    else if String.eqb name "CI_PORTAL_BASE_URL" then Some " https://portal.example/<uat> "
    else if String.eqb name "CI_PORTAL_USERNAME" then Some "robot"
    else if String.eqb name "CI_PORTAL_PASSWORD" then Some "p'ss<w>rd"
    else None.

Definition localEnvironment : environment :=
  fun name =>
    if String.eqb name "PORTAL_URL" then Some " https://portal.example/<uat> "
    else None.

(** A CI build with no portal variable set. *)
Definition bareCiEnvironment : environment :=
  fun name => if String.eqb name "CI" then Some "true" else None.

(** A store with one object, which is its own parent. *)
Definition selfReferringStore : heap :=
  {[ 0%nat := HObject [("name", RString "node"); ("parent", RRef 0%nat)] ]}.

(** A failed login: the request carries a token in its query string and
    in a header, the answer a stack trace and the address of a page. *)
Definition loginFailure : AxiosError := {|
  response :=
    Some {| status := 500; statusText := "Internal Server Error";
            data := VObject [("error", VString "see https://status.example.com/incident");
                             ("stackTrace", VString "at login (auth.js:10)");
                             ("sessionToken", VString "s3cr3t")] |};
  config :=
    Some {| configUrl := Some "https://api.example.com/login?token=abc";
            configMethod := Some "post";
            configHeaders :=
              VObject [("Authorization", VString "Bearer abc");
                       ("Accept", VString "application/json")] |}
|}.

(** What [extractAxiosDetails] reports of it. *)
Definition loginFailureDetails : value :=
  VObject [("status", VNumber 500);
           ("statusText", VString "Internal Server Error");
           ("method", VString "post");
           ("url", VString "/login");
           ("headers", VObject [("Authorization", VString "********");
                                ("Accept", VString "application/json")]);
           ("data", VObject [("error", VString "see ...");
                             ("sessionToken", VString "********")])].

(** A failed listing: the answer is an array of strings, one of them
    the address of a page with a token in its query string. *)
Definition listingFailure : AxiosError := {|
  response :=
    Some {| status := 502; statusText := "Bad Gateway";
            data := VArray [VString "upstream refused";
                            VString "see https://status.example.com/incident?token=abc"] |};
  config := None
|}.

(** A local run with [API_URL] set and [API_BASE_URL] not. *)
Definition apiUrlEnvironment : environment :=
  fun name => if String.eqb name "API_URL" then Some "https://api.example" else None.

(** A failed assertion on a login form: the expected value holds the
    password that was typed. *)
Definition failedAssertion : ErrorObject := {|
  instanceOfError := true;
  errorMessage := "expect(received).toEqual(expected)";
  appErrorCategory := None;
  axiosError := None;
  matcherResult :=
    Some (Some {| matcherName := "toEqual";
                  pass := false;
                  expected := VObject [("password", VString "hunter2")];
                  actual := VObject [("password", VNull)];
                  matcherMessage := None;
                  log := None |});
  ownProps := []
|}.

(** The object [{ isAxiosError: true, config: { url: "http://" } }]:
    axios takes it for one of its errors, and its URL cannot be parsed. *)
Definition axiosShapedFailure : thrown :=
  ThrownObject {|
    instanceOfError := false;
    errorMessage := EmptyString;
    appErrorCategory := None;
    axiosError :=
      Some {| response := None;
              config := Some {| configUrl := Some "http://";
                                configMethod := None;
                                configHeaders := VUndefined |} |};
    matcherResult := None;
    ownProps := [("isAxiosError", VBool true);
                 ("config", VObject [("url", VString "http://")])]
  |}.

(** The object [{ toJSON() { throw failure } }], with [failure] the
    object above. *)
Definition throwingToJSON : thrown :=
  ThrownWithCode
    {| instanceOfError := false;
       errorMessage := EmptyString;
       appErrorCategory := None;
       axiosError := None;
       matcherResult := None;
       ownProps := [("toJSON", VUndefined)] |}
    {| conversion := DefaultConversion;
       assignRaises := None;
       traversalRaises := None;
       stringifyRaises := Some axiosShapedFailure |}.

(** An instance of a class whose [toString] throws that object. *)
Definition throwingToString : thrown :=
  ThrownWithCode
    {| instanceOfError := false;
       errorMessage := EmptyString;
       appErrorCategory := None;
       axiosError := None;
       matcherResult := None;
       ownProps := [] |}
    {| conversion := ConversionRaises axiosShapedFailure;
       assignRaises := None;
       traversalRaises := None;
       stringifyRaises := None |}.



(* ================================================================== *)
(** * Properties *)

(** ** Strings *)

Lemma length_takeChars n s :
  String.length (takeChars n s) = (n `min` String.length s)%nat.
Proof.
  revert s; induction n as [|n IH]; intros [|c s]; simpl; auto.
Qed.

Lemma takeChars_append n s t :
  (n <= String.length s)%nat -> takeChars n (s +:+ t) = takeChars n s.
Proof.
  revert s; induction n as [|n IH]; intros [|c s] Hn; simpl in *;
    try reflexivity; try lia.
  f_equal. apply IH. lia.
Qed.

Lemma takeChars_takeChars n s : takeChars n (takeChars n s) = takeChars n s.
Proof.
  revert s; induction n as [|n IH]; intros [|c s]; simpl; auto.
  f_equal. apply IH.
Qed.

Lemma takeChars_all n s : (String.length s <= n)%nat -> takeChars n s = s.
Proof.
  revert s; induction n as [|n IH]; intros [|c s] Hn; simpl in *;
    try reflexivity; try lia.
  f_equal. apply IH. lia.
Qed.

Lemma length_append s t :
  String.length (s +:+ t) = (String.length s + String.length t)%nat.
Proof. induction s as [|c s IH]; simpl; auto. Qed.

Lemma startsWith_takeChars n s p :
  startsWith (takeChars n s) p = true -> startsWith s p = true.
Proof.
  revert n s; induction p as [|a p IH]; intros n s Hs; [destruct s; reflexivity|].
  destruct n as [|n], s as [|b s]; simpl in *; try discriminate.
  destruct (Ascii.eqb a b); [eauto | discriminate].
Qed.

Lemma includes_takeChars n s p :
  includes (takeChars n s) p = true -> includes s p = true.
Proof.
  revert n; induction s as [|c s IH]; intros n Hs.
  - destruct n; exact Hs.
  - cbn [includes]. apply orb_true_iff.
    destruct n as [|n].
    + left. cbn [takeChars includes] in Hs. rewrite orb_false_r in Hs.
      apply (startsWith_takeChars 0 (String c s)). exact Hs.
    + cbn [takeChars includes] in Hs. apply orb_true_iff in Hs as [Hs|Hs].
      * left. apply (startsWith_takeChars (S n) (String c s)). exact Hs.
      * right. eauto.
Qed.

(** Appending dots to a string creates no occurrence of [http]. *)
Lemma startsWith_http_dots s :
  startsWith (s +:+ "...") "http" = true -> startsWith s "http" = true.
Proof.
  destruct s as [|a [|b [|c [|d s]]]]; cbv -[Ascii.eqb];
    repeat match goal with
           | |- context [if Ascii.eqb ?x ?y then _ else _] =>
               first [ is_var y; destruct (Ascii.eqb x y)
                     | change (Ascii.eqb x y) with false; cbv iota ]
           end; auto.
  destruct s; auto.
Qed.
Lemma includes_http_dots s :
  includes s "http" = false -> includes (s +:+ "...") "http" = false.
Proof.
  induction s as [|c s IH]; intros Hs; [reflexivity|].
  cbn [includes] in Hs. apply orb_false_iff in Hs as [H1 H2].
  change (String c s +:+ "...") with (String c (s +:+ "...")).
  cbn [includes]. apply orb_false_iff. split; [|auto].
  destruct (startsWith (String c (s +:+ "...")) "http") eqn:E; [|reflexivity].
  apply (startsWith_http_dots (String c s)) in E. congruence.
Qed.

Lemma includes_before_indexOf s p i :
  p <> EmptyString -> indexOf s p = Some i -> includes (takeChars i s) p = false.
Proof.
  intros Hp. revert i; induction s as [|c s IH]; intros i Hi.
  - destruct i, p; simpl; congruence.
  - cbn [indexOf] in Hi. destruct (startsWith (String c s) p) eqn:E.
    + inversion Hi; subst. destruct p; simpl; congruence.
    + destruct (indexOf s p) as [j|] eqn:Ej; [|discriminate].
      inversion Hi; subst; clear Hi.
      change (takeChars (S j) (String c s)) with (String c (takeChars j s)).
      cbn [includes]. apply orb_false_iff. split; [|auto].
      destruct (startsWith (String c (takeChars j s)) p) eqn:E'; [|reflexivity].
      apply (startsWith_takeChars (S j) (String c s)) in E'. congruence.
Qed.

Lemma includes_takeChars_false n s p :
  includes s p = false -> includes (takeChars n s) p = false.
Proof.
  intros Hs. destruct (includes (takeChars n s) p) eqn:E; [|reflexivity].
  apply includes_takeChars in E. congruence.
Qed.

(** ** Truncation and URL rewriting *)

Lemma truncateString_idem s m :
  truncateString (truncateString s m) m = truncateString s m.
Proof.
  unfold truncateString.
  destruct (Z.of_nat (String.length s) >? m) eqn:E; [|by rewrite E].
  assert (Hlen : (Z.to_nat m <= String.length s)%nat)
    by (apply Z.gtb_lt in E; lia).
  unfold substring0.
  rewrite length_append, length_takeChars. cbn [String.length].
  replace (Z.of_nat ((Z.to_nat m `min` String.length s) + 3) >? m) with true
    by (symmetry; apply Z.gtb_lt; lia).
  rewrite takeChars_append, takeChars_takeChars; [reflexivity|].
  rewrite length_takeChars. lia.
Qed.

Lemma truncateString_no_http s m :
  includes s "http" = false -> includes (truncateString s m) "http" = false.
Proof.
  intros Hs. unfold truncateString.
  destruct (_ >? _); [|exact Hs].
  apply includes_http_dots, includes_takeChars_false, Hs.
Qed.

Lemma indexOf_None s p : indexOf s p = None -> includes s p = false.
Proof.
  induction s as [|c s IH]; cbn [indexOf includes]; intros Hi.
  - destruct (startsWith EmptyString p); [discriminate|reflexivity].
  - destruct (startsWith (String c s) p); [discriminate|].
    destruct (indexOf s p); [discriminate|]. simpl. auto.
Qed.

Lemma sanitizeUrl_no_http s : includes (sanitizeUrl s) "http" = false.
Proof.
  unfold sanitizeUrl. destruct (includes s "http") eqn:E; [|exact E].
  destruct (indexOf s "http") as [i|] eqn:Ei.
  - apply includes_http_dots. unfold substring0. rewrite Nat2Z.id.
    by apply includes_before_indexOf.
  - apply indexOf_None in Ei. congruence.
Qed.

Lemma processString_no_http config s :
  truncateUrlsInForce config = true ->
  includes (processString config s) "http" = false.
Proof.
  intros Hu. unfold processString. rewrite Hu. cbn [andb].
  assert (includes (if includes s "http" then sanitizeUrl s else s) "http" = false)
    as Hfree.
  { destruct (includes s "http") eqn:E; [apply sanitizeUrl_no_http|exact E]. }
  destruct (maxLengthInForce config); [by apply truncateString_no_http|exact Hfree].
Qed.

Lemma processString_idem config s :
  processString config (processString config s) = processString config s.
Proof.
  destruct (truncateUrlsInForce config) eqn:Hu.
  - pose proof (processString_no_http config s Hu) as Hfree.
    unfold processString at 1. rewrite Hfree, andb_false_r.
    unfold processString.
    destruct (maxLengthInForce config); [apply truncateString_idem|reflexivity].
  - unfold processString. rewrite Hu. cbn [andb].
    destruct (maxLengthInForce config); [apply truncateString_idem|reflexivity].
Qed.

(** ** The sanitizer *)

(** Induction over values, with the hypothesis available for every
    element of an array and every property of an object. *)
Section value_induction.
Variable P : value -> Prop.
Hypothesis Hundefined : P VUndefined.
Hypothesis Hnull : P VNull.
Hypothesis Hbool : forall b, P (VBool b).
Hypothesis Hnumber : forall n, P (VNumber n).
Hypothesis Hstring : forall s, P (VString s).
Hypothesis Harray : forall items, Forall P items -> P (VArray items).
Hypothesis Hobject :
  forall props, Forall (fun kv => P kv.2) props -> P (VObject props).

Fixpoint value_nested_ind (v : value) : P v :=
  match v with
  | VUndefined => Hundefined
  | VNull => Hnull
  | VBool b => Hbool b
  | VNumber n => Hnumber n
  | VString s => Hstring s
  | VArray items =>
      Harray items
        ((fix all (l : list value) : Forall P l :=
            match l with
            | [] => List.Forall_nil P
            | x :: rest => List.Forall_cons P x rest (value_nested_ind x) (all rest)
            end) items)
  | VObject props =>
      Hobject props
        ((fix all (l : list (string * value)) : Forall (fun kv => P kv.2) l :=
            match l with
            | [] => List.Forall_nil _
            | kv :: rest =>
                List.Forall_cons (fun kv => P kv.2) kv rest
                  (value_nested_ind kv.2) (all rest)
            end) props)
  end.
End value_induction.

Lemma sanitizeData_array config items :
  sanitizeData config (VArray items) = VArray (List.map (sanitizeItem config) items).
Proof. reflexivity. Qed.

(** The object case is the deletion loop followed by the [forEach]. *)
Lemma sanitizeData_object config props :
  sanitizeData config (VObject props)
  = VObject (List.map (processProperty config) (removeSkipped config props)).
Proof.
  cbn [sanitizeData]. f_equal. unfold removeSkipped.
  induction props as [|[key v] rest IH]; [reflexivity|].
  cbn [List.filter fst]. destruct (isSkippedKey config key); cbn [negb]; [exact IH|].
  cbn [List.map]. rewrite <- IH. unfold processProperty. cbn [fst snd].
  destruct (isSensitiveKey config key); [reflexivity|]. destruct v; reflexivity.
Qed.

Lemma isObjectLike_sanitizeData config v :
  isObjectLike (sanitizeData config v) = isObjectLike v.
Proof.
  destruct v; try reflexivity.
  cbn [sanitizeData]. destruct (maxLengthInForce config); reflexivity.
Qed.

Lemma processProperty_key config kv : (processProperty config kv).1 = kv.1.
Proof. reflexivity. Qed.

Lemma removeSkipped_processed config props :
  removeSkipped config (List.map (processProperty config) (removeSkipped config props))
  = List.map (processProperty config) (removeSkipped config props).
Proof.
  unfold removeSkipped.
  induction props as [|kv rest IH]; [reflexivity|].
  cbn [List.filter]. destruct (isSkippedKey config kv.1) eqn:E; cbn [negb]; [exact IH|].
  cbn [List.map List.filter]. rewrite processProperty_key, E. cbn [negb].
  f_equal. exact IH.
Qed.

(** Claim C5.  [sanitizeData] is idempotent: for every value and every
    policy, whatever its [maxStringLength], [truncateUrls] and
    [skipProperties], sanitizing the result of a first pass again with
    the same policy gives back that result. *)
Theorem sanitizeData_idempotent config data :
  sanitizeData config (sanitizeData config data) = sanitizeData config data.
Proof.
  induction data as [| |b|n|s|items IH|props IH] using value_nested_ind;
    try reflexivity.
  - cbn [sanitizeData]. destruct (maxLengthInForce config) as [m|] eqn:E.
    + cbn [sanitizeData]. rewrite E, truncateString_idem. reflexivity.
    + cbn [sanitizeData]. rewrite E. reflexivity.
  - rewrite !sanitizeData_array. f_equal.
    rewrite List.map_map. apply List.map_ext_in. intros item Hin.
    rewrite Forall_forall in IH. specialize (IH item).
    unfold sanitizeItem.
    destruct (isObjectLike item) eqn:E; [|by rewrite E].
    rewrite isObjectLike_sanitizeData, E. apply IH. by apply list_elem_of_In.
  - rewrite !sanitizeData_object. f_equal.
    rewrite removeSkipped_processed, List.map_map.
    apply List.map_ext_in. intros [key v] Hin.
    assert (sanitizeData config (sanitizeData config v) = sanitizeData config v) as Hv.
    { rewrite Forall_forall in IH. apply (IH (key, v)).
      apply list_elem_of_In. unfold removeSkipped in Hin.
      apply List.filter_In in Hin. tauto. }
    unfold processProperty. cbn [fst snd].
    destruct (isSensitiveKey config key); [reflexivity|].
    f_equal. destruct v; try reflexivity.
    + by rewrite processString_idem.
    + rewrite sanitizeData_array in *. exact Hv.
    + rewrite sanitizeData_object in *. exact Hv.
Qed.

Lemma allSensitiveMasked_sanitizeData config data :
  allSensitiveMasked config (sanitizeData config data) = true.
Proof.
  induction data as [| |b|n|s|items IH|props IH] using value_nested_ind;
    try reflexivity.
  - cbn [sanitizeData]. destruct (maxLengthInForce config); reflexivity.
  - rewrite sanitizeData_array. cbn [allSensitiveMasked].
    apply forallb_forall. intros item' Hin.
    apply List.in_map_iff in Hin as (item & <- & Hin).
    unfold sanitizeItem. destruct (isObjectLike item) eqn:E.
    + rewrite Forall_forall in IH. apply IH. by apply list_elem_of_In.
    + destruct item; try reflexivity; discriminate.
  - rewrite sanitizeData_object. cbn [allSensitiveMasked].
    apply forallb_forall. intros kv' Hin.
    apply List.in_map_iff in Hin as ([key v] & <- & Hin).
    unfold removeSkipped in Hin. apply List.filter_In in Hin as [Hin _].
    unfold processProperty. cbn [fst snd].
    destruct (isSensitiveKey config key); [apply String.eqb_refl|].
    rewrite Forall_forall in IH.
    specialize (IH (key, v) (proj2 (list_elem_of_In _ _) Hin)). cbn [snd] in IH.
    destruct v; try reflexivity; exact IH.
Qed.







(** ** The message cleaner *)

Lemma containsChar_filterChars c keep s :
  keep c = false -> containsChar c (filterChars keep s) = false.
Proof.
  intros Hc. induction s as [|d s IH]; [reflexivity|].
  cbn [filterChars]. destruct (keep d) eqn:Hd; [|exact IH].
  cbn [containsChar]. rewrite IH, orb_false_r.
  destruct (Ascii.eqb_spec c d); [congruence|reflexivity].
Qed.

Lemma containsChar_trimStart c s :
  containsChar c s = false -> containsChar c (trimStart s) = false.
Proof.
  induction s as [|d s IH]; [reflexivity|]. intros Hs.
  cbn [trimStart]. destruct (isWhitespace d); [|exact Hs].
  cbn [containsChar] in Hs. apply orb_false_iff in Hs as [_ Hs]. auto.
Qed.

Lemma containsChar_trimEnd c s :
  containsChar c s = false -> containsChar c (trimEnd s) = false.
Proof.
  induction s as [|d s IH]; [reflexivity|]. intros Hs.
  cbn [containsChar] in Hs. apply orb_false_iff in Hs as [Hd Hs].
  specialize (IH Hs). cbn [trimEnd].
  destruct (trimEnd s) as [|e kept].
  - destruct (isWhitespace d); [reflexivity|].
    cbn [containsChar]. by rewrite Hd.
  - cbn [containsChar] in *. by rewrite Hd, IH.
Qed.

Lemma containsChar_dropChars c n s :
  containsChar c s = false -> containsChar c (dropChars n s) = false.
Proof.
  revert s; induction n as [|n IH]; intros [|d s] Hs; try exact Hs.
  cbn [containsChar] in Hs. apply orb_false_iff in Hs as [_ Hs].
  cbn [dropChars]. auto.
Qed.

Lemma containsChar_dropTrailingQuote c s :
  containsChar c s = false -> containsChar c (dropTrailingQuote s) = false.
Proof.
  induction s as [|d s IH]; [reflexivity|]. intros Hs.
  cbn [containsChar] in Hs. apply orb_false_iff in Hs as [Hd Hs].
  cbn [dropTrailingQuote]. destruct s as [|e s].
  - destruct (Ascii.eqb d "'"); [reflexivity|]. cbn [containsChar]. by rewrite Hd.
  - cbn [containsChar]. rewrite Hd. exact (IH Hs).
Qed.

Lemma containsChar_firstLine c s :
  containsChar c s = false -> containsChar c (firstLine s) = false.
Proof.
  induction s as [|d s IH]; [reflexivity|]. intros Hs.
  cbn [containsChar] in Hs. apply orb_false_iff in Hs as [Hd Hs].
  cbn [firstLine]. destruct (Ascii.eqb d LF); [reflexivity|].
  cbn [containsChar]. rewrite Hd. auto.
Qed.

Lemma containsChar_stripAnsiFrom c skip s :
  containsChar c s = false -> containsChar c (stripAnsiFrom skip s) = false.
Proof.
  revert skip; induction s as [|d s IH]; intros skip Hs; [reflexivity|].
  cbn [containsChar] in Hs. apply orb_false_iff in Hs as [Hd Hs].
  cbn [stripAnsiFrom]. destruct skip as [|k]; [|auto].
  destruct (matchAnsi (String d s)) as [[|n]|]; auto;
    cbn [containsChar]; rewrite Hd; cbn [orb]; auto.
Qed.

Lemma containsChar_stripErrorPrefix c s :
  containsChar c s = false -> containsChar c (stripErrorPrefix s) = false.
Proof.
  intros Hs. unfold stripErrorPrefix. apply containsChar_dropTrailingQuote.
  destruct (startsWith s "'Error: "); [by apply containsChar_dropChars|].
  destruct (startsWith s "'"); [by apply containsChar_dropChars|exact Hs].
Qed.

Lemma firstLine_no_newline s : containsChar LF (firstLine s) = false.
Proof.
  induction s as [|d s IH]; [reflexivity|].
  cbn [firstLine]. destruct (Ascii.eqb d LF) eqn:E; [reflexivity|].
  cbn [containsChar]. rewrite IH, orb_false_r.
  rewrite Ascii.eqb_sym. exact E.
Qed.

(** The sanitized string holds no quote, so neither does the string the
    prefix-stripping step receives. *)
Lemma sanitizeString_no_quote s : containsChar "'" (sanitizeString s) = false.
Proof.
  unfold sanitizeString. destruct (nonEmpty s); [|reflexivity].
  unfold trim. apply containsChar_trimEnd, containsChar_trimStart.
  by apply containsChar_filterChars.
Qed.

Lemma dropTrailingQuote_id s :
  containsChar "'" s = false -> dropTrailingQuote s = s.
Proof.
  induction s as [|d s IH]; [reflexivity|]. intros Hs.
  cbn [containsChar] in Hs. apply orb_false_iff in Hs as [Hd Hs].
  cbn [dropTrailingQuote]. destruct s as [|e s].
  - rewrite Ascii.eqb_sym, Hd. reflexivity.
  - f_equal. auto.
Qed.

Lemma stripErrorPrefix_id s :
  containsChar "'" s = false -> stripErrorPrefix s = s.
Proof.
  intros Hs. unfold stripErrorPrefix.
  assert (startsWith s "'" = false) as Hq.
  { destruct s as [|d s]; [reflexivity|].
    cbn [containsChar] in Hs. apply orb_false_iff in Hs as [Hd _].
    cbn [startsWith]. rewrite Hd. reflexivity. }
  assert (startsWith s "'Error: " = false) as ->.
  { destruct s as [|d s]; [reflexivity|].
    cbn [containsChar] in Hs. apply orb_false_iff in Hs as [Hd _].
    cbn [startsWith]. rewrite Hd. reflexivity. }
  rewrite Hq. by apply dropTrailingQuote_id.
Qed.

(** Claim C7 (the code departs from it).  [cleanMessage] removes every
    quote in its first step, so the later replacement of a leading
    ['Error: ] never finds one: it leaves its input unchanged, and
    ['Error: boom'] is cleaned to [Error: boom], not to [boom]. *)
Theorem cleanMessage_keeps_error_prefix :
  cleanMessage "'Error: boom'" = "Error: boom"
  /\ forall message,
       stripErrorPrefix (stripAnsi (sanitizeString message))
       = stripAnsi (sanitizeString message).
Proof.
  split; [reflexivity|]. intros message.
  apply stripErrorPrefix_id, containsChar_stripAnsiFrom, sanitizeString_no_quote.
Qed.

Lemma pattern_chars_kept c :
  isDigit c || Ascii.eqb c ";" || isLetter c || Ascii.eqb c "?"
  || Ascii.eqb c "[" || Ascii.eqb c ESC = true ->
  negb (isDangerousChar c) = true /\ isWhitespace c = false.
Proof.
  destruct c as [[] [] [] [] [] [] [] []]; vm_compute; intros; try discriminate; auto.
Qed.

Lemma trimEnd_cons c s :
  isWhitespace c = false -> trimEnd (String c s) = String c (trimEnd s).
Proof.
  intros Hc. cbn [trimEnd]. rewrite Hc. destruct (trimEnd s); reflexivity.
Qed.

Lemma controlTail_cons c rest :
  controlTail (String c rest)
  = if Ascii.eqb c "?" then S <$> parameterTail rest else parameterTail (String c rest).
Proof.
  destruct (Ascii.eqb_spec c "?") as [->|Hc]; [reflexivity|].
  destruct c as [[] [] [] [] [] [] [] []]; try reflexivity. by destruct Hc.
Qed.

Lemma matchAnsi_cons c rest :
  matchAnsi (String c rest)
  = if Ascii.eqb c ESC then
      match
        match rest with
        | EmptyString => None
        | String d params =>
            if Ascii.eqb d "[" then S <$> colorCodeTail false params else None
        end
      with
      | Some n => Some (S n)
      | None => S <$> controlTail rest
      end
    else None.
Proof.
  unfold matchAnsi. destruct (Ascii.eqb c ESC); [|reflexivity].
  destruct rest as [|d params]; [reflexivity|].
  destruct (Ascii.eqb_spec d "[") as [->|Hd]; [reflexivity|].
  destruct d as [[] [] [] [] [] [] [] []]; try reflexivity. by destruct Hd.
Qed.

(** A match is never empty. *)
Lemma matchAnsi_positive s m : matchAnsi s = Some m -> exists n, m = S n.
Proof.
  destruct s as [|c rest]; [discriminate|]. rewrite matchAnsi_cons.
  destruct (Ascii.eqb c ESC); [|discriminate].
  destruct (match rest with
            | EmptyString => None
            | String d params =>
                if Ascii.eqb d "[" then S <$> colorCodeTail false params else None
            end) as [k|].
  - intros [= <-]. eauto.
  - destruct (controlTail rest) as [k|]; [|discriminate]. intros [= <-]. eauto.
Qed.

(** The filter of [sanitizeString] and the trimming of the end keep the
    characters a match is made of, so they keep the match.  [clean]
    stands for either of them. *)
Section MatchesKept.
Variable clean : string -> string.
Hypothesis clean_cons :
  forall c s, negb (isDangerousChar c) = true -> isWhitespace c = false ->
              clean (String c s) = String c (clean s).

Lemma colorCodeTail_kept b s n :
  colorCodeTail b s = Some n -> colorCodeTail b (clean s) = Some n.
Proof.
  revert b n; induction s as [|c s IH]; intros b n Hs; [discriminate|].
  cbn [colorCodeTail] in Hs.
  destruct (isDigit c) eqn:Hd.
  - destruct (pattern_chars_kept c) as [Hk Hw]; [by rewrite Hd|].
    rewrite clean_cons by done. cbn [colorCodeTail]. rewrite Hd.
    destruct (colorCodeTail true s) as [k|] eqn:Ek; [|discriminate].
    by rewrite (IH _ _ Ek).
  - destruct b; [|discriminate].
    destruct (Ascii.eqb c ";") eqn:Hsemi.
    + destruct (pattern_chars_kept c) as [Hk Hw]; [by rewrite Hsemi, orb_true_r|].
      rewrite clean_cons by done. cbn [colorCodeTail]. rewrite Hd, Hsemi.
      destruct (colorCodeTail false s) as [k|] eqn:Ek; [|discriminate].
      by rewrite (IH _ _ Ek).
    + destruct (Ascii.eqb_spec c "m") as [->|]; [|discriminate].
      rewrite clean_cons by reflexivity. exact Hs.
Qed.

Lemma parameterTail_kept s n :
  parameterTail s = Some n -> parameterTail (clean s) = Some n.
Proof.
  revert n; induction s as [|c s IH]; intros n Hs; [discriminate|].
  cbn [parameterTail] in Hs.
  destruct (isDigit c || Ascii.eqb c ";") eqn:Hp.
  - destruct (pattern_chars_kept c) as [Hk Hw]; [by rewrite Hp|].
    rewrite clean_cons by done. cbn [parameterTail]. rewrite Hp.
    destruct (parameterTail s) as [k|] eqn:Ek; [|discriminate].
    by rewrite (IH _ eq_refl).
  - destruct (isLetter c) eqn:Hl; [|discriminate].
    destruct (pattern_chars_kept c) as [Hk Hw]; [by rewrite Hp, Hl|].
    rewrite clean_cons by done. cbn [parameterTail]. by rewrite Hp, Hl.
Qed.

Lemma controlTail_kept s n :
  controlTail s = Some n -> controlTail (clean s) = Some n.
Proof.
  destruct s as [|c rest]; [discriminate|]. rewrite controlTail_cons.
  destruct (Ascii.eqb_spec c "?") as [->|Hc].
  - rewrite clean_cons by reflexivity. rewrite controlTail_cons.
    change (Ascii.eqb "?" "?") with true. cbv iota.
    destruct (parameterTail rest) as [k|] eqn:Ek; [|discriminate].
    by rewrite (parameterTail_kept _ _ Ek).
  - intros Hs. pose proof (parameterTail_kept _ _ Hs) as Hkept.
    assert (clean (String c rest) = String c (clean rest)) as Hclean.
    { cbn [parameterTail] in Hs.
      destruct (pattern_chars_kept c) as [Hk Hw]; [|by apply clean_cons].
      destruct (isDigit c || Ascii.eqb c ";"); [reflexivity|].
      destruct (isLetter c); [reflexivity|discriminate]. }
    rewrite Hclean in *. rewrite controlTail_cons.
    by destruct (Ascii.eqb_spec c "?").
Qed.

Lemma matchAnsi_kept s :
  is_Some (matchAnsi s) -> is_Some (matchAnsi (clean s)).
Proof.
  destruct s as [|c rest]; [by intros [m Hm]|]. rewrite matchAnsi_cons.
  destruct (Ascii.eqb_spec c ESC) as [->|Hc]; [|by intros [m Hm]].
  rewrite clean_cons by reflexivity. rewrite matchAnsi_cons.
  change (Ascii.eqb ESC ESC) with true. cbv iota.
  destruct (match rest with
            | EmptyString => None
            | String d params =>
                if Ascii.eqb d "[" then S <$> colorCodeTail false params else None
            end) as [k|] eqn:Efirst.
  - intros _. destruct rest as [|d params]; [discriminate|].
    destruct (Ascii.eqb_spec d "[") as [->|]; [|discriminate].
    rewrite clean_cons by reflexivity.
    change (Ascii.eqb "[" "[") with true. cbv iota.
    destruct (colorCodeTail false params) as [j|] eqn:Ej; [|discriminate].
    rewrite (colorCodeTail_kept _ _ _ Ej). by eexists.
  - intros [m Hm].
    destruct (controlTail rest) as [j|] eqn:Ej; [|discriminate].
    rewrite (controlTail_kept _ _ Ej).
    destruct (match clean rest with
              | EmptyString => None
              | String d params =>
                  if Ascii.eqb d "[" then S <$> colorCodeTail false params else None
              end); by eexists.
Qed.

Hypothesis clean_nil : clean EmptyString = EmptyString.
Hypothesis clean_step :
  forall c s, clean (String c s) = clean s \/ clean (String c s) = String c (clean s).

Lemma everyEscStartsMatch_kept s :
  everyEscStartsMatch s = true -> everyEscStartsMatch (clean s) = true.
Proof.
  induction s as [|c s IH]; [by rewrite clean_nil|].
  intros Hs. cbn [everyEscStartsMatch] in Hs. apply andb_true_iff in Hs as [Hc Hs].
  specialize (IH Hs).
  destruct (Ascii.eqb_spec c ESC) as [->|Hne].
  - apply bool_decide_eq_true in Hc.
    pose proof (matchAnsi_kept _ Hc) as Hkept.
    rewrite clean_cons in * by reflexivity.
    cbn [everyEscStartsMatch]. change (Ascii.eqb ESC ESC) with true. cbv iota.
    rewrite IH, andb_true_r. by apply bool_decide_eq_true.
  - destruct (clean_step c s) as [->| ->]; [exact IH|].
    cbn [everyEscStartsMatch]. rewrite IH, andb_true_r.
    by destruct (Ascii.eqb_spec c ESC).
Qed.
End MatchesKept.

Lemma everyEscStartsMatch_filterChars s :
  everyEscStartsMatch s = true ->
  everyEscStartsMatch (filterChars (fun c => negb (isDangerousChar c)) s) = true.
Proof.
  apply everyEscStartsMatch_kept.
  - intros c t Hk _. cbn [filterChars]. by rewrite Hk.
  - reflexivity.
  - intros c t. cbn [filterChars]. destruct (negb (isDangerousChar c)); auto.
Qed.

Lemma everyEscStartsMatch_trimStart s :
  everyEscStartsMatch s = true -> everyEscStartsMatch (trimStart s) = true.
Proof.
  induction s as [|c s IH]; [reflexivity|]. intros Hs.
  cbn [trimStart]. destruct (isWhitespace c); [|exact Hs].
  cbn [everyEscStartsMatch] in Hs. apply andb_true_iff in Hs as [_ Hs]. auto.
Qed.

Lemma everyEscStartsMatch_trimEnd s :
  everyEscStartsMatch s = true -> everyEscStartsMatch (trimEnd s) = true.
Proof.
  apply everyEscStartsMatch_kept.
  - intros c t _ Hw. by apply trimEnd_cons.
  - reflexivity.
  - intros c t. cbn [trimEnd]. destruct (trimEnd t) as [|d kept]; [|auto].
    destruct (isWhitespace c); auto.
Qed.

(** The replacement drops every ESC that begins a match. *)
Lemma stripAnsiFrom_no_escape skip s :
  everyEscStartsMatch s = true ->
  containsChar ESC (stripAnsiFrom skip s) = false.
Proof.
  revert skip; induction s as [|c s IH]; intros skip Hs; [reflexivity|].
  cbn [everyEscStartsMatch] in Hs. apply andb_true_iff in Hs as [Hc Hs].
  cbn [stripAnsiFrom]. destruct skip as [|k]; [|auto].
  destruct (Ascii.eqb c ESC) eqn:E.
  - apply bool_decide_eq_true in Hc as [m Hm].
    destruct (matchAnsi_positive _ _ Hm) as [n ->]. rewrite Hm. auto.
  - rewrite matchAnsi_cons, E. cbn [containsChar].
    rewrite Ascii.eqb_sym, E. cbn [orb]. auto.
Qed.

(** [ESC [] followed by anything but the rest of a colour code begins no
    match: the first alternative fails on what follows the bracket, the
    second on the bracket. *)
Lemma matchAnsi_bracket rest :
  colorCodeTail false rest = None ->
  matchAnsi (String ESC (String "[" rest)) = None.
Proof.
  intros Hrest. rewrite matchAnsi_cons.
  change (Ascii.eqb ESC ESC) with true. change (Ascii.eqb "[" "[") with true.
  cbv iota. rewrite Hrest. reflexivity.
Qed.

Lemma cleanMessage_bracket message rest :
  sanitizeString message = String ESC (String "[" rest) ->
  colorCodeTail false rest = None ->
  exists kept, cleanMessage message = String ESC kept.
Proof.
  intros Hclean Hrest. unfold cleanMessage.
  destruct (nonEmpty message) eqn:Hne;
    [|unfold sanitizeString in Hclean; rewrite Hne in Hclean; discriminate].
  rewrite Hclean. unfold stripAnsi. cbn [stripAnsiFrom].
  rewrite (matchAnsi_bracket _ Hrest).
  change (matchAnsi (String "[" rest)) with (@None nat).
  unfold stripErrorPrefix.
  change (startsWith (String ESC (String "[" (stripAnsiFrom 0 rest))) "'Error: ")
    with false.
  change (startsWith (String ESC (String "[" (stripAnsiFrom 0 rest))) "'")
    with false.
  cbv iota. cbn [dropTrailingQuote firstLine].
  change (Ascii.eqb ESC LF) with false. cbv iota. by eexists.
Qed.

(** Claim C6 (the code departs from it).  For every input string the
    output of [cleanMessage] contains no newline character, and it
    contains no ESC character whenever every ESC of the input begins a
    match of the pattern, by either alternative.  But the pattern does
    not match the generic control sequences [ESC [ ... letter]: its
    second alternative has no bracket, so [ESC [] begins a match only
    when a colour code follows.  A message whose cleaned text begins
    with any other such sequence keeps its ESC character: the message
    [ESC [ 2 K done] is returned as it is. *)
Theorem cleanMessage_keeps_control_sequences :
  (forall message,
      containsChar LF (cleanMessage message) = false
      /\ (everyEscStartsMatch message = true ->
          containsChar ESC (cleanMessage message) = false))
  /\ (forall rest,
        colorCodeTail false rest = None ->
        matchAnsi (String ESC (String "[" rest)) = None)
  /\ (forall message rest,
        sanitizeString message = String ESC (String "[" rest) ->
        colorCodeTail false rest = None ->
        containsChar ESC (cleanMessage message) = true)
  /\ cleanMessage eraseLineMessage = eraseLineMessage.
Proof.
  split; [|split; [exact matchAnsi_bracket|split; [|reflexivity]]].
  - intros message. unfold cleanMessage.
    destruct (nonEmpty message) eqn:Hne; [|split; reflexivity].
    split; [apply firstLine_no_newline|].
    intros Hesc.
    apply containsChar_firstLine, containsChar_stripErrorPrefix.
    apply stripAnsiFrom_no_escape.
    unfold sanitizeString. rewrite Hne. unfold trim.
    by apply everyEscStartsMatch_trimEnd, everyEscStartsMatch_trimStart,
             everyEscStartsMatch_filterChars.
  - intros message rest Hclean Hrest.
    destruct (cleanMessage_bracket _ _ Hclean Hrest) as [kept ->]. reflexivity.
Qed.

(** The theorem on a two-line message with two colour codes, on a
    message with two sequences of the second alternative, and on a
    message that begins with the sequence that erases the line. *)
Lemma cleanMessage_keeps_control_sequences_witness :
  containsChar ESC (cleanMessage colouredMessage) = false
  /\ containsChar ESC (cleanMessage resetMessage) = false
  /\ containsChar ESC (cleanMessage eraseLineMessage) = true.
Proof.
  destruct cleanMessage_keeps_control_sequences as (Hclean & _ & Hkept & _).
  split; [|split].
  - apply (proj2 (Hclean colouredMessage)). reflexivity.
  - apply (proj2 (Hclean resetMessage)). reflexivity.
  - apply (Hkept eraseLineMessage "2Kdone"); reflexivity.
Defined.

(** An ESC character that begins no sequence at all, here one followed
    by a space, is kept as well. *)
Lemma cleanMessage_keeps_lone_escape :
  ~ (forall message,
        containsChar LF (cleanMessage message) = false
        /\ containsChar ESC (cleanMessage message) = false).
Proof.
  intros Hclaim. destruct (Hclaim (String ESC " reset")) as [_ Hesc].
  vm_compute in Hesc. discriminate.
Qed.

(** ** The error processor *)

Section ErrorProcessorProperties.
Context `{platform : Platform}.

Lemma categorizeAxiosError_404 ax r :
  response ax = Some r -> status r = 404 -> categorizeAxiosError ax = NOT_FOUND.
Proof.
  intros Hr Hs. unfold categorizeAxiosError, truthyStatus, responseStatus.
  rewrite Hr. cbn. rewrite Hs. reflexivity.
Qed.

(** An instance of [Error] is described by its own message, whatever
    else it carries. *)
Lemma getErrorMessage_instance o :
  instanceOfError o = true ->
  getErrorMessage (ThrownObject o) = Ok (cleanMessage (errorMessage o)).
Proof. intros Ho. unfold getErrorMessage. by rewrite Ho. Qed.

(** An error that brings no code: the label is derived without
    failure, and [createErrorDetails] can fail on its message only. *)
Lemma getContextFromError_ordinary error :
  userCode error = None -> getContextFromError error = Ok (derivedContext error).
Proof.
  intros Hcode. unfold derivedContext, getContextFromError.
  destruct (bool_decide _); [reflexivity|].
  destruct (hasMatcherResult error); [reflexivity|].
  destruct error as [o|v|o code]; [| |discriminate].
  - cbn [getErrorMessageAsLowerCase]. by destruct (instanceOfError o).
  - reflexivity.
Qed.

Lemma createErrorDetails_ordinary error source context :
  userCode error = None ->
  createErrorDetails error source context
  = let* message := getErrorMessage error in
    Ok (addHttpDetailsIfAvailable error
          {| source := source;
             context := match context with
                        | Some c => if nonEmpty c then c else derivedContext error
                        | None => derivedContext error
                        end;
             message := message; category := categorizeError error;
             statusCode := None; url := None |}).
Proof.
  intros Hcode. unfold createErrorDetails.
  rewrite (getContextFromError_ordinary error Hcode).
  assert (assignBack error = Ok tt) as ->.
  { destruct error; try reflexivity. discriminate. }
  destruct context as [c|]; [destruct (nonEmpty c)|];
    cbn [bindResult]; by destruct (getErrorMessage error).
Qed.

(** Claim C2 (the code departs from it).  For an axios error with
    response status 404, status text [Not Found], [config.url] the
    scenario's URL (whose path component the URL parser gives as
    [/users/42]) and method [GET], [createErrorDetails] returns a record
    with category [NOT_FOUND] and [statusCode] 404 as claimed; but its
    [url] is [config.url] as it stands, scheme and host included, not the
    path; and its message is the formatted line
    [HTTP 404: Not Found (GET /users/42)] only when the object is not an
    instance of [Error]: on an instance, as axios raises them, it is the
    cleaned [error.message]. *)
Theorem createErrorDetails_scenarioB o source context :
  isScenarioB o ->
  urlPathname scenarioB_url = Some "/users/42" ->
  exists details,
    createErrorDetails (ThrownObject o) source context = Ok details
    /\ category details = NOT_FOUND
    /\ statusCode details = Some 404
    /\ url details = Some scenarioB_url
    /\ url details <> Some "/users/42"
    /\ message details
       = (if instanceOfError o then cleanMessage (errorMessage o)
          else "HTTP 404: Not Found (GET /users/42)").
Proof.
  intros (ax & r & c & Hax & Hr & Hstatus & Htext & Hc & Hurl & Hmethod) Hpath.
  assert (truthyStatus ax = Some 404) as Htruthy.
  { unfold truthyStatus, responseStatus. rewrite Hr. cbn. by rewrite Hstatus. }
  assert (requestUrl ax = Some scenarioB_url) as Hreq.
  { unfold requestUrl. by rewrite Hc. }
  assert (getErrorMessage (ThrownObject o)
          = Ok (if instanceOfError o then cleanMessage (errorMessage o)
                else "HTTP 404: Not Found (GET /users/42)")) as Hm.
  { unfold getErrorMessage. destruct (instanceOfError o); [reflexivity|].
    rewrite Hax. unfold formatAxiosErrorMessage.
    rewrite Hreq, Hpath, Htruthy, Hr, Hc, Hmethod. cbn. rewrite Htext. reflexivity. }
  rewrite createErrorDetails_ordinary by reflexivity. rewrite Hm. cbn [bindResult].
  unfold addHttpDetailsIfAvailable. cbn [isAxiosError]. rewrite Hax, Htruthy, Hreq.
  eexists. split; [reflexivity|]. cbn [category statusCode url message].
  unfold categorizeError. cbn [isAxiosError]. rewrite Hax.
  rewrite (categorizeAxiosError_404 ax r Hr Hstatus).
  repeat split; discriminate.
Qed.

End ErrorProcessorProperties.

(** The theorem on scenario B as axios raises it, an instance of
    [Error], with the sample URL parser. *)
Lemma createErrorDetails_scenarioB_witness :
  exists details,
    createErrorDetails (platform := samplePlatform) (ThrownObject scenarioB_instance)
      "apiClient" None = Ok details
    /\ category details = NOT_FOUND
    /\ statusCode details = Some 404
    /\ url details = Some "https://api.example.com/users/42"
    /\ url details <> Some "/users/42"
    /\ message details = "Request failed with status code 404".
Proof.
  apply (createErrorDetails_scenarioB (platform := samplePlatform) scenarioB_instance).
  - exists scenarioB_axios. do 2 eexists. repeat split; reflexivity.
  - reflexivity.
Defined.

(** C2 as stated fails on the code, even on an object that is not an
    instance of [Error]: the record's [url] is not the path component;
    it is [config.url] unchanged. *)
Lemma createErrorDetails_url_not_path :
  ~ (forall details,
        createErrorDetails (platform := samplePlatform) (ThrownObject scenarioB_error)
          "apiClient" None = Ok details ->
        message details = "HTTP 404: Not Found (GET /users/42)"
        /\ category details = NOT_FOUND
        /\ statusCode details = Some 404
        /\ url details = Some "/users/42").
Proof.
  intros Hclaim.
  destruct (Hclaim _ eq_refl) as (_ & _ & _ & Hurl).
  vm_compute in Hurl. discriminate.
Qed.

(** On an instance of [Error] the message is the cleaned [error.message],
    not the formatted line. *)
Lemma createErrorDetails_scenarioB_instance_message :
  message <$> (match createErrorDetails (platform := samplePlatform)
                       (ThrownObject scenarioB_instance) "apiClient" None with
               | Ok details => Some details
               | Throw _ => None
               end)
  = Some "Request failed with status code 404".
Proof. reflexivity. Qed.

(** Claim C8.  The code tier outranks the keyword tier: an [Error]
    whose [code] is [ENOENT] is categorized [FILE_NOT_FOUND] whatever
    its message says, by [categorizeErrorByMessage] and so by
    [categorizeError] on a native error; an [ENOENT] error whose message
    holds [permission] is [FILE_NOT_FOUND], where the message alone
    would give [PERMISSION]. *)
Theorem errorCode_outranks_keywords :
  (forall o,
      lookupProp "code" (ownProps o) = Some (VString "ENOENT") ->
      categorizeErrorByMessage o = FILE_NOT_FOUND
      /\ (instanceOfError o = true -> axiosError o = None ->
          matcherResult o = None ->
          categorizeError (ThrownObject o) = FILE_NOT_FOUND))
  /\ includes (toLowerCase (errorMessage enoentPermissionError)) "permission" = true
  /\ categorizeError (ThrownObject enoentPermissionError) = FILE_NOT_FOUND
  /\ categorizeError (ThrownObject permissionMessageError) = PERMISSION.
Proof.
  split; [|repeat split; reflexivity].
  intros o Hcode.
  assert (categorizeErrorByMessage o = FILE_NOT_FOUND) as Hcat.
  { unfold categorizeErrorByMessage. rewrite Hcode. reflexivity. }
  split; [exact Hcat|].
  intros Hinst Hax Hmatcher. unfold categorizeError, hasMatcherResult.
  cbn [isAxiosError]. rewrite Hax, Hinst, Hmatcher. cbn. exact Hcat.
Qed.

(** The theorem on an [ENOENT] error that mentions a permission. *)
Lemma errorCode_outranks_keywords_witness :
  categorizeErrorByMessage enoentPermissionError = FILE_NOT_FOUND
  /\ categorizeError (ThrownObject enoentPermissionError) = FILE_NOT_FOUND.
Proof.
  destruct (proj1 errorCode_outranks_keywords enoentPermissionError eq_refl)
    as [Hnative Htop].
  split; [exact Hnative|]. apply Htop; reflexivity.
Defined.

(** ** The handler *)

Lemma setAdd_new key cache : key ∉ cache -> setAdd key cache = cache ++ [key].
Proof. intros Hk. unfold setAdd. by rewrite bool_decide_eq_false_2. Qed.

Lemma setDelete_absent key cache : key ∉ cache -> setDelete key cache = cache.
Proof.
  intros Hk. unfold setDelete. induction cache as [|k cache IH]; [reflexivity|].
  apply not_elem_of_cons in Hk as [Hne Hk]. cbn [List.filter].
  destruct (String.eqb_spec k key); [congruence|]. cbn [negb]. f_equal. auto.
Qed.

Lemma setDelete_head key cache :
  key ∉ cache -> setDelete key (key :: cache) = cache.
Proof.
  intros Hk. unfold setDelete. cbn [List.filter]. rewrite String.eqb_refl.
  cbn [negb]. by apply setDelete_absent.
Qed.

(** Below the bound a new key is appended. *)
Lemma manageCacheSize_room key cache :
  key ∉ cache -> (length cache < MAX_CACHE_SIZE)%nat ->
  manageCacheSize key cache = cache ++ [key].
Proof.
  intros Hk Hlen. unfold manageCacheSize. rewrite setAdd_new by done.
  rewrite length_app. cbn [length].
  destruct (Nat.ltb_spec MAX_CACHE_SIZE (length cache + 1)); [lia|reflexivity].
Qed.

(** At the bound the oldest key makes room for the new one. *)
Lemma manageCacheSize_full key oldest cache :
  key ∉ oldest :: cache -> NoDup (oldest :: cache) ->
  length (oldest :: cache) = MAX_CACHE_SIZE ->
  manageCacheSize key (oldest :: cache) = cache ++ [key].
Proof.
  intros Hk Hnd Hlen. unfold manageCacheSize. rewrite setAdd_new by done.
  rewrite length_app, Hlen. cbn [length].
  destruct (Nat.ltb_spec MAX_CACHE_SIZE (MAX_CACHE_SIZE + 1)); [|lia].
  cbn [app]. apply setDelete_head.
  apply NoDup_cons in Hnd as [Hold _]. apply not_elem_of_cons in Hk as [Hne _].
  intros Hin. apply elem_of_app in Hin as [Hin|Hin]; [done|].
  apply list_elem_of_singleton in Hin. congruence.
Qed.

Lemma manageCacheSize_keeps_new key cache :
  key ∉ cache -> key ∈ manageCacheSize key cache.
Proof.
  intros Hk. unfold manageCacheSize. rewrite setAdd_new by done.
  assert (key ∈ cache ++ [key]) as Hin
    by (apply elem_of_app; right; by apply list_elem_of_singleton).
  destruct cache as [|oldest cache]; [exact Hin|].
  destruct (_ <? _)%nat; [|exact Hin]. cbn [app].
  apply not_elem_of_cons in Hk as [Hne Hk].
  unfold setDelete. apply list_elem_of_In, List.filter_In. split.
  - apply list_elem_of_In. exact Hin.
  - destruct (String.eqb_spec key oldest); [congruence|reflexivity].
Qed.

Section ErrorHandlerProperties.
Context `{platform : Platform}.

(** [getErrorMessage] raises nothing but the [TypeError] of the URL
    parser. *)
Lemma getErrorMessage_raises error failure :
  getErrorMessage error = Throw failure -> failure = invalidUrlError.
Proof.
  assert (forall o,
             (if instanceOfError o then Ok (cleanMessage (errorMessage o))
              else match axiosError o with
                   | Some ax => formatAxiosErrorMessage o ax
                   | None =>
                       match lookupProp "message" (ownProps o) with
                       | Some (VString m) => Ok (cleanMessage m)
                       | _ => Ok "Unknown error occurred"
                       end
                   end) = Throw failure -> failure = invalidUrlError) as Hobject.
  { intros o. destruct (instanceOfError o); [discriminate|].
    destruct (axiosError o) as [ax|].
    - unfold formatAxiosErrorMessage.
      destruct (requestUrl ax) as [u|]; [|discriminate].
      destruct (nonEmpty u); [|discriminate].
      destruct (urlPathname u); [discriminate|]. cbn. congruence.
    - destruct (lookupProp _ _) as [[]|]; discriminate. }
  unfold getErrorMessage. destruct error as [o|v|o code]; try apply Hobject.
  destruct v; try discriminate.
  destruct (lookupProp _ _) as [[]|]; discriminate.
Qed.

(** On an error that brings no code, whatever the [try] block raises is
    that [TypeError]. *)
Lemma createErrorDetails_raises error source context failure :
  userCode error = None ->
  createErrorDetails error source context = Throw failure ->
  failure = invalidUrlError.
Proof.
  intros Hcode. rewrite (createErrorDetails_ordinary _ _ _ Hcode).
  destruct (getErrorMessage error) eqn:E; [discriminate|].
  cbn. intros [= <-]. by eapply getErrorMessage_raises.
Qed.

Lemma extractAxiosDetails_raises ax failure :
  extractAxiosDetails ax = Throw failure -> failure = invalidUrlError.
Proof.
  unfold extractAxiosDetails.
  destruct (config ax) as [c|].
  - destruct (configUrl c) as [u|].
    + destruct (nonEmpty u).
      * destruct (urlPathname u); cbn; [|congruence].
        destruct (response ax) as [r|]; [|discriminate].
        destruct (_ && _); discriminate.
      * cbn. destruct (response ax) as [r|]; [|discriminate].
        destruct (_ && _); discriminate.
    + cbn. destruct (response ax) as [r|]; [|discriminate].
      destruct (_ && _); discriminate.
  - cbn. destruct (response ax) as [r|]; [|discriminate].
    destruct (_ && _); discriminate.
Qed.

Lemma extractExtraDetails_raises error failure :
  userCode error = None ->
  extractExtraDetails error = Throw failure -> failure = invalidUrlError.
Proof.
  intros Hcode. unfold extractExtraDetails, raisedAt. rewrite Hcode.
  destruct error as [o|v|o code]; [| |discriminate].
  - destruct (hasMatcherResult _); [discriminate|].
    destruct (axiosError o) as [ax|]; [|discriminate].
    destruct (extractAxiosDetails ax) as [details|e] eqn:E.
    + cbn. destruct (sanitizesParts ax); discriminate.
    + cbn. intros [= <-]. by eapply extractAxiosDetails_raises.
  - destruct (isObjectLike v); discriminate.
Qed.

Lemma captureErrorTry_raises error source context st st' failure :
  userCode error = None ->
  captureErrorTry error source context st = (st', Throw failure) ->
  failure = invalidUrlError.
Proof.
  intros Hcode. unfold captureErrorTry.
  destruct (shouldSkipErrorLogging error context).
  { destruct (isAxiosError error) as [ax|]; [|discriminate].
    destruct (truthyStatus ax); discriminate. }
  destruct (createErrorDetails error source context) as [details|e] eqn:Ed.
  - destruct (bool_decide _); [discriminate|].
    destruct (extractExtraDetails error) as [extra|e] eqn:Ee.
    + unfold raisedAt. rewrite Hcode. destruct (_ <? _)%nat; discriminate.
    + intros [= _ <-]. by eapply extractExtraDetails_raises.
  - intros [= _ <-]. by eapply createErrorDetails_raises.
Qed.

(** What the [catch] block does to the state: at most the fallback
    record is appended. *)
Lemma captureErrorCatch_state failure source st :
  exists rest,
    (length rest <= 1)%nat
    /\ (captureErrorCatch failure source st).1
       = {| loggedErrors := loggedErrors st; logLines := logLines st ++ rest |}.
Proof.
  unfold captureErrorCatch. destruct (getErrorMessage failure) as [m|e].
  - eexists [_]. split; [reflexivity|]. reflexivity.
  - exists []. split; [cbn; lia|]. cbn [fst]. rewrite app_nil_r. by destruct st.
Qed.

(** Claim C3 (the code departs from it).  [captureError] returns
    normally, logging the fallback record when its [try] block fails,
    for every error that brings no code of its own.  In general it
    raises exactly when the [try] block fails with a failure whose
    message [getErrorMessage] cannot build, since nothing guards the
    [catch] block; and this happens.  An object whose conversion to a
    string throws an axios-shaped object with a request URL that cannot
    be parsed makes [captureError] raise the [TypeError] of the URL
    parser with nothing logged; an object whose [toJSON] throws such an
    object makes it raise after the record of the error is logged and
    its fingerprint stored. *)
Theorem captureError_raises_from_catch :
  (forall error source context st,
      userCode error = None ->
      (captureError error source context st).2 = Ok tt
      /\ forall st' failure,
           captureErrorTry error source context st = (st', Throw failure) ->
           exists fo,
             failure = ThrownObject fo
             /\ instanceOfError fo = true
             /\ captureError error source context st
                = (loggerError (fallbackRecord source (cleanMessage (errorMessage fo))) st',
                   Ok tt))
  /\ (forall error source context st raised,
        (captureError error source context st).2 = Throw raised
        <-> exists st' failure,
              captureErrorTry error source context st = (st', Throw failure)
              /\ getErrorMessage failure = Throw raised)
  /\ (forall o code failure raised source st,
        instanceOfError o = false -> axiosError o = None ->
        conversion code = ConversionRaises failure ->
        getErrorMessage failure = Throw raised ->
        captureError (ThrownWithCode o code) source None st = (st, Throw raised))
  /\ (forall error source context st key failure raised,
        fingerprintOf (error, source, context) = Some key ->
        key ∉ loggedErrors st ->
        (exists extra,
            extractExtraDetails error = Ok extra /\ (0 < keyCount extra)%nat) ->
        raisedAt stringifyRaises error = Some failure ->
        getErrorMessage failure = Throw raised ->
        exists details,
          createErrorDetails error source context = Ok details
          /\ createCacheKey details = key
          /\ captureError error source context st
             = ({| loggedErrors := manageCacheSize key (loggedErrors st);
                   logLines :=
                     logLines st
                     ++ [ErrorLine (sanitizeObject (detailsToValue details))] |},
                Throw raised)).
Proof.
  split; [|split; [|split]].
  - intros error source context st Hcode. unfold captureError.
    destruct (captureErrorTry error source context st) as [st1 [[]|failure]] eqn:Etry.
    + split; [reflexivity|]. intros st' failure [=].
    + pose proof (captureErrorTry_raises _ _ _ _ _ _ Hcode Etry) as ->.
      split; [reflexivity|]. intros st' failure [= <- <-].
      eexists. split; [reflexivity|]. split; reflexivity.
  - intros error source context st raised. unfold captureError.
    destruct (captureErrorTry error source context st) as [st1 [[]|failure]].
    + split; [discriminate|]. intros (st' & f & [=] & _).
    + unfold captureErrorCatch.
      destruct (getErrorMessage failure) as [m|e] eqn:Em; cbn [snd].
      * split; [discriminate|]. intros (st' & f & [= <- <-] & Hf). congruence.
      * split.
        -- intros [= <-]. by exists st1, failure.
        -- intros (st' & f & [= <- <-] & Hf). congruence.
  - intros o code failure raised source st Hinst Hax Hconv Hmsg.
    assert (createErrorDetails (ThrownWithCode o code) source None = Throw failure)
      as Hdetails.
    { unfold createErrorDetails, getContextFromError. cbn [isAxiosError hasMatcherResult].
      rewrite Hax, Hinst. cbn [andb]. rewrite bool_decide_eq_false_2.
      - cbn [getErrorMessageAsLowerCase]. by rewrite Hinst, Hconv.
      - by intros [? [=]]. }
    unfold captureError, captureErrorTry.
    change (shouldSkipErrorLogging (ThrownWithCode o code) None) with false.
    cbn match. rewrite Hdetails. unfold captureErrorCatch. by rewrite Hmsg.
  - intros error source context st key failure raised
      Hkey Hnew (extra & Hextra & Hcount) Hjson Hmsg.
    unfold fingerprintOf in Hkey. unfold captureError, captureErrorTry.
    destruct (shouldSkipErrorLogging error context); [discriminate|].
    destruct (createErrorDetails error source context) as [details|]; [|discriminate].
    injection Hkey as Hkey. exists details. split; [reflexivity|]. split; [exact Hkey|].
    rewrite Hkey, bool_decide_eq_false_2 by done. rewrite Hextra.
    apply Nat.ltb_lt in Hcount. rewrite Hcount, Hjson.
    unfold captureErrorCatch. rewrite Hmsg. reflexivity.
Qed.


(** Claim C9.  When the error is expected (an axios error with a
    truthy response status that the context marks as the expected
    outcome of a negative test), [captureError] writes one informational
    line, holding the context and the status, and stops: nothing else is
    logged and the set of fingerprints is left as it was. *)
Theorem captureError_expected_error error source context st :
  shouldSkipErrorLogging error context = true ->
  exists ax n c,
    isAxiosError error = Some ax /\ truthyStatus ax = Some n
    /\ context = Some c
    /\ captureError error source context st
       = ({| loggedErrors := loggedErrors st;
             logLines :=
               logLines st
               ++ [InfoLine ("Expected error in negative test [" +:+ c
                             +:+ "]: Status " +:+ numberToString n)] |},
          Ok tt).
Proof.
  intros Hskip. unfold captureError, captureErrorTry. rewrite Hskip.
  unfold shouldSkipErrorLogging in Hskip.
  destruct context as [c|]; [|discriminate].
  destruct (nonEmpty c); [|discriminate].
  destruct (isAxiosError error) as [ax|] eqn:Hax; [|discriminate].
  destruct (truthyStatus ax) as [n|] eqn:Hn; [|discriminate].
  exists ax, n, c. repeat split; try reflexivity. exact Hn.
Qed.

(** *** De-duplication *)



(** A call whose fingerprint is in the set changes nothing. *)
Lemma captureError_duplicate error source context st key :
  fingerprintOf (error, source, context) = Some key ->
  key ∈ loggedErrors st ->
  captureError error source context st = (st, Ok tt).
Proof.
  unfold fingerprintOf, captureError, captureErrorTry.
  destruct (shouldSkipErrorLogging error context); [discriminate|].
  destruct (createErrorDetails error source context) as [details|]; [|discriminate].
  intros [= <-] Hin. by rewrite bool_decide_eq_true_2.
Qed.

(** A call whose fingerprint is new logs its record, followed by at most
    one more line, and enters the fingerprint. *)
Lemma captureError_new error source context st key :
  fingerprintOf (error, source, context) = Some key ->
  key ∉ loggedErrors st ->
  exists details rest,
    createErrorDetails error source context = Ok details
    /\ createCacheKey details = key
    /\ (length rest <= 1)%nat
    /\ (captureError error source context st).1
       = {| loggedErrors := manageCacheSize key (loggedErrors st);
            logLines :=
              logLines st
              ++ ErrorLine (sanitizeObject (detailsToValue details)) :: rest |}.
Proof.
  unfold fingerprintOf, captureError, captureErrorTry.
  destruct (shouldSkipErrorLogging error context); [discriminate|].
  destruct (createErrorDetails error source context) as [details|]; [|discriminate].
  intros [= <-] Hin. rewrite bool_decide_eq_false_2 by done.
  exists details.
  assert (forall failure st1,
             exists rest,
               (length rest <= 1)%nat
               /\ (captureErrorCatch failure source
                     (loggerError (sanitizeObject (detailsToValue details)) st1)).1
                  = {| loggedErrors := loggedErrors st1;
                       logLines :=
                         logLines st1
                         ++ ErrorLine (sanitizeObject (detailsToValue details)) :: rest |})
    as Hcatch.
  { intros failure st1.
    destruct (captureErrorCatch_state failure source
                (loggerError (sanitizeObject (detailsToValue details)) st1))
      as (rest & Hlen & ->).
    exists rest. split; [exact Hlen|].
    unfold loggerError. cbn [loggedErrors logLines]. by rewrite <- app_assoc. }
  destruct (extractExtraDetails error) as [extra|failure] eqn:Ee.
  - destruct (0 <? keyCount extra)%nat.
    + destruct (raisedAt stringifyRaises error) as [failure|].
      * destruct (Hcatch failure
                    {| loggedErrors := manageCacheSize (createCacheKey details)
                                         (loggedErrors st);
                       logLines := logLines st |}) as (rest & Hlen & Hstate).
        exists rest. do 2 (split; [reflexivity|]). split; [exact Hlen|exact Hstate].
      * eexists [_]. do 2 (split; [reflexivity|]). split; [reflexivity|].
        unfold loggerError. cbn [fst loggedErrors logLines]. by rewrite <- app_assoc.
    + exists []. do 2 (split; [reflexivity|]). split; [cbn [length]; lia|reflexivity].
  - destruct (Hcatch failure
                {| loggedErrors := manageCacheSize (createCacheKey details)
                                     (loggedErrors st);
                   logLines := logLines st |}) as (rest & Hlen & Hstate).
    exists rest. do 2 (split; [reflexivity|]). split; [exact Hlen|exact Hstate].
Qed.



End ErrorHandlerProperties.

(** The theorem on the two objects that throw an axios-shaped object
    with a URL that cannot be parsed: [captureError] raises, from the
    conversion before anything is logged, from [toJSON] after the
    record of the error. *)
Lemma captureError_raises_from_catch_witness :
  captureError (platform := samplePlatform) throwingToString "worker" None emptyState
  = (emptyState, Throw invalidUrlError)
  /\ captureError (platform := samplePlatform) throwingToJSON "worker" None emptyState
     = ({| loggedErrors := ["worker_UNKNOWN_Unknown error occurred"];
           logLines :=
             [ErrorLine
                (VObject [("source", VString "worker");
                          ("context", VString "General Error");
                          ("message", VString "Unknown error occurred");
                          ("category", VString "UNKNOWN")])] |},
        Throw invalidUrlError).
Proof.
  destruct (captureError_raises_from_catch (platform := samplePlatform))
    as (_ & _ & Hconversion & Hstringify).
  split.
  - apply (Hconversion _ _ axiosShapedFailure); reflexivity.
  - assert (exists extra,
               extractExtraDetails (platform := samplePlatform) throwingToJSON = Ok extra
               /\ (0 < keyCount extra)%nat) as Hextra.
    { exists (VObject [("toJSON", VUndefined)]). split; [reflexivity|].
      cbn [keyCount length]. lia. }
    destruct (Hstringify throwingToJSON "worker" None emptyState
                "worker_UNKNOWN_Unknown error occurred" axiosShapedFailure
                invalidUrlError eq_refl (not_elem_of_nil _) Hextra eq_refl eq_refl)
      as (details & Hdetails & _ & Hrun).
    injection Hdetails as <-. exact Hrun.
Defined.

(** The theorem on a 401 met by a negative login test. *)
Lemma captureError_expected_error_witness :
  captureError (platform := negativeTestPlatform) (ThrownObject unauthorizedError)
    "loginApi" (Some "negative login") emptyState
  = ({| loggedErrors := [];
        logLines :=
          [InfoLine "Expected error in negative test [negative login]: Status 401"] |},
     Ok tt).
Proof.
  destruct (captureError_expected_error (platform := negativeTestPlatform)
              (ThrownObject unauthorizedError) "loginApi"
              (Some "negative login") emptyState eq_refl)
    as (ax & n & c & Hax & Hn & Hc & Hrun).
  injection Hax as <-. injection Hn as <-. injection Hc as <-. exact Hrun.
Defined.

Lemma allDistinct_NoDup keys : allDistinct keys = true -> NoDup keys.
Proof.
  induction keys as [|key rest IH]; [constructor|].
  cbn [allDistinct]. intros Hd. apply andb_true_iff in Hd as [Hnew Hrest].
  apply NoDup_cons. split; [|auto].
  intros Hin. apply negb_true_iff in Hnew.
  assert (existsb (String.eqb key) rest = true) as Hex; [|congruence].
  apply existsb_exists. exists key. split; [by apply list_elem_of_In|].
  apply String.eqb_refl.
Qed.


(** ** The sanitizer over the store *)

Lemma allocate_fresh o h : h !! (allocate o h).1 = None.
Proof. apply not_elem_of_dom. cbn. apply is_fresh. Qed.

Lemma allocate_subseteq o h : h ⊆ (allocate o h).2.
Proof. cbn. apply insert_subseteq, (allocate_fresh o). Qed.

(** A write to a location outside [h0] leaves [h0] a part of the store. *)
Lemma setProp_frame (h0 h : heap) o key v :
  h0 !! o = None -> h0 ⊆ h -> h0 ⊆ setProp o key v h.
Proof.
  intros Ho Hsub. unfold setProp.
  destruct (h !! o) as [[|props]|]; try done. by apply insert_subseteq_r.
Qed.

Lemma deleteProp_frame (h0 h : heap) o key :
  h0 !! o = None -> h0 ⊆ h -> h0 ⊆ deleteProp o key h.
Proof.
  intros Ho Hsub. unfold deleteProp.
  destruct (h !! o) as [[|props]|]; try done. by apply insert_subseteq_r.
Qed.

Lemma pushItem_frame (h0 h : heap) a v :
  h0 !! a = None -> h0 ⊆ h -> h0 ⊆ pushItem a v h.
Proof.
  intros Ha Hsub. unfold pushItem.
  destruct (h !! a) as [[items|]|]; try done. by apply insert_subseteq_r.
Qed.

Section store_frame.
Variable recur : ref_value -> heap -> heap * option ref_value.
Hypothesis recur_frame : forall v (h : heap), h ⊆ (recur v h).1.

Lemma mapLoop_frame (h0 : heap) data target k count (h : heap) :
  h0 !! target = None -> h0 ⊆ h ->
  h0 ⊆ (mapLoop recur data target k count h).1.
Proof.
  intros Ht. revert k h; induction count as [|count IH]; intros k h Hsub; [done|].
  cbn [mapLoop]. destruct (getItem data k h) as [item|]; [|by apply IH].
  destruct (isRef item).
  - pose proof (recur_frame item h) as Hrec.
    destruct (recur item h) as [h1 [mapped|]]; cbn [fst] in *.
    + apply IH, pushItem_frame; [done|]. by transitivity h.
    + by transitivity h.
  - by apply IH, pushItem_frame.
Qed.

Lemma deleteLoop_frame (h0 : heap) config copy keys (h : heap) :
  h0 !! copy = None -> h0 ⊆ h -> h0 ⊆ deleteLoop config copy keys h.
Proof.
  intros Hc. revert h; induction keys as [|key keys IH]; intros h Hsub; [done|].
  cbn [deleteLoop]. apply IH.
  destruct (isSkippedKey config key); [by apply deleteProp_frame|done].
Qed.

Lemma forEachLoop_frame (h0 : heap) config copy keys (h : heap) :
  h0 !! copy = None -> h0 ⊆ h ->
  h0 ⊆ (forEachLoop recur config copy keys h).1.
Proof.
  intros Hc. revert h; induction keys as [|key keys IH]; intros h Hsub; [done|].
  cbn [forEachLoop].
  destruct (isSensitiveKey config key); [by apply IH, setProp_frame|].
  destruct (getProp copy key h) as [| | | |s|l]; try by apply IH.
  - by apply IH, setProp_frame.
  - pose proof (recur_frame (RRef l) h) as Hrec.
    destruct (recur (RRef l) h) as [h1 [sanitized|]]; cbn [fst] in *.
    + apply IH, setProp_frame; [done|]. by transitivity h.
    + by transitivity h.
Qed.

End store_frame.

(** Every object and array of the store is, after the call, what it was
    before it. *)
Lemma sanitizeDataH_frame depth config data (h : heap) :
  h ⊆ (sanitizeDataH depth config data h).1.
Proof.
  revert data h; induction depth as [|depth IH]; intros data h;
    destruct data as [| | | |s|l]; try done.
  cbn [sanitizeDataH].
  destruct (h !! l) as [[items|props]|] eqn:Hl; [| |done].
  - pose proof (allocate_fresh (HArray []) h) as Hfresh.
    pose proof (allocate_subseteq (HArray []) h) as Hsub.
    destruct (allocate (HArray []) h) as [target h1]; cbn [fst snd] in *.
    pose proof (mapLoop_frame _ IH h l target 0 (length items) h1 Hfresh Hsub) as Hloop.
    by destruct (mapLoop _ _ _ _ _ _) as [h2 [[]|]].
  - pose proof (allocate_fresh (HObject props) h) as Hfresh.
    pose proof (allocate_subseteq (HObject props) h) as Hsub.
    destruct (allocate (HObject props) h) as [copy h1]; cbn [fst snd] in *.
    set (h2 := match skipProperties config with
               | Some (_ :: _) => deleteLoop config copy (objectKeys copy h1) h1
               | _ => h1
               end).
    assert (h ⊆ h2) as Hsub2.
    { subst h2. destruct (skipProperties config) as [[|? ?]|]; try done.
      by apply deleteLoop_frame. }
    pose proof (forEachLoop_frame _ IH h config copy (objectKeys copy h2) h2
                  Hfresh Hsub2) as Hloop.
    by destruct (forEachLoop _ _ _ _ _) as [h3 [[]|]].
Qed.

(** *** Reading trees from the store *)

Lemma readOutside_array old n (h : heap) l items ts :
  l ∉ old -> h !! l = Some (HArray items) ->
  Forall2 (itemReads old n h) items ts ->
  readOutside old (S n) h (RRef l) = Some (VArray ts).
Proof.
  intros Hl Hh Hitems. cbn [readOutside]. rewrite decide_False by done.
  rewrite Hh. by rewrite (mapM_Some_2 _ _ _ Hitems).
Qed.

Lemma readOutside_object old n (h : heap) l props tprops :
  l ∉ old -> h !! l = Some (HObject props) ->
  Forall2 (propReads old n h) props tprops ->
  readOutside old (S n) h (RRef l) = Some (VObject tprops).
Proof.
  intros Hl Hh Hprops. cbn [readOutside]. rewrite decide_False by done.
  rewrite Hh. erewrite mapM_Some_2; [reflexivity|].
  eapply Forall2_impl; [exact Hprops|].
  intros [k v] [k' t] [Hk Hv]. cbn in *. subst k'. by rewrite Hv.
Qed.

Lemma readOutside_ref_inv old n (h : heap) l t :
  readOutside old n h (RRef l) = Some t ->
  exists m,
    n = S m /\ (l ∉ old)
    /\ ((exists items ts,
           h !! l = Some (HArray items) /\ t = VArray ts
           /\ Forall2 (itemReads old m h) items ts)
        \/ (exists props tprops,
              h !! l = Some (HObject props) /\ t = VObject tprops
              /\ Forall2 (propReads old m h) props tprops)).
Proof.
  destruct n as [|m]; [discriminate|]. cbn [readOutside].
  destruct (decide (l ∈ old)); [discriminate|].
  destruct (h !! l) as [[items|props]|]; [| |discriminate]; intros Hr;
    apply fmap_Some in Hr as (xs & Hxs & ->); apply mapM_Some_1 in Hxs;
    exists m; repeat split; try done.
  - left. by exists items, xs.
  - right. exists props, xs. repeat split.
    eapply Forall2_impl; [exact Hxs|].
    intros [k v] kt Hkt. cbn in *.
    apply fmap_Some in Hkt as (t & Ht & ->). by split.
Qed.

(** A value that is not a reference denotes a value that is not object-like,
    in whatever store; a reference denotes an object or an array. *)
Lemma readOutside_primitive old n (h : heap) v t :
  isRef v = false -> readOutside old n h v = Some t ->
  isObjectLike t = false /\ forall old' n' (h' : heap), readOutside old' n' h' v = Some t.
Proof.
  destruct v; try discriminate; intros _; destruct n; intros [= <-];
    (split; [reflexivity|]); intros old' [|n'] h'; reflexivity.
Qed.

Lemma readOutside_ref_objectLike old n (h : heap) l t :
  readOutside old n h (RRef l) = Some t -> isObjectLike t = true.
Proof.
  intros Hr. apply readOutside_ref_inv in Hr
    as (m & _ & _ & [(?&?&_&->&_)|(?&?&_&->&_)]); reflexivity.
Qed.

Lemma readOutside_preserved old old' n (h h' : heap) v t :
  old' ⊆ old -> preservedOutside old h h' ->
  readOutside old n h v = Some t -> readOutside old' n h' v = Some t.
Proof.
  intros Hold Hpres. revert v t; induction n as [|n IH]; intros v t Hr.
  - destruct v; try done.
  - destruct v as [| | | | |l]; try done.
    apply readOutside_ref_inv in Hr
      as (m & [= <-] & Hl & [(items & ts & Hh & -> & Hitems)
                           |(props & tprops & Hh & -> & Hprops)]).
    + eapply readOutside_array; [set_solver|by eapply Hpres|].
      eapply Forall2_impl; [exact Hitems|]. intros; by apply IH.
    + eapply readOutside_object; [set_solver|by eapply Hpres|].
      eapply Forall2_impl; [exact Hprops|].
      intros kv kt [Hk Hv]. split; [done|by apply IH].
Qed.

Lemma preservedOutside_subseteq old (h h' : heap) : h ⊆ h' -> preservedOutside old h h'.
Proof. intros Hsub l c _ Hl. by eapply lookup_weaken. Qed.

Lemma preservedOutside_insert old (h h' : heap) l c :
  l ∈ old -> preservedOutside old h h' -> preservedOutside old h (<[l := c]> h').
Proof.
  intros Hl Hpres l' c' Hl' Hh. rewrite lookup_insert_ne by set_solver.
  by apply Hpres.
Qed.

Lemma readValue_weaken n (h h' : heap) v t :
  h ⊆ h' -> readValue n h v = Some t -> readValue n h' v = Some t.
Proof.
  intros Hsub. apply readOutside_preserved; [done|by apply preservedOutside_subseteq].
Qed.

(** *** The store version computes the tree version, out of new objects *)

Lemma pushItem_eq (h : heap) a rs v :
  h !! a = Some (HArray rs) -> pushItem a v h = <[a := HArray (rs ++ [v])]> h.
Proof. intros Ha. unfold pushItem. by rewrite Ha. Qed.

Lemma assignProp_middle key v old done rest :
  key ∉ done.*1 ->
  assignProp key v (done ++ (key, old) :: rest) = done ++ (key, v) :: rest.
Proof.
  induction done as [|[k x] done IH]; intros Hk; cbn [assignProp app].
  - by rewrite String.eqb_refl.
  - cbn in Hk. apply not_elem_of_cons in Hk as [Hne Hk].
    destruct (String.eqb_spec k key); [congruence|]. f_equal. auto.
Qed.

Lemma readProp_middle key v done rest :
  key ∉ done.*1 -> readProp key (done ++ (key, v) :: rest) = v.
Proof.
  induction done as [|[k x] done IH]; intros Hk; cbn [readProp app].
  - by rewrite String.eqb_refl.
  - cbn in Hk. apply not_elem_of_cons in Hk as [Hne Hk].
    destruct (String.eqb_spec k key); [congruence|]. auto.
Qed.

Section store_refinement.
Variable config : SanitizationParams.
Variable n : nat.
Variable recur : ref_value -> heap -> heap * option ref_value.
Hypothesis recur_spec :
  forall v (h : heap) t,
    readValue n h v = Some t -> uniqueKeys t = true ->
    exists (h' : heap) r,
      recur v h = (h', Some r) /\ h ⊆ h'
      /\ readOutside (dom h) n h' r = Some (sanitizeData config t).

Lemma mapLoop_refines (h0 : heap) data target items ts :
  h0 !! data = Some (HArray items) -> h0 !! target = None ->
  Forall2 (itemReads ∅ n h0) items ts ->
  forallb uniqueKeys ts = true ->
  forall count k (h : heap) rs,
    (k + count = length items)%nat -> h0 ⊆ h ->
    h !! target = Some (HArray rs) ->
    Forall2 (itemReads ({[target]} ∪ dom h0) n h) rs
      (List.map (sanitizeItem config) (take k ts)) ->
    exists (h' : heap) rs',
      mapLoop recur data target k count h = (h', Some tt)
      /\ h0 ⊆ h' /\ h' !! target = Some (HArray rs')
      /\ Forall2 (itemReads ({[target]} ∪ dom h0) n h') rs'
           (List.map (sanitizeItem config) ts).
Proof.
  intros Hdata Htarget Hitems Hunique.
  pose proof (Forall2_length _ _ _ Hitems) as Hlen.
  induction count as [|count IH]; intros k h rs Hk Hsub Hrs Hdone.
  - exists h, rs. rewrite take_ge in Hdone by lia. by repeat split.
  - cbn [mapLoop]. unfold getItem. rewrite (lookup_weaken _ _ _ _ Hdata Hsub).
    destruct (lookup_lt_is_Some_2 items k) as [item Hitem]; [lia|].
    rewrite Hitem.
    destruct (Forall2_lookup_l _ _ _ _ _ Hitems Hitem) as (t & Ht & Hread).
    assert (uniqueKeys t = true) as Hut.
    { rewrite forallb_forall in Hunique. apply Hunique.
      apply list_elem_of_In. by eapply list_elem_of_lookup_2. }
    assert (forall (h1 : heap) r,
               h ⊆ h1 ->
               readOutside ({[target]} ∪ dom h0) n h1 r = Some (sanitizeItem config t) ->
               exists (h' : heap) rs',
                 mapLoop recur data target (S k) count (pushItem target r h1) = (h', Some tt)
                 /\ h0 ⊆ h' /\ h' !! target = Some (HArray rs')
                 /\ Forall2 (itemReads ({[target]} ∪ dom h0) n h') rs'
                      (List.map (sanitizeItem config) ts)) as Hnext.
    { intros h1 r Hsub1 Hr.
      rewrite (pushItem_eq h1 target rs) by (by eapply lookup_weaken).
      apply (IH (S k) _ (rs ++ [r])).
      - lia.
      - apply insert_subseteq_r; [done|]. by transitivity h.
      - apply lookup_insert_eq.
      - rewrite (take_S_r _ _ _ Ht), List.map_app. apply Forall2_app.
        + eapply Forall2_impl; [exact Hdone|]. intros r' t' Hr'.
          eapply readOutside_preserved; [done| |exact Hr'].
          apply preservedOutside_insert; [set_solver|].
          by apply preservedOutside_subseteq.
        + constructor; [|constructor].
          eapply readOutside_preserved; [done| |exact Hr].
          apply preservedOutside_insert; [set_solver|]. by intros ?. }
    destruct (isRef item) eqn:Href.
    + destruct item as [| | | | |l]; try discriminate.
      destruct (recur_spec (RRef l) h t) as (h1 & r & -> & Hsub1 & Hr);
        [by eapply readValue_weaken|done|].
      apply Hnext; [done|].
      unfold sanitizeItem. rewrite (readOutside_ref_objectLike _ _ _ _ _ Hread).
      eapply readOutside_preserved; [|by intros ?|exact Hr].
      apply union_subseteq. split; [|by apply subseteq_dom].
      apply singleton_subseteq_l. by eapply elem_of_dom_2.
    + destruct (readOutside_primitive _ _ _ _ _ Href Hread) as [Hprim Hany].
      apply Hnext; [done|]. unfold sanitizeItem. rewrite Hprim. apply Hany.
Qed.

Lemma forEachLoop_refines (h0 : heap) copy :
  h0 !! copy = None ->
  forall todo done todoT doneT (h : heap),
    h0 ⊆ h ->
    h !! copy = Some (HObject (done ++ todo)) ->
    NoDup (done ++ todo).*1 ->
    Forall2 (propReads ∅ n h0) todo todoT ->
    forallb (fun kt => uniqueKeys kt.2) todoT = true ->
    Forall2 (propReads ({[copy]} ∪ dom h0) n h) done
      (List.map (processProperty config) doneT) ->
    exists (h' : heap) props',
      forEachLoop recur config copy todo.*1 h = (h', Some tt)
      /\ h0 ⊆ h' /\ h' !! copy = Some (HObject props')
      /\ Forall2 (propReads ({[copy]} ∪ dom h0) n h') props'
           (List.map (processProperty config) (doneT ++ todoT)).
Proof.
  intros Hcopy.
  induction todo as [|[key v] todo IH];
    intros done todoT doneT h Hsub Hh Hnd Htodo Hunique Hdone.
  - apply Forall2_nil_inv_l in Htodo as ->. exists h, done.
    rewrite !app_nil_r in *. by repeat split.
  - apply Forall2_cons_inv_l in Htodo as ([key' t] & restT & [Hkey Hread] & Htodo & ->).
    cbn in Hkey, Hread. subst key'.
    cbn [forallb] in Hunique. apply andb_true_iff in Hunique as [Hut Hunique].
    cbn [snd] in Hut.
    assert (key ∉ done.*1) as Hfresh.
    { rewrite fmap_app in Hnd. apply NoDup_app in Hnd as (_ & Hnd & _).
      intros Hin. apply (Hnd _ Hin). cbn. left. }
    (** The rest of the loop, once this property holds its final value. *)
    assert (forall (h1 : heap) v',
               h0 ⊆ h1 -> preservedOutside ({[copy]} ∪ dom h0) h h1 ->
               h1 !! copy = Some (HObject (done ++ (key, v') :: todo)) ->
               readOutside ({[copy]} ∪ dom h0) n h1 v'
               = Some (processProperty config (key, t)).2 ->
               exists (h' : heap) props',
                 forEachLoop recur config copy todo.*1 h1 = (h', Some tt)
                 /\ h0 ⊆ h' /\ h' !! copy = Some (HObject props')
                 /\ Forall2 (propReads ({[copy]} ∪ dom h0) n h') props'
                      (List.map (processProperty config) (doneT ++ (key, t) :: restT)))
      as Hnext.
    { intros h1 v' Hsub1 Hpres Hh1 Hv'.
      rewrite (cons_middle (key, t) doneT restT), app_assoc.
      apply (IH (done ++ [(key, v')])); try done.
      - by rewrite <- app_assoc.
      - rewrite <- app_assoc. cbn [app]. rewrite fmap_app in *. exact Hnd.
      - rewrite List.map_app. apply Forall2_app.
        + eapply Forall2_impl; [exact Hdone|]. intros kv kt [Hk Hr].
          split; [done|]. by eapply readOutside_preserved.
        + constructor; [|constructor]. by split. }
    (** A write of the final value to the copy. *)
    assert (forall (h1 : heap) v',
               h ⊆ h1 ->
               readOutside ({[copy]} ∪ dom h0) n h1 v'
               = Some (processProperty config (key, t)).2 ->
               exists (h' : heap) props',
                 forEachLoop recur config copy todo.*1 (setProp copy key v' h1)
                 = (h', Some tt)
                 /\ h0 ⊆ h' /\ h' !! copy = Some (HObject props')
                 /\ Forall2 (propReads ({[copy]} ∪ dom h0) n h') props'
                      (List.map (processProperty config) (doneT ++ (key, t) :: restT)))
      as Hwrite.
    { intros h1 v' Hsub1 Hv'. unfold setProp.
      rewrite (lookup_weaken _ _ _ _ Hh Hsub1), assignProp_middle by done.
      apply (Hnext _ v').
      - apply insert_subseteq_r; [done|]. by transitivity h.
      - apply preservedOutside_insert; [set_solver|].
        by apply preservedOutside_subseteq.
      - apply lookup_insert_eq.
      - eapply readOutside_preserved; [done| |exact Hv'].
        apply preservedOutside_insert; [set_solver|]. by intros ?. }
    cbn [fmap list_fmap fst forEachLoop].
    unfold processProperty in Hnext, Hwrite. cbn [fst snd] in Hnext, Hwrite.
    destruct (isSensitiveKey config key) eqn:Hsens.
    { apply Hwrite; [done|]. by destruct n. }
    unfold getProp, objectProps. rewrite Hh, readProp_middle by done.
    destruct v as [| | | |s|l].
    + apply readOutside_primitive in Hread as [_ Hany]; [|done].
      pose proof (Hany ∅ 1%nat ∅) as [= <-].
      eapply (Hnext h); [done|by intros ?|exact Hh|by destruct n].
    + apply readOutside_primitive in Hread as [_ Hany]; [|done].
      pose proof (Hany ∅ 1%nat ∅) as [= <-].
      eapply (Hnext h); [done|by intros ?|exact Hh|by destruct n].
    + apply readOutside_primitive in Hread as [_ Hany]; [|done].
      pose proof (Hany ∅ 1%nat ∅) as [= <-].
      eapply (Hnext h); [done|by intros ?|exact Hh|by destruct n].
    + apply readOutside_primitive in Hread as [_ Hany]; [|done].
      pose proof (Hany ∅ 1%nat ∅) as [= <-].
      eapply (Hnext h); [done|by intros ?|exact Hh|by destruct n].
    + apply readOutside_primitive in Hread as [_ Hany]; [|done].
      pose proof (Hany ∅ 1%nat ∅) as [= <-]. apply Hwrite; [done|]. by destruct n.
    + destruct (recur_spec (RRef l) h t) as (h1 & r & -> & Hsub1 & Hr);
        [by eapply readValue_weaken|done|].
      apply Hwrite; [done|].
      assert (readOutside ({[copy]} ∪ dom h0) n h1 r = Some (sanitizeData config t)) as Hr'.
      { eapply readOutside_preserved; [|by intros ?|exact Hr].
        apply union_subseteq. split; [|by apply subseteq_dom].
        apply singleton_subseteq_l. by eapply elem_of_dom_2. }
      pose proof (readOutside_ref_objectLike _ _ _ _ _ Hread) as Hobj.
      destruct t; try discriminate; exact Hr'.
Qed.

End store_refinement.

Lemma filter_twice {A} (f g k : A -> bool) (l : list A) :
  (forall x, In x l -> g x && f x = k x) ->
  List.filter f (List.filter g l) = List.filter k l.
Proof.
  induction l as [|x l IH]; intros Hk; [reflexivity|].
  cbn [List.filter]. rewrite <- (Hk x) by (by left).
  rewrite <- IH by (intros; apply Hk; by right).
  destruct (g x); cbn [andb List.filter]; [|reflexivity].
  destruct (f x); reflexivity.
Qed.

(** What the deletion loop leaves of the copy. *)
Lemma deleteLoop_result config copy keys (h : heap) props :
  h !! copy = Some (HObject props) ->
  deleteLoop config copy keys h
  = <[copy := HObject
                (List.filter
                   (fun kv => negb (isSkippedKey config kv.1
                                    && existsb (String.eqb kv.1) keys)) props)]> h.
Proof.
  revert h props; induction keys as [|key keys IH]; intros h props Hh.
  - cbn [deleteLoop existsb]. symmetry. apply insert_id. rewrite Hh. do 2 f_equal.
    rewrite <- (filter_twice (fun _ => true) (fun _ => true)).
    + clear. induction props as [|kv props IH]; [reflexivity|].
      cbn [List.filter]. by rewrite <- IH at 1.
    + intros kv _. by rewrite andb_false_r.
  - cbn [deleteLoop]. destruct (isSkippedKey config key) eqn:Hskip.
    + unfold deleteProp. rewrite Hh.
      rewrite (IH _ _ (lookup_insert_eq _ _ _)), insert_insert_eq. do 2 f_equal.
      apply filter_twice. intros [k v] _. cbn [fst existsb].
      destruct (String.eqb_spec k key) as [->|Hne]; cbn [negb andb orb];
        [by rewrite Hskip|reflexivity].
    + rewrite (IH _ _ Hh). do 2 f_equal. apply List.filter_ext.
      intros [k v]. cbn [fst existsb].
      destruct (String.eqb_spec k key) as [->|Hne]; cbn [orb];
        [by rewrite Hskip|reflexivity].
Qed.

Lemma existsb_own_key (props : list (string * ref_value)) kv :
  In kv props -> existsb (String.eqb kv.1) props.*1 = true.
Proof.
  intros Hin. apply existsb_exists. exists kv.1. split; [|apply String.eqb_refl].
  apply list_elem_of_In, list_elem_of_fmap. exists kv. split; [done|].
  by apply list_elem_of_In.
Qed.

Lemma propReads_removeSkipped config old n (h : heap) props tprops :
  Forall2 (propReads old n h) props tprops ->
  Forall2 (propReads old n h)
    (List.filter (fun kv => negb (isSkippedKey config kv.1)) props)
    (removeSkipped config tprops).
Proof.
  unfold removeSkipped. induction 1 as [|kv kt props tprops [Hk Hr] _ IH];
    [constructor|].
  cbn [List.filter]. rewrite Hk.
  destruct (isSkippedKey config kt.1); cbn [negb]; [exact IH|].
  constructor; [by split|exact IH].
Qed.

Lemma propReads_keys old n (h : heap) props tprops :
  Forall2 (propReads old n h) props tprops -> props.*1 = List.map fst tprops.
Proof.
  induction 1 as [|kv kt props tprops [Hk _] _ IH]; [reflexivity|].
  cbn. by rewrite Hk, IH.
Qed.

Lemma NoDup_keys_filter {A} (f : string * A -> bool) (l : list (string * A)) :
  NoDup (List.map fst l) -> NoDup (List.map fst (List.filter f l)).
Proof.
  induction l as [|kv l IH]; [done|]. cbn [List.map List.filter].
  intros Hnd. apply NoDup_cons in Hnd as [Hnew Hnd].
  destruct (f kv); [|auto]. cbn [List.map]. apply NoDup_cons. split; [|auto].
  intros Hin. apply Hnew.
  apply list_elem_of_In, List.in_map_iff in Hin as (kv' & Hk & Hin).
  apply List.filter_In in Hin as [Hin _].
  apply list_elem_of_In, List.in_map_iff. eauto.
Qed.

Lemma uniqueKeys_removeSkipped config tprops :
  forallb (fun kt => uniqueKeys kt.2) tprops = true ->
  forallb (fun kt => uniqueKeys kt.2) (removeSkipped config tprops) = true.
Proof.
  rewrite !forallb_forall. intros Hall kt Hin. apply Hall.
  unfold removeSkipped in Hin. apply List.filter_In in Hin. tauto.
Qed.

(** The store version returns, on a store value that denotes a tree with
    room for its depth, a value that denotes the sanitized tree and is
    made of new objects and arrays only. *)
Lemma sanitizeDataH_refines config n :
  forall v (h : heap) t,
    readValue n h v = Some t -> uniqueKeys t = true ->
    exists (h' : heap) r,
      sanitizeDataH n config v h = (h', Some r) /\ h ⊆ h'
      /\ readOutside (dom h) n h' r = Some (sanitizeData config t).
Proof.
  assert (forall v (h : heap) t n,
             isRef v = false -> readValue n h v = Some t ->
             exists (h' : heap) r,
               sanitizeDataH n config v h = (h', Some r) /\ h ⊆ h'
               /\ readOutside (dom h) n h' r = Some (sanitizeData config t))
    as Hprim.
  { intros v h t m Hv Hr. exists h.
    destruct v; try discriminate; destruct m; injection Hr as <-;
      cbn [sanitizeDataH sanitizeData];
      try (eexists; split; [reflexivity|]; split; [done|reflexivity]).
    all: destruct (maxLengthInForce config);
      eexists; (split; [reflexivity|]); (split; [done|reflexivity]). }
  induction n as [|n IH]; intros v h t Hread Hunique.
  { destruct v; try discriminate; by apply Hprim. }
  destruct v as [| | | | |l]; try by apply Hprim.
  apply readOutside_ref_inv in Hread
    as (m & [= <-] & _ & [(items & ts & Hh & -> & Hitems)
                        |(props & tprops & Hh & -> & Hprops)]).
  - cbn [uniqueKeys] in Hunique. cbn [sanitizeDataH]. rewrite Hh.
    pose proof (allocate_fresh (HArray []) h) as Hfresh.
    pose proof (allocate_subseteq (HArray []) h) as Hsub.
    destruct (allocate (HArray []) h) as [target h1] eqn:Halloc; cbn [fst snd] in *.
    assert (h1 !! target = Some (HArray [])) as Htarget.
    { injection Halloc as <- <-. apply lookup_insert_eq. }
    destruct (mapLoop_refines config n (sanitizeDataH n config) IH h l target
                items ts Hh Hfresh Hitems Hunique (length items) 0%nat h1 [])
      as (h' & rs & -> & Hsub' & Hrs & Hall); try done.
    exists h', (RRef target). split; [reflexivity|]. split; [done|].
    rewrite sanitizeData_array.
    eapply readOutside_array; [by apply not_elem_of_dom|exact Hrs|].
    eapply Forall2_impl; [exact Hall|]. intros r t Hr.
    eapply readOutside_preserved; [|by intros ?|exact Hr]. set_solver.
  - cbn [uniqueKeys] in Hunique. apply andb_true_iff in Hunique as [Hkeys Hunique].
    cbn [sanitizeDataH]. rewrite Hh.
    pose proof (allocate_fresh (HObject props) h) as Hfresh.
    pose proof (allocate_subseteq (HObject props) h) as Hsub.
    destruct (allocate (HObject props) h) as [copy h1] eqn:Halloc; cbn [fst snd] in *.
    assert (h1 !! copy = Some (HObject props)) as Hcopy.
    { injection Halloc as <- <-. apply lookup_insert_eq. }
    set (kept := List.filter (fun kv => negb (isSkippedKey config kv.1)) props).
    set (h2 := match skipProperties config with
               | Some (_ :: _) => deleteLoop config copy (objectKeys copy h1) h1
               | _ => h1
               end).
    assert (h2 = <[copy := HObject kept]> h1) as Hh2.
    { assert (deleteLoop config copy (objectKeys copy h1) h1
              = <[copy := HObject kept]> h1) as Hloop.
      { rewrite (deleteLoop_result _ _ _ _ _ Hcopy). do 2 f_equal.
        apply List.filter_ext_in. intros kv Hin.
        unfold objectKeys, objectProps. rewrite Hcopy.
        by rewrite existsb_own_key, andb_true_r. }
      assert (skipProperties config = None \/ skipProperties config = Some []
              -> h1 = <[copy := HObject kept]> h1) as Hnone.
      { intros Hskip. symmetry. apply insert_id. rewrite Hcopy. do 2 f_equal.
        subst kept. unfold isSkippedKey.
        rewrite <- (filter_twice (fun _ => true) (fun _ => true)
                      (fun kv => negb (match skipProperties config with
                                       | Some skipped =>
                                           existsb (fun prop => includes (toLowerCase kv.1)
                                                                  (toLowerCase prop)) skipped
                                       | None => false
                                       end))).
        - clear. induction props as [|kv props IH]; [reflexivity|].
          cbn [List.filter]. by rewrite <- IH at 1.
        - intros kv _. by destruct Hskip as [-> | ->]. }
      subst h2. destruct (skipProperties config) as [[|? ?]|]; auto. }
    clearbody h2. subst h2.
    assert (h ⊆ <[copy := HObject kept]> h1) as Hsub2
      by (by apply insert_subseteq_r).
    pose proof (propReads_keys _ _ _ _ _ Hprops) as Hsame.
    destruct (forEachLoop_refines config n (sanitizeDataH n config) IH h copy Hfresh
                kept [] (removeSkipped config tprops) [] (<[copy := HObject kept]> h1))
      as (h' & props' & Hloop & Hsub' & Hprops' & Hall); try done.
    { apply lookup_insert_eq. }
    { cbn [app]. subst kept.
      change ((List.filter ?f props).*1) with (List.map fst (List.filter f props)).
      apply NoDup_keys_filter.
      change (List.map fst props) with (props.*1). rewrite Hsame.
      by apply allDistinct_NoDup. }
    { subst kept. by apply propReads_removeSkipped. }
    { by apply uniqueKeys_removeSkipped. }
    assert (objectKeys copy (<[copy := HObject kept]> h1) = kept.*1) as ->.
    { unfold objectKeys, objectProps. by rewrite lookup_insert_eq. }
    rewrite Hloop.
    exists h', (RRef copy). split; [reflexivity|]. split; [done|].
    rewrite sanitizeData_object.
    eapply readOutside_object; [by apply not_elem_of_dom|exact Hprops'|].
    eapply Forall2_impl; [exact Hall|]. intros kv kt [Hk Hr]. split; [done|].
    eapply readOutside_preserved; [|by intros ?|exact Hr]. set_solver.
Qed.

(** Claim C10.  [sanitizeData] never mutates its argument.  Run on a
    store, whatever the value, the policy and the room on the call
    stack, every object and array the store held before the call is in
    it unchanged after the call; and when the argument denotes a tree [t]
    (objects with distinct keys, depth within the room), the call
    returns, the argument still denotes [t], and the returned value
    denotes [sanitizeData config t] through objects and arrays that are
    all new: none of them is at a location the store had before. *)
Theorem sanitizeData_never_mutates :
  (forall depth config data (h : heap),
      h ⊆ (sanitizeDataH depth config data h).1)
  /\ (forall depth config data (h : heap) t,
        readValue depth h data = Some t -> uniqueKeys t = true ->
        exists (h' : heap) r,
          sanitizeDataH depth config data h = (h', Some r)
          /\ readValue depth h' data = Some t
          /\ readOutside (dom h) depth h' r = Some (sanitizeData config t)).
Proof.
  split; [apply sanitizeDataH_frame|].
  intros depth config data h t Hread Hunique.
  destruct (sanitizeDataH_refines config depth data h t Hread Hunique)
    as (h' & r & Hrun & Hsub & Hr).
  exists h', r. split; [exact Hrun|]. split; [|exact Hr].
  by eapply readValue_weaken.
Qed.

(** The theorem on scenario C laid out in a store. *)
Lemma sanitizeData_never_mutates_witness :
  exists (h' : heap) r,
    sanitizeDataH 2 defaultSanitizationParams (RRef 0%nat) scenarioC_store
    = (h', Some r)
    /\ readValue 2 h' (RRef 0%nat) = Some scenarioC_input
    /\ readOutside (dom scenarioC_store) 2 h' r = Some scenarioC_output.
Proof.
  apply (proj2 sanitizeData_never_mutates 2%nat defaultSanitizationParams
           (RRef 0%nat) scenarioC_store scenarioC_input).
  - vm_compute. reflexivity.
  - reflexivity.
Defined.

(* ================================================================== *)
(** * Further properties of the code *)

(** ** The sanitizer: shape of the result *)

(** Property X1.
    A top-level object keeps exactly its keys that are not skipped, in
    their order; an array keeps its length; a value that is neither stays
    one; and the elements of an array that are not objects (strings
    among them) are returned as they are, whatever the policy. *)
Theorem sanitizeData_keeps_shape config :
  (forall props,
      exists props',
        sanitizeData config (VObject props) = VObject props'
        /\ List.map fst props'
           = List.filter (fun key => negb (isSkippedKey config key)) (List.map fst props))
  /\ (forall items,
        exists items',
          sanitizeData config (VArray items) = VArray items'
          /\ length items' = length items)
  /\ (forall items,
        forallb (fun item => negb (isObjectLike item)) items = true ->
        sanitizeData config (VArray items) = VArray items)
  /\ (forall v, isObjectLike (sanitizeData config v) = isObjectLike v).
Proof.
  split; [|split; [|split]].
  - intros props. eexists. split; [apply sanitizeData_object|].
    rewrite List.map_map. unfold removeSkipped.
    induction props as [|kv rest IH]; [reflexivity|].
    cbn [List.filter List.map]. destruct (isSkippedKey config kv.1); cbn [negb].
    + exact IH.
    + cbn [List.map]. rewrite IH. reflexivity.
  - intros items. eexists. split; [apply sanitizeData_array|].
    apply List.length_map.
  - intros items Hplain. rewrite sanitizeData_array. f_equal.
    induction items as [|item rest IH]; [reflexivity|].
    cbn [forallb] in Hplain. apply andb_true_iff in Hplain as [Hitem Hrest].
    cbn [List.map]. rewrite (IH Hrest). unfold sanitizeItem.
    destruct (isObjectLike item); [discriminate|reflexivity].
  - apply isObjectLike_sanitizeData.
Qed.

Lemma sanitizeData_keeps_shape_witness :
  sanitizeData sampleObjectPolicy
    (VArray [VString "see https://example.com/reset?token=abc"; VNumber 7])
  = VArray [VString "see https://example.com/reset?token=abc"; VNumber 7].
Proof.
  apply (proj1 (proj2 (proj2 (sanitizeData_keeps_shape sampleObjectPolicy)))).
  reflexivity.
Defined.

(** ** The sanitizer: a policy that asks for nothing *)

Lemma processString_plain config s :
  truncateUrlsInForce config = false -> maxLengthInForce config = None ->
  processString config s = s.
Proof. intros Hu Hm. unfold processString. by rewrite Hu, Hm. Qed.

(** Property X2.
    With no sensitive key, nothing to skip, no URL rewriting and no
    length limit, [sanitizeData] returns a value equal to its argument. *)
Theorem sanitizeData_plain_policy config data :
  sensitiveKeys config = [] ->
  (forall key, isSkippedKey config key = false) ->
  truncateUrlsInForce config = false ->
  maxLengthInForce config = None ->
  sanitizeData config data = data.
Proof.
  intros Hkeys Hskip Hurl Hmax.
  assert (forall key, isSensitiveKey config key = false) as Hsens.
  { intros key. unfold isSensitiveKey. by rewrite Hkeys. }
  induction data as [| |b|n|s|items IH|props IH] using value_nested_ind;
    try reflexivity.
  - cbn [sanitizeData]. by rewrite Hmax.
  - rewrite sanitizeData_array. f_equal.
    induction IH as [|item rest Hitem _ IHrest]; [reflexivity|].
    cbn [List.map]. rewrite IHrest. unfold sanitizeItem.
    destruct (isObjectLike item); [by rewrite Hitem|reflexivity].
  - rewrite sanitizeData_object. f_equal. unfold removeSkipped.
    induction IH as [|[key v] rest Hv _ IHrest]; [reflexivity|].
    cbn [List.filter fst]. rewrite Hskip. cbn [negb List.map]. rewrite IHrest.
    unfold processProperty. cbn [fst snd] in *. rewrite Hsens.
    destruct v; try reflexivity.
    + by rewrite processString_plain.
    + by rewrite Hv.
    + by rewrite Hv.
Qed.

Lemma sanitizeData_plain_policy_witness :
  sanitizeData plainPolicy scenarioC_input = scenarioC_input.
Proof.
  apply (sanitizeData_plain_policy plainPolicy scenarioC_input);
    reflexivity.
Defined.

(** ** The sanitizer: an empty entry in a key list *)

Lemma startsWith_empty s : startsWith s EmptyString = true.
Proof. by destruct s. Qed.

Lemma includes_empty s : includes s EmptyString = true.
Proof. destruct s; reflexivity. Qed.

(** Property X3.
    Every string includes the empty string.  So an empty entry among the
    sensitive keys masks every property that is kept, and an empty entry
    among the skipped properties removes every property of every
    object. *)
Theorem empty_entry_matches_every_key config :
  (In EmptyString (sensitiveKeys config) ->
   forall props,
     sanitizeData config (VObject props)
     = VObject (List.map (fun kv => (kv.1, VString (maskValue config)))
                  (removeSkipped config props)))
  /\ (forall skipped,
        skipProperties config = Some skipped -> In EmptyString skipped ->
        forall props, sanitizeData config (VObject props) = VObject []).
Proof.
  split.
  - intros Hin props. rewrite sanitizeData_object. f_equal.
    apply List.map_ext. intros kv. unfold processProperty.
    assert (isSensitiveKey config kv.1 = true) as ->; [|reflexivity].
    unfold isSensitiveKey. apply orb_true_iff. right.
    apply existsb_exists. exists EmptyString. split; [exact Hin|].
    apply includes_empty.
  - intros skipped Hskip Hin props. rewrite sanitizeData_object. f_equal.
    unfold removeSkipped.
    induction props as [|kv rest IH]; [reflexivity|].
    cbn [List.filter].
    assert (isSkippedKey config kv.1 = true) as ->; [|exact IH].
    unfold isSkippedKey. rewrite Hskip.
    apply existsb_exists. exists EmptyString. split; [exact Hin|].
    apply includes_empty.
Qed.

Lemma empty_entry_matches_every_key_witness :
  sanitizeData emptyKeyPolicy scenarioC_input
  = VObject [("token", VString "#"); ("nested", VString "#")]
  /\ sanitizeData emptySkipPolicy scenarioC_input = VObject [].
Proof.
  split.
  - apply (proj1 (empty_entry_matches_every_key emptyKeyPolicy)).
    left. reflexivity.
  - apply (proj2 (empty_entry_matches_every_key emptySkipPolicy) [EmptyString]).
    + reflexivity.
    + left. reflexivity.
Defined.

(** ** [sanitizeObject]: what reaches the log *)

Lemma sanitizeObject_policy `{platform : Platform} obj :
  sanitizeObject obj
  = if truthy obj then sanitizeData customSanitizationParams obj else VObject [].
Proof. reflexivity. Qed.

Lemma length_truncateString s m :
  0 <= m -> Z.of_nat (String.length (truncateString s m)) <= m + 3.
Proof.
  intros Hm. unfold truncateString.
  destruct (Z.of_nat (String.length s) >? m) eqn:E.
  - unfold substring0. rewrite length_append, length_takeChars. cbn [String.length]. lia.
  - lia.
Qed.

Lemma fitForLog_sanitizeData config maxLength data :
  truncateUrlsInForce config = true ->
  maxLengthInForce config = Some maxLength -> 0 <= maxLength ->
  fitForLog config maxLength (sanitizeData config data) = true.
Proof.
  intros Hurl Hmax Hpos.
  induction data as [| |b|n|s|items IH|props IH] using value_nested_ind;
    try reflexivity.
  - cbn [sanitizeData]. by rewrite Hmax.
  - rewrite sanitizeData_array. cbn [fitForLog].
    apply forallb_forall. intros item' Hin.
    apply List.in_map_iff in Hin as (item & <- & Hin).
    unfold sanitizeItem. destruct (isObjectLike item) eqn:E.
    + rewrite isObjectLike_sanitizeData, E.
      rewrite Forall_forall in IH. apply IH. by apply list_elem_of_In.
    + by rewrite E.
  - rewrite sanitizeData_object. cbn [fitForLog].
    apply forallb_forall. intros kv' Hin.
    apply List.in_map_iff in Hin as ([key v] & <- & Hin).
    unfold removeSkipped in Hin. apply List.filter_In in Hin as [Hin Hkept].
    cbn [fst] in Hkept. unfold processProperty. cbn [fst snd].
    rewrite Hkept. cbn [andb].
    destruct (isSensitiveKey config key); [apply String.eqb_refl|].
    rewrite Forall_forall in IH.
    specialize (IH (key, v) (proj2 (list_elem_of_In _ _) Hin)). cbn [snd] in IH.
    destruct v; try reflexivity; try exact IH.
    rewrite (processString_no_http config s Hurl). cbn [negb andb].
    apply Z.leb_le. unfold processString. rewrite Hmax.
    by apply length_truncateString.
Qed.

(** Property X4.
    Whatever the current defaults and whatever the value, the result of
    [sanitizeObject] is fit for the log at every depth: it has no
    property whose key contains [stack], every property under a sensitive
    key holds the mask, and every other string property is free of
    [http] and at most 1003 characters long. *)
Theorem sanitizeObject_fit_for_log `{platform : Platform} obj :
  fitForLog customSanitizationParams 1000 (sanitizeObject obj) = true.
Proof.
  rewrite sanitizeObject_policy. destruct (truthy obj); [|reflexivity].
  apply fitForLog_sanitizeData; [reflexivity|reflexivity|lia].
Qed.

(** ** [sanitizeString] *)

Lemma filterChars_id keep s :
  (forall c, containsChar c s = true -> keep c = true) -> filterChars keep s = s.
Proof.
  induction s as [|c rest IH]; [reflexivity|]. intros Hall.
  cbn [filterChars]. rewrite (Hall c).
  - f_equal. apply IH. intros d Hd. apply Hall. cbn [containsChar].
    rewrite Hd. apply orb_true_r.
  - cbn [containsChar]. by rewrite Ascii.eqb_refl.
Qed.

Lemma trimEnd_idem s : trimEnd (trimEnd s) = trimEnd s.
Proof.
  induction s as [|c rest IH]; [reflexivity|].
  cbn [trimEnd]. destruct (trimEnd rest) as [|d kept] eqn:E.
  - destruct (isWhitespace c) eqn:Ec; [reflexivity|].
    cbn [trimEnd]. by rewrite Ec.
  - cbn [trimEnd] in *. rewrite IH. reflexivity.
Qed.

Lemma trimStart_trimEnd s :
  trimStart (trimEnd (trimStart s)) = trimEnd (trimStart s).
Proof.
  induction s as [|c rest IH]; [reflexivity|].
  cbn [trimStart]. destruct (isWhitespace c) eqn:Ec; [exact IH|].
  rewrite (trimEnd_cons c rest Ec). cbn [trimStart]. by rewrite Ec.
Qed.

Lemma trim_idem s : trim (trim s) = trim s.
Proof. unfold trim. by rewrite trimStart_trimEnd, trimEnd_idem. Qed.

Lemma sanitizeString_no_dangerous c s :
  isDangerousChar c = true -> containsChar c (sanitizeString s) = false.
Proof.
  intros Hc. unfold sanitizeString. destruct (nonEmpty s); [|reflexivity].
  unfold trim. apply containsChar_trimEnd, containsChar_trimStart.
  apply containsChar_filterChars. by rewrite Hc.
Qed.

(** Property X5.
    [sanitizeString] is idempotent, its result holds none of the five
    characters it removes, and it leaves a string alone exactly when the
    string holds none of them and has no white space at either end. *)
Theorem sanitizeString_idempotent s :
  sanitizeString (sanitizeString s) = sanitizeString s
  /\ (forall c, isDangerousChar c = true -> containsChar c (sanitizeString s) = false)
  /\ (sanitizeString s = s
      <-> (forall c, isDangerousChar c = true -> containsChar c s = false)
          /\ trim s = s).
Proof.
  assert (forall t,
             (forall c, isDangerousChar c = true -> containsChar c t = false) ->
             sanitizeString t = trim t) as Hclean.
  { intros t Hfree. unfold sanitizeString. destruct t as [|c rest]; [reflexivity|].
    cbn [nonEmpty]. f_equal. apply filterChars_id. intros d Hd.
    destruct (isDangerousChar d) eqn:E; [|reflexivity].
    rewrite (Hfree d E) in Hd. discriminate. }
  split; [|split].
  - rewrite (Hclean (sanitizeString s)).
    + unfold sanitizeString. destruct (nonEmpty s); [apply trim_idem|reflexivity].
    + intros c Hc. by apply sanitizeString_no_dangerous.
  - intros c Hc. by apply sanitizeString_no_dangerous.
  - split.
    + intros Hfix. split.
      * intros c Hc. rewrite <- Hfix. by apply sanitizeString_no_dangerous.
      * rewrite <- Hfix at 1. unfold sanitizeString.
        destruct (nonEmpty s) eqn:E; [|by destruct s].
        rewrite trim_idem. rewrite <- Hfix at 2. unfold sanitizeString. by rewrite E.
    + intros [Hfree Htrim]. by rewrite (Hclean s Hfree).
Qed.

(** ** [cleanMessage] only removes *)

Lemma length_filterChars keep s :
  (String.length (filterChars keep s) <= String.length s)%nat.
Proof.
  induction s as [|c rest IH]; [reflexivity|].
  cbn [filterChars]. destruct (keep c); cbn [String.length]; lia.
Qed.

Lemma length_trimStart s : (String.length (trimStart s) <= String.length s)%nat.
Proof.
  induction s as [|c rest IH]; [reflexivity|].
  cbn [trimStart]. destruct (isWhitespace c); cbn [String.length] in *; lia.
Qed.

Lemma length_trimEnd s : (String.length (trimEnd s) <= String.length s)%nat.
Proof.
  induction s as [|c rest IH]; [reflexivity|].
  cbn [trimEnd]. destruct (trimEnd rest).
  - destruct (isWhitespace c); cbn [String.length] in *; lia.
  - cbn [String.length] in *. lia.
Qed.

Lemma length_sanitizeString s :
  (String.length (sanitizeString s) <= String.length s)%nat.
Proof.
  unfold sanitizeString, trim. destruct (nonEmpty s); [|cbn; lia].
  etransitivity; [apply length_trimEnd|].
  etransitivity; [apply length_trimStart|]. apply length_filterChars.
Qed.

Lemma length_stripAnsiFrom skip s :
  (String.length (stripAnsiFrom skip s) <= String.length s)%nat.
Proof.
  revert skip. induction s as [|c rest IH]; intros skip; [reflexivity|].
  cbn [stripAnsiFrom]. destruct skip as [|k].
  - destruct (matchAnsi (String c rest)) as [[|n]|].
    + cbn [String.length]. specialize (IH 0%nat). lia.
    + cbn [String.length]. specialize (IH n). lia.
    + cbn [String.length]. specialize (IH 0%nat). lia.
  - cbn [String.length]. specialize (IH k). lia.
Qed.

Lemma length_dropChars n s : (String.length (dropChars n s) <= String.length s)%nat.
Proof.
  revert s. induction n as [|n IH]; intros s; [by destruct s|].
  destruct s as [|c rest]; [reflexivity|].
  cbn [dropChars String.length]. specialize (IH rest). lia.
Qed.

Lemma length_dropTrailingQuote s :
  (String.length (dropTrailingQuote s) <= String.length s)%nat.
Proof.
  induction s as [|c rest IH]; [reflexivity|].
  cbn [dropTrailingQuote]. destruct rest as [|d rest'].
  - destruct (Ascii.eqb c "'"); cbn [String.length]; lia.
  - cbn [String.length] in *. lia.
Qed.

Lemma length_stripErrorPrefix s :
  (String.length (stripErrorPrefix s) <= String.length s)%nat.
Proof.
  unfold stripErrorPrefix. etransitivity; [apply length_dropTrailingQuote|].
  destruct (startsWith s "'Error: "); [apply length_dropChars|].
  destruct (startsWith s "'"); [apply length_dropChars|reflexivity].
Qed.

Lemma length_firstLine s : (String.length (firstLine s) <= String.length s)%nat.
Proof.
  induction s as [|c rest IH]; [reflexivity|].
  cbn [firstLine]. destruct (Ascii.eqb c LF); cbn [String.length]; lia.
Qed.

Lemma cleanMessage_no_dangerous c message :
  isDangerousChar c = true -> containsChar c (cleanMessage message) = false.
Proof.
  intros Hc. unfold cleanMessage. destruct (nonEmpty message); [|reflexivity].
  apply containsChar_firstLine, containsChar_stripErrorPrefix.
  unfold stripAnsi. apply containsChar_stripAnsiFrom.
  by apply sanitizeString_no_dangerous.
Qed.

(** Property X6.
    [cleanMessage] only removes characters: its result is never longer
    than the message and holds no quote, backslash or angle bracket. *)
Theorem cleanMessage_only_removes message :
  (String.length (cleanMessage message) <= String.length message)%nat
  /\ forall c, isDangerousChar c = true -> containsChar c (cleanMessage message) = false.
Proof.
  split; [|intros c Hc; by apply cleanMessage_no_dangerous].
  unfold cleanMessage. destruct (nonEmpty message); [|cbn; lia].
  etransitivity; [apply length_firstLine|].
  etransitivity; [apply length_stripErrorPrefix|].
  etransitivity; [apply length_stripAnsiFrom|]. apply length_sanitizeString.
Qed.

(** ** The stricter cleaning pass *)

Lemma containsChar_takeChars c n s :
  containsChar c s = false -> containsChar c (takeChars n s) = false.
Proof.
  revert s. induction n as [|n IH]; intros s Hs; [by destruct s|].
  destruct s as [|d rest]; [reflexivity|].
  cbn [takeChars containsChar] in *. apply orb_false_iff in Hs as [-> Hrest].
  by rewrite (IH rest Hrest).
Qed.

Lemma containsChar_append c s t :
  containsChar c (s +:+ t) = containsChar c s || containsChar c t.
Proof.
  induction s as [|d rest IH]; [reflexivity|].
  change (String d rest +:+ t) with (String d (rest +:+ t)).
  cbn [containsChar]. rewrite IH. apply orb_assoc.
Qed.

Lemma indexOf_Some_includes s p i : indexOf s p = Some i -> includes s p = true.
Proof.
  revert i. induction s as [|c rest IH]; intros i.
  - cbn [indexOf includes]. destruct (startsWith EmptyString p); [reflexivity|discriminate].
  - cbn [indexOf includes]. destruct (startsWith (String c rest) p); [reflexivity|].
    cbn [orb]. destruct (indexOf rest p) as [k|] eqn:Ek; [|discriminate].
    intros _. by apply (IH k).
Qed.

Lemma cleanMessage_no_newline message : containsChar LF (cleanMessage message) = false.
Proof.
  unfold cleanMessage. destruct (nonEmpty message); [|reflexivity].
  apply firstLine_no_newline.
Qed.

(** Property X7.
    The string [processSanitizedString] returns never contains [http]
    and never a line break.  It is at most 1003 characters long when the
    cleaned value has no [http]; when it has, the result is all that
    precedes the first [http], however long, and three dots. *)
Theorem processSanitizedString_result value :
  includes (processSanitizedString value) "http" = false
  /\ containsChar LF (processSanitizedString value) = false
  /\ (includes (cleanMessage value) "http" = false ->
      (String.length (processSanitizedString value) <= 1003)%nat)
  /\ (forall httpIndex,
        indexOf (cleanMessage value) "http" = Some httpIndex ->
        processSanitizedString value
        = takeChars httpIndex (cleanMessage value) +:+ "...").
Proof.
  pose proof (cleanMessage_no_newline value) as Hline.
  unfold processSanitizedString.
  destruct (includes (cleanMessage value) "http") eqn:Ehttp.
  - destruct (indexOf (cleanMessage value) "http") as [i|] eqn:Ei.
    + unfold substring0. rewrite Nat2Z.id. repeat split.
      * apply includes_http_dots. by apply (includes_before_indexOf _ "http").
      * rewrite containsChar_append, (containsChar_takeChars _ _ _ Hline). reflexivity.
      * discriminate.
      * intros j [= <-]. reflexivity.
    + apply indexOf_None in Ei. congruence.
  - destruct (Z.of_nat (String.length (cleanMessage value)) >? 1000) eqn:Elong.
    + unfold substring0. repeat split.
      * apply includes_http_dots. by apply includes_takeChars_false.
      * rewrite containsChar_append, (containsChar_takeChars _ _ _ Hline). reflexivity.
      * intros _. rewrite length_append, length_takeChars. cbn [String.length]. lia.
      * intros j Hj. apply indexOf_Some_includes in Hj. congruence.
    + repeat split; try assumption.
      * intros _. rewrite Z.gtb_ltb in Elong. apply Z.ltb_ge in Elong. lia.
      * intros j Hj. apply indexOf_Some_includes in Hj. congruence.
Qed.

Lemma processSanitizedString_result_witness :
  processSanitizedString "see'  https://example.com/reset <now>" = "see  ..."
  /\ (String.length (processSanitizedString "plain text") <= 1003)%nat.
Proof.
  destruct (processSanitizedString_result "see'  https://example.com/reset <now>")
    as (_ & _ & _ & Hcut).
  destruct (processSanitizedString_result "plain text") as (_ & _ & Hshort & _).
  split.
  - apply (Hcut 5%nat). reflexivity.
  - apply Hshort. reflexivity.
Defined.

(** ** The classifier *)

Lemma startsWith_prefix s p : startsWith s p = true <-> exists rest, s = p +:+ rest.
Proof.
  revert p. induction s as [|c s' IH]; intros p.
  - destruct p as [|a p'].
    + split; [by exists EmptyString|reflexivity].
    + split; [discriminate|]. intros [rest Hrest]. discriminate.
  - destruct p as [|a p'].
    + split; [by exists (String c s')|reflexivity].
    + cbn [startsWith]. destruct (Ascii.eqb_spec a c) as [->|Hne].
      * rewrite IH. split; intros [rest Hrest]; exists rest.
        -- by rewrite Hrest.
        -- by injection Hrest.
      * split; [discriminate|]. intros [rest Hrest]. injection Hrest as Hc _.
        congruence.
Qed.

Lemma append_assoc_string (a b c : string) : (a +:+ b) +:+ c = a +:+ (b +:+ c).
Proof.
  induction a as [|x a IH]; [reflexivity|].
  change (String x a +:+ b) with (String x (a +:+ b)).
  change (String x (a +:+ b) +:+ c) with (String x ((a +:+ b) +:+ c)).
  by rewrite IH.
Qed.

Lemma includes_infix s p :
  includes s p = true <-> exists before after, s = before +:+ (p +:+ after).
Proof.
  induction s as [|c s' IH].
  - cbn [includes]. rewrite orb_false_r, startsWith_prefix. split.
    + intros [rest Hrest]. by exists EmptyString, rest.
    + intros (before & after & Heq). destruct before; [by exists after|discriminate].
  - cbn [includes]. rewrite orb_true_iff, IH, startsWith_prefix. split.
    + intros [[rest Hrest]|(before & after & Heq)].
      * by exists EmptyString, rest.
      * exists (String c before), after. by rewrite Heq.
    + intros (before & after & Heq). destruct before as [|d before].
      * left. by exists after.
      * right. exists before, after. by injection Heq.
Qed.

Lemma includes_trans s t u :
  includes s t = true -> includes t u = true -> includes s u = true.
Proof.
  rewrite !includes_infix. intros (a & b & ->) (c & d & ->).
  exists (a +:+ c), (d +:+ b). by rewrite !append_assoc_string.
Qed.

(** What [find] returns lies no later than the first element known to
    pass the test. *)
Lemma find_before {A} (p : A -> bool) (front : list A) (e : A) (back : list A) x :
  List.find p (front ++ e :: back) = Some x -> p e = true -> In x (front ++ [e]).
Proof.
  intros Hfind He. induction front as [|y front IH].
  - cbn [app List.find] in Hfind. rewrite He in Hfind. left. congruence.
  - cbn [app List.find] in *. destruct (p y).
    + left. congruence.
    + right. by apply IH.
Qed.

Lemma categoryOfKeywords_not_accessDenied msg :
  categoryOfKeywords msg <> Some ACCESS_DENIED.
Proof.
  unfold categoryOfKeywords.
  set (p := fun entry : ErrorCategory * list string =>
              existsb (fun keyword => includes msg keyword) entry.2).
  destruct (List.find p patterns) as [[c kws]|] eqn:Efind; [|discriminate].
  cbn [fmap option_fmap option_map fst]. intros [= ->].
  pose proof (List.find_some _ _ Efind) as [Hin Hp].
  assert (kws = ["permission denied"; "access denied"]) as ->.
  { clear -Hin. unfold patterns in Hin. cbn [In] in Hin.
    repeat (destruct Hin as [Hin|Hin]; [by inversion Hin|]). destruct Hin. }
  assert (p (PERMISSION, ["permission"; "access"; "denied"]) = true) as Hearlier.
  { unfold p in *. cbn [snd existsb] in *. rewrite orb_false_r in Hp.
    apply orb_true_iff in Hp as [Hp|Hp].
    - rewrite (includes_trans msg "permission denied" "permission" Hp eq_refl).
      reflexivity.
    - rewrite (includes_trans msg "access denied" "access" Hp eq_refl).
      apply orb_true_iff. right. reflexivity. }
  change patterns with
    ([(CONNECTION, ["connection"; "connect"]); (QUERY, ["query"; "sql"]);
      (TRANSACTION, ["transaction"]); (CONSTRAINT, ["constraint"; "duplicate"]);
      (DATABASE, ["database"; "db"])]
     ++ (PERMISSION, ["permission"; "access"; "denied"])
        :: List.skipn 6 patterns) in Efind.
  pose proof (find_before p _ _ _ _ Efind Hearlier) as Hfront.
  cbn [app In] in Hfront.
  repeat (destruct Hfront as [Hfront|Hfront]; [discriminate|]). destruct Hfront.
Qed.

Lemma categoryOfCode_accessDenied code :
  categoryOfCode code = Some ACCESS_DENIED -> code = VString "EACCES".
Proof.
  destruct code as [| | | |c| |]; try discriminate. cbn [categoryOfCode].
  repeat match goal with
         | |- context [String.eqb c ?k] =>
             destruct (String.eqb_spec c k) as [->|_]; [try discriminate; reflexivity|]
         end.
  discriminate.
Qed.

(** Property X8.
    The keyword entry of [ACCESS_DENIED] can never be the one that
    decides: each of its two keywords contains a keyword of [PERMISSION],
    which stands earlier in the table.  An error is categorized
    [ACCESS_DENIED] only through its code [EACCES] or through the
    category an [AppError] carries. *)
Theorem accessDenied_keywords_unreachable :
  (forall msg, categoryOfKeywords msg <> Some ACCESS_DENIED)
  /\ (forall o,
        categorizeErrorByMessage o = ACCESS_DENIED ->
        lookupProp "code" (ownProps o) = Some (VString "EACCES")
        \/ exists name,
             appErrorCategory o = Some name
             /\ parseCategory name = Some ACCESS_DENIED).
Proof.
  split; [apply categoryOfKeywords_not_accessDenied|].
  intros o. unfold categorizeErrorByMessage.
  destruct (lookupProp "code" (ownProps o)) as [code|] eqn:Ecode.
  - destruct (categoryOfCode code) as [c|] eqn:Ec.
    + intros ->. left. f_equal. by apply categoryOfCode_accessDenied.
    + destruct (categoryOfKeywords _) as [c|] eqn:Ek.
      * intros ->. by apply categoryOfKeywords_not_accessDenied in Ek.
      * destruct (appErrorCategory o) as [name|]; [|discriminate].
        destruct (parseCategory name) as [c|] eqn:Ep; [|discriminate].
        intros ->. right. by exists name.
  - destruct (categoryOfKeywords _) as [c|] eqn:Ek.
    + intros ->. by apply categoryOfKeywords_not_accessDenied in Ek.
    + destruct (appErrorCategory o) as [name|]; [|discriminate].
      destruct (parseCategory name) as [c|] eqn:Ep; [|discriminate].
      intros ->. right. by exists name.
Qed.

Lemma accessDenied_keywords_unreachable_witness :
  lookupProp "code" (ownProps accessDeniedError) = Some (VString "EACCES")
  \/ exists name,
       appErrorCategory accessDeniedError = Some name
       /\ parseCategory name = Some ACCESS_DENIED.
Proof.
  apply (proj2 accessDenied_keywords_unreachable accessDeniedError).
  reflexivity.
Defined.

(** Property X9.
    [categorizeAxiosError] by ranges of the status: an error without a
    response, or with status 0, is [NETWORK]; any other status below 400
    (a redirect, say) is [UNKNOWN]; 500 and above is [HTTP_SERVER]; the
    range from 400 to 499 is [HTTP_CLIENT] but for 401, 403 and 404. *)
Theorem categorizeAxiosError_ranges ax :
  (categorizeAxiosError ax = NETWORK <-> truthyStatus ax = None)
  /\ (categorizeAxiosError ax = UNKNOWN
      <-> exists n, truthyStatus ax = Some n /\ n < 400)
  /\ (categorizeAxiosError ax = HTTP_SERVER
      <-> exists n, truthyStatus ax = Some n /\ 500 <= n)
  /\ (categorizeAxiosError ax = HTTP_CLIENT
      <-> exists n, truthyStatus ax = Some n
                    /\ 400 <= n < 500 /\ n <> 401 /\ n <> 403 /\ n <> 404).
Proof.
  unfold categorizeAxiosError. destruct (truthyStatus ax) as [n|].
  - destruct (Z.eqb_spec n 401) as [->|H401].
    { repeat split; try discriminate; intros (n & [= <-] & ?); lia. }
    destruct (Z.eqb_spec n 403) as [->|H403].
    { repeat split; try discriminate; intros (n & [= <-] & ?); lia. }
    destruct (Z.eqb_spec n 404) as [->|H404].
    { repeat split; try discriminate; intros (n & [= <-] & ?); lia. }
    destruct (Z.leb_spec 400 n) as [Hlow|Hlow];
      destruct (Z.ltb_spec n 500) as [Hhigh|Hhigh]; cbn [andb];
      try (destruct (Z.leb_spec 500 n) as [Hserver|Hserver]);
      repeat split; try discriminate;
      try (intros (m & [= <-] & ?); lia);
      try (intros _; exists n; split; [reflexivity|lia]).
  - repeat split; try discriminate; intros (n & [= ] & _).
Qed.

Lemma categorizeAxiosError_ranges_witness :
  categorizeAxiosError redirectAxios = UNKNOWN.
Proof.
  apply (proj1 (proj2 (categorizeAxiosError_ranges redirectAxios))).
  exists 302. split; [reflexivity|lia].
Defined.

(** ** [createErrorDetails] *)

Section CreateErrorDetailsProperties.
Context `{platform : Platform}.

Lemma addHttpDetails_fields error details :
  source (addHttpDetailsIfAvailable error details) = source details
  /\ context (addHttpDetailsIfAvailable error details) = context details
  /\ message (addHttpDetailsIfAvailable error details) = message details
  /\ category (addHttpDetailsIfAvailable error details) = category details.
Proof.
  unfold addHttpDetailsIfAvailable.
  destruct (isAxiosError error) as [ax|]; [|done].
  destruct (truthyStatus ax); done.
Qed.

(** The steps of [createErrorDetails], when it returns. *)
Lemma createErrorDetails_inv error from given details :
  createErrorDetails error from given = Ok details ->
  exists label text,
    match given with
    | Some c => if nonEmpty c then Ok c else getContextFromError error
    | None => getContextFromError error
    end = Ok label
    /\ getErrorMessage error = Ok text
    /\ assignBack error = Ok tt
    /\ details
       = addHttpDetailsIfAvailable error
           {| source := from; context := label; message := text;
              category := categorizeError error; statusCode := None; url := None |}.
Proof.
  unfold createErrorDetails.
  destruct (match given with
            | Some c => if nonEmpty c then Ok c else getContextFromError error
            | None => getContextFromError error
            end) as [label|]; [|discriminate].
  cbn [bindResult]. destruct (getErrorMessage error) as [text|]; [|discriminate].
  cbn [bindResult]. destruct (assignBack error) as [[]|]; [|discriminate].
  cbn [bindResult]. intros [= <-]. by exists label, text.
Qed.





End CreateErrorDetailsProperties.



(** ** The handler: invariants of the state *)

Section HandlerInvariants.
Context `{platform : Platform}.

Lemma captureError_returns error from given st :
  userCode error = None -> (captureError error from given st).2 = Ok tt.
Proof.
  intros Hcode. unfold captureError.
  destruct (captureErrorTry error from given st) as [st1 [[]|failure]] eqn:Etry;
    [reflexivity|].
  by rewrite (captureErrorTry_raises _ _ _ _ _ _ Hcode Etry).
Qed.

(** One call: the lines it appends, at most two, and what it does to the
    set of fingerprints. *)
Lemma captureError_step error from given st :
  exists new,
    logLines (captureError error from given st).1 = logLines st ++ new
    /\ (length new <= 2)%nat
    /\ (loggedErrors (captureError error from given st).1 = loggedErrors st
        \/ exists key,
             fingerprintOf (error, from, given) = Some key
             /\ (key ∉ loggedErrors st)
             /\ loggedErrors (captureError error from given st).1
                = manageCacheSize key (loggedErrors st)).
Proof.
  destruct (fingerprintOf (error, from, given)) as [key|] eqn:Ef.
  - destruct (decide (key ∈ loggedErrors st)) as [Hin|Hout].
    + rewrite (captureError_duplicate _ _ _ _ _ Ef Hin). exists [].
      cbn [fst]. rewrite app_nil_r. split; [reflexivity|]. split; [cbn; lia|by left].
    + destruct (captureError_new _ _ _ _ _ Ef Hout) as (details & rest & _ & _ & Hlen & ->).
      eexists. cbn [logLines loggedErrors]. split; [reflexivity|].
      split; [cbn [length]; lia|]. right. by exists key.
  - unfold fingerprintOf in Ef. unfold captureError, captureErrorTry.
    destruct (shouldSkipErrorLogging error given).
    + destruct (isAxiosError error) as [ax|].
      * destruct (truthyStatus ax) as [n|].
        -- eexists [_]. cbn [fst logLines loggedErrors loggerInfo].
           split; [reflexivity|]. split; [cbn; lia|by left].
        -- exists []. cbn [fst]. rewrite app_nil_r.
           split; [reflexivity|]. split; [cbn; lia|by left].
      * exists []. cbn [fst]. rewrite app_nil_r.
        split; [reflexivity|]. split; [cbn; lia|by left].
    + destruct (createErrorDetails error from given) as [details|failure] eqn:Ed;
        [discriminate|].
      destruct (captureErrorCatch_state failure from st) as (rest & Hlen & ->).
      exists rest. cbn [logLines loggedErrors].
      split; [reflexivity|]. split; [lia|by left].
Qed.

Lemma manageCacheSize_invariant key cache :
  NoDup cache -> (length cache <= MAX_CACHE_SIZE)%nat -> key ∉ cache ->
  NoDup (manageCacheSize key cache)
  /\ (length (manageCacheSize key cache) <= MAX_CACHE_SIZE)%nat.
Proof.
  intros Hnodup Hlen Hout.
  destruct (decide (length cache = MAX_CACHE_SIZE)) as [Hfull|Hroom].
  - destruct cache as [|oldest rest]; [discriminate|].
    rewrite (manageCacheSize_full key oldest rest Hout Hnodup Hfull).
    apply NoDup_cons in Hnodup as [_ Hrest]. split.
    + apply NoDup_app. split; [exact Hrest|]. split; [|apply NoDup_singleton].
      intros k Hk Hk'. apply list_elem_of_singleton in Hk' as ->.
      apply Hout. by right.
    + rewrite length_app. cbn [length] in *. lia.
  - rewrite (manageCacheSize_room key cache Hout) by lia. split.
    + apply NoDup_app. split; [exact Hnodup|]. split; [|apply NoDup_singleton].
      intros k Hk Hk'. by apply list_elem_of_singleton in Hk' as ->.
    + rewrite length_app. cbn [length]. lia.
Qed.

(** Property X12.
    The set of fingerprints stays a set of at most 1000 entries: no
    sequence of calls of [captureError], whatever the errors, makes it
    hold a fingerprint twice or grow past [MAX_CACHE_SIZE]. *)
Theorem cache_stays_bounded calls st :
  NoDup (loggedErrors st) -> (length (loggedErrors st) <= MAX_CACHE_SIZE)%nat ->
  NoDup (loggedErrors (captureAll calls st))
  /\ (length (loggedErrors (captureAll calls st)) <= MAX_CACHE_SIZE)%nat.
Proof.
  revert st. induction calls as [|[[error from] given] calls IH]; intros st Hnodup Hlen.
  - by split.
  - change (captureAll ((error, from, given) :: calls) st)
      with (captureAll calls (captureError error from given st).1).
    destruct (captureError_step error from given st)
      as (new & _ & _ & [Hsame|(key & _ & Hout & Hadd)]).
    + apply IH; by rewrite Hsame.
    + destruct (manageCacheSize_invariant key _ Hnodup Hlen Hout).
      apply IH; by rewrite Hadd.
Qed.

(** Property X13.
    The log only grows: a run of calls leaves every line written before
    it in place, and appends at most two lines for each call. *)
Theorem log_only_grows calls st :
  exists new,
    logLines (captureAll calls st) = logLines st ++ new
    /\ (length new <= 2 * length calls)%nat.
Proof.
  revert st. induction calls as [|[[error from] given] calls IH]; intros st.
  - exists []. by rewrite app_nil_r.
  - change (captureAll ((error, from, given) :: calls) st)
      with (captureAll calls (captureError error from given st).1).
    destruct (captureError_step error from given st) as (new1 & Hnew1 & Hlen1 & _).
    destruct (IH (captureError error from given st).1) as (new2 & -> & Hlen2).
    exists (new1 ++ new2). rewrite Hnew1, <- app_assoc. split; [reflexivity|].
    rewrite length_app. cbn [length]. lia.
Qed.

(** Property X14.
    After [resetCache] every call whose record can be built logs it
    again, whether or not its fingerprint was in the set before; the set
    then holds this fingerprint alone, and the log kept its lines. *)
Theorem resetCache_logs_again error from given st key :
  fingerprintOf (error, from, given) = Some key ->
  exists details rest,
    createErrorDetails error from given = Ok details
    /\ (captureError error from given (resetCache st)).1
       = {| loggedErrors := [key];
            logLines :=
              logLines st
              ++ ErrorLine (sanitizeObject (detailsToValue details)) :: rest |}.
Proof.
  intros Hkey.
  destruct (captureError_new error from given (resetCache st) key Hkey)
    as (details & rest & Hdetails & _ & _ & Hrun).
  { cbn [resetCache loggedErrors]. apply not_elem_of_nil. }
  exists details, rest. split; [exact Hdetails|]. rewrite Hrun.
  cbn [resetCache loggedErrors logLines]. reflexivity.
Qed.

(** Property X15.
    An axios error that is an instance of [Error] and whose request URL
    cannot be parsed is logged in two lines: its record, built from the
    message of the error, and then the fallback record of the handler,
    since collecting the extra details raises.  The fingerprint is in the
    set by then. *)
Theorem captureError_unparsable_url o ax c u from given st :
  instanceOfError o = true -> matcherResult o = None ->
  axiosError o = Some ax -> config ax = Some c -> configUrl c = Some u ->
  nonEmpty u = true -> urlPathname u = None ->
  shouldSkipErrorLogging (ThrownObject o) given = false ->
  exists details,
    createErrorDetails (ThrownObject o) from given = Ok details
    /\ message details = cleanMessage (errorMessage o)
    /\ (createCacheKey details ∉ loggedErrors st ->
        captureError (ThrownObject o) from given st
        = ({| loggedErrors := manageCacheSize (createCacheKey details) (loggedErrors st);
              logLines :=
                logLines st
                ++ [ErrorLine (sanitizeObject (detailsToValue details));
                    ErrorLine (fallbackRecord from "Invalid URL")] |},
           Ok tt)).
Proof.
  intros Hinst Hmatcher Hax Hconfig Hurl Hne Hpath Hskip.
  assert (extractExtraDetails (ThrownObject o) = Throw invalidUrlError) as Hextra.
  { unfold extractExtraDetails, hasMatcherResult. rewrite Hmatcher, Hax.
    rewrite andb_false_r. unfold extractAxiosDetails.
    by rewrite Hconfig, Hurl, Hne, Hpath. }
  destruct (createErrorDetails (ThrownObject o) from given) as [details|failure] eqn:Ed.
  - exists details. split; [reflexivity|]. split.
    + destruct (createErrorDetails_inv _ _ _ _ Ed) as (label & text & _ & Hmsg & _ & ->).
      unfold getErrorMessage in Hmsg. rewrite Hinst in Hmsg. injection Hmsg as <-.
      by destruct (addHttpDetails_fields (ThrownObject o)
                     {| source := from; context := label;
                        message := cleanMessage (errorMessage o);
                        category := categorizeError (ThrownObject o);
                        statusCode := None; url := None |})
        as (_ & _ & -> & _).
    + intros Hnew. unfold captureError, captureErrorTry.
      rewrite Hskip, Ed, bool_decide_eq_false_2 by done. rewrite Hextra.
      change (captureErrorCatch invalidUrlError from ?s)
        with (loggerError (fallbackRecord from "Invalid URL") s, @Ok unit tt).
      unfold loggerError. cbn [loggedErrors logLines]. by rewrite <- app_assoc.
  - exfalso. rewrite createErrorDetails_ordinary in Ed by reflexivity.
    unfold getErrorMessage in Ed. rewrite Hinst in Ed. discriminate.
Qed.

End HandlerInvariants.

Lemma cache_stays_bounded_witness :
  let st :=
    captureAll (platform := samplePlatform)
      [numberedCall 0; numberedCall 0; numberedCall 1] emptyState in
  NoDup (loggedErrors st) /\ (length (loggedErrors st) <= MAX_CACHE_SIZE)%nat.
Proof.
  apply (cache_stays_bounded (platform := samplePlatform)).
  - apply NoDup_nil_2.
  - cbn. lia.
Defined.

Lemma resetCache_logs_again_witness :
  exists details rest,
    createErrorDetails (platform := samplePlatform)
      (ThrownValue (VString "worker stopped")) "1" None = Ok details
    /\ (captureError (platform := samplePlatform)
          (ThrownValue (VString "worker stopped")) "1" None
          (resetCache {| loggedErrors := [numberedKey 1]; logLines := [] |})).1
       = {| loggedErrors := [numberedKey 1];
            logLines :=
              ErrorLine (sanitizeObject (platform := samplePlatform)
                           (detailsToValue details)) :: rest |}.
Proof.
  apply (resetCache_logs_again (platform := samplePlatform)
           (ThrownValue (VString "worker stopped")) "1" None
           {| loggedErrors := [numberedKey 1]; logLines := [] |} (numberedKey 1)).
  reflexivity.
Defined.

Lemma captureError_unparsable_url_witness :
  length (logLines (captureError (platform := samplePlatform)
                      (ThrownObject unparsableUrlInstance) "apiClient" None
                      emptyState).1)
  = 2%nat.
Proof.
  destruct (captureError_unparsable_url (platform := samplePlatform)
              unparsableUrlInstance _ _ _ "apiClient" None emptyState
              eq_refl eq_refl eq_refl eq_refl eq_refl eq_refl eq_refl eq_refl)
    as (details & _ & _ & Hrun).
  rewrite Hrun; [reflexivity|]. apply not_elem_of_nil.
Defined.

(** ** The other entry points of the handler *)

Section EntryPointProperties.
Context `{platform : Platform}.

Lemma createErrorDetails_given error from c details :
  createErrorDetails error from (Some c) = Ok details -> nonEmpty c = true ->
  context details = c.
Proof.
  intros Hdetails Hc.
  destruct (createErrorDetails_inv _ _ _ _ Hdetails) as (label & text & Hlabel & _ & _ & ->).
  rewrite Hc in Hlabel. injection Hlabel as <-.
  by destruct (addHttpDetails_fields error
                 {| source := from; context := c; message := text;
                    category := categorizeError error;
                    statusCode := None; url := None |})
    as (_ & -> & _ & _).
Qed.

(** [captureError] raises only from its [catch] block. *)
Lemma captureError_raises_inv error from given st raised :
  (captureError error from given st).2 = Throw raised ->
  exists st' failure,
    captureErrorTry error from given st = (st', Throw failure)
    /\ getErrorMessage failure = Throw raised.
Proof.
  unfold captureError.
  destruct (captureErrorTry error from given st) as [st1 [[]|failure]];
    [discriminate|].
  unfold captureErrorCatch.
  destruct (getErrorMessage failure) as [m|e] eqn:Em; cbn [snd]; [discriminate|].
  intros [= <-]. by exists st1, failure.
Qed.

Lemma nonFatalContext_nonEmpty given : nonEmpty (nonFatalContext given) = true.
Proof.
  unfold nonFatalContext. destruct given as [[|a c]|]; reflexivity.
Qed.

(** Property X16.
    [logAndContinue] hands the error to [captureError] with a context
    that is never empty: the caller's with the suffix [(non-fatal)], or
    [Non-fatal error] when the caller gave none or an empty one.  So the
    record it logs never carries a label derived from the error.  It
    returns normally for every error that brings no code of its own;
    it raises only as [captureError] does, when the [try] block fails
    with a failure whose message cannot be built. *)
Theorem logAndContinue_context error from given st :
  (userCode error = None -> (logAndContinue error from given st).2 = Ok tt)
  /\ (forall raised,
        (logAndContinue error from given st).2 = Throw raised ->
        exists st' failure,
          captureErrorTry error from (Some (nonFatalContext given)) st
          = (st', Throw failure)
          /\ getErrorMessage failure = Throw raised)
  /\ forall key,
       fingerprintOf (error, from, Some (nonFatalContext given)) = Some key ->
       key ∉ loggedErrors st ->
       exists details rest,
         context details = nonFatalContext given
         /\ (nonFatalContext given = "Non-fatal error"
             \/ exists c, given = Some c /\ nonFatalContext given = c +:+ " (non-fatal)")
         /\ logLines (logAndContinue error from given st).1
            = logLines st ++ ErrorLine (sanitizeObject (detailsToValue details)) :: rest.
Proof.
  unfold logAndContinue. split; [apply captureError_returns|].
  split; [intros raised; apply captureError_raises_inv|].
  intros key Hkey Hnew.
  destruct (captureError_new _ _ _ _ _ Hkey Hnew) as (details & rest & Hd & _ & _ & ->).
  exists details, rest. split; [|split; [|reflexivity]].
  - apply (createErrorDetails_given _ _ _ _ Hd), nonFatalContext_nonEmpty.
  - unfold nonFatalContext. destruct given as [[|a c]|]; [by left| |by left].
    right. by eexists.
Qed.

Lemma logAndThrow_run {A : Type} message from st :
  logAndThrow (A := A) message from st
  = ((captureError (newError message) from None st).1, Throw (newError message)).
Proof.
  unfold logAndThrow, andThen, raise.
  pose proof (captureError_returns (newError message) from None st eq_refl) as Hok.
  destruct (captureError (newError message) from None st) as [st' r].
  cbn [fst snd] in *. by rewrite Hok.
Qed.

Lemma throwCaptured_run {A : Type} error from given st :
  userCode error = None ->
  throwCaptured (A := A) error from given st
  = ((captureError error from (Some given) st).1, Throw (ThrownValue VUndefined)).
Proof.
  intros Hcode. unfold throwCaptured, andThen, raise.
  pose proof (captureError_returns error from (Some given) st Hcode) as Hok.
  destruct (captureError error from (Some given) st) as [st' r].
  cbn [fst snd] in *. by rewrite Hok.
Qed.

(** Property X17.
    [logAndThrow] always raises a new [Error] holding the message as
    given.  Before that it logs one line, the record of the error with
    the message cleaned, unless the fingerprint of that record is in the
    set already, in which case it logs nothing. *)
Theorem logAndThrow_logs_once {A : Type} message from st :
  let key := createCacheKey (errorRecord message from) in
  (logAndThrow (A := A) message from st).2 = Throw (newError message)
  /\ (key ∈ loggedErrors st -> (logAndThrow (A := A) message from st).1 = st)
  /\ (key ∉ loggedErrors st ->
      (logAndThrow (A := A) message from st).1
      = {| loggedErrors := manageCacheSize key (loggedErrors st);
           logLines :=
             logLines st
             ++ [ErrorLine (sanitizeObject (detailsToValue (errorRecord message from)))] |}).
Proof.
  intros key. rewrite logAndThrow_run. cbn [fst snd].
  split; [reflexivity|].
  unfold captureError, captureErrorTry.
  change (shouldSkipErrorLogging (newError message) None) with false.
  change (createErrorDetails (newError message) from None)
    with (Ok (errorRecord message from)).
  cbn match. fold key. split; intros Hkey.
  - by rewrite bool_decide_eq_true_2.
  - rewrite bool_decide_eq_false_2 by done.
    change (extractExtraDetails (newError message)) with (Ok (VObject [])).
    reflexivity.
Qed.

End EntryPointProperties.

Lemma logAndContinue_context_witness :
  exists details rest,
    context details = "cleanup (non-fatal)"
    /\ ("cleanup (non-fatal)" = "Non-fatal error"
        \/ exists c, Some "cleanup" = Some c /\ "cleanup (non-fatal)" = c +:+ " (non-fatal)")
    /\ logLines (logAndContinue (platform := samplePlatform)
                   (ThrownValue (VString "worker stopped")) "1" (Some "cleanup")
                   emptyState).1
       = [] ++ ErrorLine (sanitizeObject (platform := samplePlatform)
                            (detailsToValue details)) :: rest.
Proof.
  apply (proj2 (proj2 (logAndContinue_context (platform := samplePlatform)
                         (ThrownValue (VString "worker stopped")) "1" (Some "cleanup")
                         emptyState))
           "1_UNKNOWN_worker stopped").
  - reflexivity.
  - apply not_elem_of_nil.
Defined.

Lemma logAndThrow_logs_once_witness :
  (logAndThrow (platform := samplePlatform) (A := unit)
     "Invalid arguments: 'dirPath' is required." "validatePath" emptyState).1
  = {| loggedErrors := ["validatePath_UI_Invalid arguments: dirPath is required."];
       logLines :=
         [ErrorLine
            (VObject [("source", VString "validatePath");
                      ("context", VString "General Error");
                      ("message", VString "Invalid arguments: dirPath is required.");
                      ("category", VString "UI")])] |}.
Proof.
  apply (proj2 (proj2 (logAndThrow_logs_once (platform := samplePlatform) (A := unit)
                         "Invalid arguments: 'dirPath' is required." "validatePath"
                         emptyState))).
  apply not_elem_of_nil.
Defined.

(** ** FileManager: the checks on paths *)

Section FileManagerProperties.
Context `{platform : Platform} `{nodePath : NodePath}.

Lemma validatePath_run filePath paramName st :
  validatePath filePath paramName st
  = if nonEmpty filePath then
      if String.eqb paramName "filePath"
         && (endsWith filePath "/" || endsWith filePath "\")
      then logAndThrow
             ("Invalid file path: '" +:+ filePath
              +:+ "' cannot end with a directory separator.")
             "validatePath" st
      else (st, Ok tt)
    else logAndThrow ("Invalid arguments: '" +:+ paramName +:+ "' is required.")
           "validatePath" st.
Proof.
  unfold validatePath, andThen. destruct (nonEmpty filePath).
  - cbn [pureH]. destruct (_ && _); reflexivity.
  - rewrite logAndThrow_run. reflexivity.
Qed.

(** Property X18.
    [validatePath] accepts a path exactly when it is not empty and,
    for the parameter named [filePath] only, does not end with a slash
    or a backslash.  An accepted path leaves the state as it was; a
    refused one raises an [Error], the empty path with the message that
    the parameter is required. *)
Theorem validatePath_accepts filePath paramName st :
  ((validatePath filePath paramName st).2 = Ok tt
   <-> nonEmpty filePath = true
       /\ (paramName = "filePath" ->
           endsWith filePath "/" = false /\ endsWith filePath "\" = false))
  /\ ((validatePath filePath paramName st).2 = Ok tt ->
      (validatePath filePath paramName st).1 = st)
  /\ (nonEmpty filePath = false ->
      (validatePath filePath paramName st).2
      = Throw (newError ("Invalid arguments: '" +:+ paramName +:+ "' is required."))).
Proof.
  rewrite validatePath_run. destruct (nonEmpty filePath).
  - destruct (String.eqb_spec paramName "filePath") as [->|Hother]; cbn [andb].
    + destruct (endsWith filePath "/" || endsWith filePath "\") eqn:Esep.
      * rewrite logAndThrow_run. cbn [fst snd].
        split; [|split; discriminate]. split; [discriminate|].
        intros [_ Hends]. destruct (Hends eq_refl) as [H1 H2].
        rewrite H1, H2 in Esep. discriminate.
      * cbn [fst snd]. apply orb_false_iff in Esep.
        split; [|split; [reflexivity|discriminate]]. by split.
    + cbn [fst snd]. split; [|split; [reflexivity|discriminate]].
      split; [|reflexivity]. intros _. split; [reflexivity|]. by intros ->.
  - rewrite logAndThrow_run. cbn [fst snd].
    split; [|split; [discriminate|reflexivity]].
    split; [discriminate|]. intros [? _]. discriminate.
Qed.

Lemma getDirPath_run dirPath st :
  (nonEmpty dirPath = true ->
   getDirPath dirPath st = (st, Ok (resolveFromCwd dirPath)))
  /\ (nonEmpty dirPath = false ->
      getDirPath dirPath st
      = ((captureError
            (newError "Invalid arguments: 'dirPath' is required.") "getDirPath"
            (Some ("Failed to resolve directory path: " +:+ dirPath))
            (captureError (newError "Invalid arguments: 'dirPath' is required.")
               "validatePath" None st).1).1,
         Throw (ThrownValue VUndefined))).
Proof.
  unfold getDirPath, tryCatch, andThen. rewrite validatePath_run.
  destruct (nonEmpty dirPath).
  - split; [|discriminate]. intros _. reflexivity.
  - split; [discriminate|]. intros _.
    rewrite logAndThrow_run, throwCaptured_run by reflexivity. reflexivity.
Qed.

(** Property X19.
    [getDirPath]: a non-empty path is resolved against the working
    directory, whatever it ends with, and the state is left alone.  The
    empty path raises, and what is raised is not the validation error
    but [undefined], the value [captureError] returns. *)
Theorem getDirPath_outcome dirPath st :
  (nonEmpty dirPath = true ->
   getDirPath dirPath st = (st, Ok (resolveFromCwd dirPath)))
  /\ (nonEmpty dirPath = false ->
      (getDirPath dirPath st).2 = Throw (ThrownValue VUndefined)).
Proof.
  destruct (getDirPath_run dirPath st) as [Hok Hraise].
  split; [exact Hok|]. intros Hempty. by rewrite (Hraise Hempty).
Qed.

(** Property X20.
    [getFilePath]: when directory and file name are both non-empty the
    result is the join of the resolved directory and the file name, and
    the state is left alone; a file name ending with a separator is
    accepted.  When either is empty, [undefined] is raised. *)
Theorem getFilePath_outcome dirPath fileName st :
  (nonEmpty dirPath && nonEmpty fileName = true ->
   getFilePath dirPath fileName st
   = (st, Ok (pathJoin (resolveFromCwd dirPath) fileName)))
  /\ (nonEmpty dirPath && nonEmpty fileName = false ->
      (getFilePath dirPath fileName st).2 = Throw (ThrownValue VUndefined)).
Proof.
  unfold getFilePath, tryCatch, andThen. rewrite !validatePath_run.
  destruct (nonEmpty dirPath) eqn:Edir.
  - cbn [andb String.eqb Ascii.eqb Bool.eqb]. rewrite validatePath_run.
    destruct (nonEmpty fileName).
    + change (String.eqb "fileName" "filePath") with false. cbn [andb].
      rewrite (proj1 (getDirPath_run dirPath st) Edir).
      split; [|discriminate]. reflexivity.
    + split; [discriminate|]. intros _.
      rewrite logAndThrow_run, throwCaptured_run by reflexivity. reflexivity.
  - split; [discriminate|]. intros _.
    rewrite logAndThrow_run, throwCaptured_run by reflexivity. reflexivity.
Qed.

End FileManagerProperties.

Lemma validatePath_accepts_witness :
  (validatePath (platform := samplePlatform) "logs/" "dirPath" emptyState).2 = Ok tt
  /\ (validatePath (platform := samplePlatform) "logs/" "dirPath" emptyState).1
     = emptyState
  /\ (validatePath (platform := samplePlatform) EmptyString "filePath" emptyState).2
     = Throw (newError "Invalid arguments: 'filePath' is required.").
Proof.
  destruct (validatePath_accepts (platform := samplePlatform) "logs/" "dirPath" emptyState)
    as ([_ Haccept] & Hstate & _).
  destruct (validatePath_accepts (platform := samplePlatform) EmptyString "filePath"
              emptyState) as (_ & _ & Hrefuse).
  assert ((validatePath (platform := samplePlatform) "logs/" "dirPath" emptyState).2
          = Ok tt) as Hok.
  { apply Haccept. split; [reflexivity|discriminate]. }
  split; [exact Hok|]. split; [exact (Hstate Hok)|].
  apply Hrefuse. reflexivity.
Defined.

Lemma getDirPath_outcome_witness :
  getDirPath (platform := samplePlatform) (nodePath := sampleNodePath)
    "test-results" emptyState
  = (emptyState, Ok "/work/test-results")
  /\ (getDirPath (platform := samplePlatform) (nodePath := sampleNodePath)
        EmptyString emptyState).2
     = Throw (ThrownValue VUndefined).
Proof.
  split.
  - apply (proj1 (getDirPath_outcome (platform := samplePlatform)
                    (nodePath := sampleNodePath) "test-results" emptyState)).
    reflexivity.
  - apply (proj2 (getDirPath_outcome (platform := samplePlatform)
                    (nodePath := sampleNodePath) EmptyString emptyState)).
    reflexivity.
Defined.

Lemma getFilePath_outcome_witness :
  getFilePath (platform := samplePlatform) (nodePath := sampleNodePath)
    "test-results" "report.json/" emptyState
  = (emptyState, Ok "/work/test-results/report.json/")
  /\ (getFilePath (platform := samplePlatform) (nodePath := sampleNodePath)
        "test-results" EmptyString emptyState).2
     = Throw (ThrownValue VUndefined).
Proof.
  split.
  - apply (proj1 (getFilePath_outcome (platform := samplePlatform)
                    (nodePath := sampleNodePath) "test-results" "report.json/"
                    emptyState)).
    reflexivity.
  - apply (proj2 (getFilePath_outcome (platform := samplePlatform)
                    (nodePath := sampleNodePath) "test-results" EmptyString
                    emptyState)).
    reflexivity.
Defined.

(** ** Environment settings *)

Section EnvironmentProperties.
Context `{platform : Platform}.

Lemma validateEnvironmentVariable_run value variableName :
  validateEnvironmentVariable value variableName
  = match value with
    | Some v =>
        if String.eqb (trim v) EmptyString
        then Throw (newError ("Environment variable " +:+ variableName
                              +:+ " is not set or is empty"))
        else Ok tt
    | None =>
        Throw (newError ("Environment variable " +:+ variableName
                         +:+ " is not set or is empty"))
    end.
Proof.
  destruct value as [[|c v]|]; reflexivity.
Qed.

Lemma getEnvironmentVariable_run value variableName methodName errorMessage sanitize st :
  getEnvironmentVariable value variableName methodName errorMessage sanitize st
  = match validateEnvironmentVariable value variableName with
    | Ok _ =>
        (st, Ok (match value with
                 | Some v => if sanitize then sanitizeString v else v
                 | None => EmptyString
                 end))
    | Throw e => ((captureError e methodName (Some errorMessage) st).1, Throw e)
    end.
Proof.
  unfold getEnvironmentVariable, tryCatch, andThen, liftResult, pureH, raise.
  destruct (validateEnvironmentVariable value variableName) as [[]|e] eqn:Evalid;
    [reflexivity|].
  assert (userCode e = None) as Hcode.
  { rewrite validateEnvironmentVariable_run in Evalid.
    destruct value as [v|]; [destruct (String.eqb _ _)|];
      try discriminate; by injection Evalid as <-. }
  pose proof (captureError_returns e methodName (Some errorMessage) st Hcode) as Hok.
  destruct (captureError e methodName (Some errorMessage) st) as [st' r].
  cbn [fst snd] in *. by rewrite Hok.
Qed.

(** What [getEnvironmentVariable] raises brings no code. *)
Lemma getEnvironmentVariable_raises value variableName methodName errorMessage
    sanitize st st' e :
  getEnvironmentVariable value variableName methodName errorMessage sanitize st
  = (st', Throw e) ->
  userCode e = None.
Proof.
  rewrite getEnvironmentVariable_run, validateEnvironmentVariable_run.
  destruct value as [v|]; [destruct (String.eqb _ _)|];
    try discriminate; by intros [= _ <-].
Qed.

Lemma getEnvironmentValue_run {A : Type} env (ciMethod localMethod : handled A)
    methodName errorMessage st :
  (forall st' e,
      (if isRunningInCIEnvironment env then ciMethod else localMethod) st
      = (st', Throw e) ->
      userCode e = None) ->
  getEnvironmentValue env ciMethod localMethod methodName errorMessage st
  = match (if isRunningInCIEnvironment env then ciMethod else localMethod) st with
    | (st', Ok a) => (st', Ok a)
    | (st', Throw e) => ((captureError e methodName (Some errorMessage) st').1, Throw e)
    end.
Proof.
  intros Hordinary. unfold getEnvironmentValue, tryCatch, andThen, raise.
  destruct ((if isRunningInCIEnvironment env then ciMethod else localMethod) st)
    as [st' [a|e]]; [reflexivity|].
  pose proof (captureError_returns e methodName (Some errorMessage) st'
                (Hordinary st' e eq_refl)) as Hok.
  destruct (captureError e methodName (Some errorMessage) st') as [st'' r].
  cbn [fst snd] in *. by rewrite Hok.
Qed.

(** Property X21.
    [getPortalBaseUrl]: in CI the value of [CI_PORTAL_BASE_URL] is
    returned sanitized; outside CI the value of [PORTAL_URL] is returned
    as it is.  A value that is missing, empty or blank raises the error
    naming the variable.  In each case of success the state is left
    alone. *)
Theorem getPortalBaseUrl_outcome env st :
  (isRunningInCIEnvironment env = true ->
   (trim (envOrEmpty env "CI_PORTAL_BASE_URL") <> EmptyString ->
    getPortalBaseUrl env st
    = (st, Ok (sanitizeString (envOrEmpty env "CI_PORTAL_BASE_URL"))))
   /\ (trim (envOrEmpty env "CI_PORTAL_BASE_URL") = EmptyString ->
       (getPortalBaseUrl env st).2
       = Throw (newError
                  "Environment variable CI_PORTAL_BASE_URL is not set or is empty")))
  /\ (isRunningInCIEnvironment env = false ->
      (forall v, env "PORTAL_URL" = Some v -> trim v <> EmptyString ->
                 getPortalBaseUrl env st = (st, Ok v))
      /\ ((forall v, env "PORTAL_URL" = Some v -> trim v = EmptyString) ->
          (getPortalBaseUrl env st).2
          = Throw (newError "Environment variable PORTAL_URL is not set or is empty"))).
Proof.
  unfold getPortalBaseUrl.
  rewrite getEnvironmentValue_run
    by (intros st' e; destruct (isRunningInCIEnvironment env);
        apply getEnvironmentVariable_raises).
  split; intros ->.
  - unfold getCIPortalBaseUrl. rewrite getEnvironmentVariable_run.
    rewrite validateEnvironmentVariable_run.
    destruct (String.eqb_spec (trim (envOrEmpty env "CI_PORTAL_BASE_URL")) EmptyString)
      as [Hblank|Hset]; split; try done.
  - unfold getLocalPortalBaseUrl. rewrite getEnvironmentVariable_run.
    rewrite validateEnvironmentVariable_run. split.
    + intros v -> Hset. by destruct (String.eqb_spec (trim v) EmptyString).
    + intros Hblank. destruct (env "PORTAL_URL") as [v|]; [|reflexivity].
      by rewrite (Hblank v eq_refl).
Qed.

Lemma manageCacheSize_subset key cache x :
  x ∈ manageCacheSize key cache -> x ∈ cache \/ x = key.
Proof.
  unfold manageCacheSize, setAdd.
  assert (x ∈ (if bool_decide (key ∈ cache) then cache else cache ++ [key]) ->
          x ∈ cache \/ x = key) as Hadd.
  { destruct (bool_decide (key ∈ cache)); [by left|].
    intros Hx. apply elem_of_app in Hx as [Hx|Hx]; [by left|].
    right. by apply list_elem_of_singleton in Hx. }
  destruct (_ <? _)%nat; [|exact Hadd].
  destruct (if bool_decide (key ∈ cache) then cache else cache ++ [key])
    as [|firstItem rest] eqn:E; [exact Hadd|].
  intros Hx. apply Hadd. unfold setDelete in Hx.
  apply list_elem_of_In, List.filter_In in Hx as [Hx _]. by apply list_elem_of_In.
Qed.

Lemma captureError_context_record message from given st :
  nonEmpty given = true ->
  createCacheKey (contextRecord message from given) ∉ loggedErrors st ->
  captureError (newError message) from (Some given) st
  = ({| loggedErrors :=
          manageCacheSize (createCacheKey (contextRecord message from given))
            (loggedErrors st);
        logLines :=
          logLines st
          ++ [ErrorLine (sanitizeObject (detailsToValue (contextRecord message from given)))] |},
     Ok tt).
Proof.
  intros Hgiven Hnew. unfold captureError, captureErrorTry.
  assert (shouldSkipErrorLogging (newError message) (Some given) = false) as ->.
  { unfold shouldSkipErrorLogging. by rewrite Hgiven. }
  assert (createErrorDetails (newError message) from (Some given)
          = Ok (contextRecord message from given)) as ->.
  { unfold createErrorDetails. by rewrite Hgiven. }
  rewrite bool_decide_eq_false_2 by done.
  change (extractExtraDetails (newError message)) with (Ok (VObject [])).
  reflexivity.
Qed.

(** Property X22.
    A missing portal URL is logged twice in CI: once by the settings
    resolver and once more by the resolver that called it.  The two
    records differ in source and context only, so their fingerprints
    differ and the check for duplicates lets both through. *)
Theorem missing_portal_url_logged_twice env st :
  let message := "Environment variable CI_PORTAL_BASE_URL is not set or is empty" in
  let inner :=
    contextRecord message "retrievePortalBaseUrl" "Failed to retrieve portal base URL" in
  let outer :=
    contextRecord message "fetchPortalBaseUrl" "Failed to fetch portal base URL" in
  isRunningInCIEnvironment env = true ->
  trim (envOrEmpty env "CI_PORTAL_BASE_URL") = EmptyString ->
  createCacheKey inner ∉ loggedErrors st ->
  createCacheKey outer ∉ loggedErrors st ->
  logLines (getPortalBaseUrl env st).1
  = logLines st
    ++ [ErrorLine (sanitizeObject (detailsToValue inner));
        ErrorLine (sanitizeObject (detailsToValue outer))].
Proof.
  intros message inner outer Hci Hblank Hinner Houter.
  unfold getPortalBaseUrl.
  rewrite getEnvironmentValue_run
    by (intros st' e; destruct (isRunningInCIEnvironment env);
        apply getEnvironmentVariable_raises).
  rewrite Hci.
  unfold getCIPortalBaseUrl. rewrite getEnvironmentVariable_run.
  rewrite validateEnvironmentVariable_run, Hblank. cbn [String.eqb].
  change ("Environment variable " +:+ "CI_PORTAL_BASE_URL" +:+ " is not set or is empty")
    with message.
  rewrite (captureError_context_record message "retrievePortalBaseUrl"
             "Failed to retrieve portal base URL" st eq_refl Hinner).
  cbn [fst]. rewrite captureError_context_record; [|reflexivity|].
  - cbn [fst logLines]. by rewrite <- app_assoc.
  - cbn [loggedErrors]. intros Hin.
    apply manageCacheSize_subset in Hin as [Hin|Heq]; [by apply Houter|].
    discriminate.
Qed.

(** Property X23.
    [getCICredentials]: user name and password are returned sanitized,
    so neither holds a quote, a backslash or an angle bracket, whatever
    the variables hold; when either is empty after sanitizing, the error
    for missing credentials is raised. *)
Theorem getCICredentials_outcome env st :
  let credentials :=
    {| username := sanitizeString (envOrEmpty env "CI_PORTAL_USERNAME");
       password := sanitizeString (envOrEmpty env "CI_PORTAL_PASSWORD") |} in
  (nonEmpty (username credentials) && nonEmpty (password credentials) = true ->
   getCICredentials env st = (st, Ok credentials))
  /\ (nonEmpty (username credentials) && nonEmpty (password credentials) = false ->
      (getCICredentials env st).2
      = Throw (newError "Invalid credentials: Missing username or password."))
  /\ (forall result c,
        (getCICredentials env st).2 = Ok result -> isDangerousChar c = true ->
        containsChar c (username result) = false
        /\ containsChar c (password result) = false).
Proof.
  intros credentials.
  assert (getCICredentials env st
          = if nonEmpty (username credentials) && nonEmpty (password credentials)
            then (st, Ok credentials)
            else ((captureError
                     (newError "Invalid credentials: Missing username or password.")
                     "retrieveCiEnvironmentVariables"
                     (Some "Failed to retrieve CI credentials")
                     (captureError
                        (newError "Invalid credentials: Missing username or password.")
                        "EnvironmentVariablesManager" None st).1).1,
                  Throw (newError "Invalid credentials: Missing username or password.")))
    as Hrun.
  { unfold getCICredentials, tryCatch, andThen, verifyCredentials. fold credentials.
    rewrite <- negb_andb.
    destruct (nonEmpty (username credentials) && nonEmpty (password credentials));
      cbn [negb]; [reflexivity|].
    rewrite logAndThrow_run. unfold raise.
    match goal with
    | |- context [captureError ?e ?s ?c ?t] =>
        pose proof (captureError_returns e s c t) as Hok;
        destruct (captureError e s c t) as [st' r]
    end.
    cbn [fst snd] in *. by rewrite Hok. }
  rewrite Hrun.
  destruct (nonEmpty (username credentials) && nonEmpty (password credentials)).
  - split; [reflexivity|]. split; [discriminate|].
    intros result c [= <-] Hc. cbn [username password credentials].
    split; by apply sanitizeString_no_dangerous.
  - split; [discriminate|]. split; [reflexivity|]. intros result c [=].
Qed.

End EnvironmentProperties.

(** Property X24.
    The two tests for a CI run disagree: [getAuthStoragePath] looks at
    [CI] alone, [isRunningInCIEnvironment] at seven variables.  When the
    storage path is the one of CI the detector agrees, but not the other
    way round: with one of the six other variables set and [CI] not, the
    settings are those of CI and the storage path the local one. *)
Theorem ci_tests_disagree env :
  (getAuthStoragePath env = ".auth/ci-login.json" ->
   isRunningInCIEnvironment env = true)
  /\ (forall name v,
        In name ["GITHUB_ACTIONS"; "GITLAB_CI"; "TRAVIS"; "CIRCLECI"; "JENKINS_URL";
                 "BITBUCKET_BUILD_NUMBER"] ->
        env name = Some v -> nonEmpty v = true ->
        env "CI" = None \/ env "CI" = Some EmptyString ->
        isRunningInCIEnvironment env = true
        /\ getAuthStoragePath env = ".auth/local-login.json").
Proof.
  split.
  - unfold getAuthStoragePath, isRunningInCIEnvironment. cbn [existsb].
    destruct (env "CI") as [v|]; [|discriminate].
    destruct (nonEmpty v); [reflexivity|discriminate].
  - intros name v Hname Hset Hv Hci. split.
    + unfold isRunningInCIEnvironment. apply existsb_exists. exists name.
      split; [by right|]. by rewrite Hset.
    + unfold getAuthStoragePath. by destruct Hci as [->| ->].
Qed.

Lemma getPortalBaseUrl_outcome_witness :
  getPortalBaseUrl (platform := samplePlatform) ciEnvironment emptyState
  = (emptyState, Ok "https://portal.example/uat")
  /\ getPortalBaseUrl (platform := samplePlatform) localEnvironment emptyState
     = (emptyState, Ok " https://portal.example/<uat> ")
  /\ (getPortalBaseUrl (platform := samplePlatform) bareCiEnvironment emptyState).2
     = Throw (newError "Environment variable CI_PORTAL_BASE_URL is not set or is empty")
  /\ (getPortalBaseUrl (platform := samplePlatform) jenkinsEnvironment emptyState).2
     = Throw (newError "Environment variable CI_PORTAL_BASE_URL is not set or is empty").
Proof.
  split; [|split; [|split]].
  - apply (proj1 (getPortalBaseUrl_outcome (platform := samplePlatform)
                    ciEnvironment emptyState)); [reflexivity|discriminate].
  - apply (proj1 (proj2 (getPortalBaseUrl_outcome (platform := samplePlatform)
                           localEnvironment emptyState) eq_refl)
             " https://portal.example/<uat> "); [reflexivity|discriminate].
  - apply (proj1 (getPortalBaseUrl_outcome (platform := samplePlatform)
                    bareCiEnvironment emptyState)); reflexivity.
  - apply (proj1 (getPortalBaseUrl_outcome (platform := samplePlatform)
                    jenkinsEnvironment emptyState)); reflexivity.
Defined.

Lemma missing_portal_url_logged_twice_witness :
  logLines (getPortalBaseUrl (platform := samplePlatform) bareCiEnvironment emptyState).1
  = [ErrorLine
       (VObject [("source", VString "retrievePortalBaseUrl");
                 ("context", VString "Failed to retrieve portal base URL");
                 ("message",
                  VString "Environment variable CI_PORTAL_BASE_URL is not set or is empty");
                 ("category", VString "ENVIRONMENT")]);
     ErrorLine
       (VObject [("source", VString "fetchPortalBaseUrl");
                 ("context", VString "Failed to fetch portal base URL");
                 ("message",
                  VString "Environment variable CI_PORTAL_BASE_URL is not set or is empty");
                 ("category", VString "ENVIRONMENT")])].
Proof.
  apply (missing_portal_url_logged_twice (platform := samplePlatform)
           bareCiEnvironment emptyState).
  - reflexivity.
  - reflexivity.
  - apply not_elem_of_nil.
  - apply not_elem_of_nil.
Defined.

Lemma getCICredentials_outcome_witness :
  getCICredentials (platform := samplePlatform) ciEnvironment emptyState
  = (emptyState, Ok {| username := "robot"; password := "psswrd" |})
  /\ (getCICredentials (platform := samplePlatform) bareCiEnvironment emptyState).2
     = Throw (newError "Invalid credentials: Missing username or password.").
Proof.
  split.
  - apply (proj1 (getCICredentials_outcome (platform := samplePlatform)
                    ciEnvironment emptyState)).
    reflexivity.
  - apply (proj1 (proj2 (getCICredentials_outcome (platform := samplePlatform)
                           bareCiEnvironment emptyState))).
    reflexivity.
Defined.

Lemma ci_tests_disagree_witness :
  isRunningInCIEnvironment ciEnvironment = true
  /\ isRunningInCIEnvironment jenkinsEnvironment = true
  /\ getAuthStoragePath jenkinsEnvironment = ".auth/local-login.json".
Proof.
  split.
  - apply (proj1 (ci_tests_disagree ciEnvironment)). reflexivity.
  - apply (proj2 (ci_tests_disagree jenkinsEnvironment)
             "JENKINS_URL" "https://jenkins.example/").
    + cbn [In]. tauto.
    + reflexivity.
    + reflexivity.
    + by left.
Defined.

(** ** The sanitizer on a structure that contains itself *)

Lemma readProp_assignProp_other key key' v props :
  key <> key' -> readProp key (assignProp key' v props) = readProp key props.
Proof.
  intros Hne. induction props as [|[k old] rest IH].
  - cbn [assignProp readProp]. destruct (String.eqb_spec key' key); congruence.
  - cbn [assignProp]. destruct (String.eqb_spec k key') as [->|Hk].
    + cbn [readProp]. destruct (String.eqb_spec key' key); congruence.
    + cbn [readProp]. by rewrite IH.
Qed.

Lemma getProp_setProp_other copy key key' v (h : heap) :
  key <> key' -> getProp copy key (setProp copy key' v h) = getProp copy key h.
Proof.
  intros Hne. unfold getProp, setProp, objectProps.
  destruct (h !! copy) as [[items|props]|] eqn:E; try by rewrite E.
  rewrite lookup_insert_eq. by apply readProp_assignProp_other.
Qed.

Lemma readProp_filter key (f : string * ref_value -> bool) props :
  (forall v, f (key, v) = true) ->
  readProp key (List.filter f props) = readProp key props.
Proof.
  intros Hkeep. induction props as [|[k v] rest IH]; [reflexivity|].
  cbn [List.filter readProp].
  destruct (String.eqb_spec k key) as [->|Hk].
  - rewrite Hkeep. cbn [readProp]. by rewrite String.eqb_refl.
  - destruct (f (k, v)); [|exact IH]. cbn [readProp].
    destruct (String.eqb_spec k key); [congruence|exact IH].
Qed.

Lemma readProp_key key props l : readProp key props = RRef l -> key ∈ props.*1.
Proof.
  induction props as [|[k v] rest IH]; [discriminate|].
  cbn [readProp]. rewrite fmap_cons. cbn [fst].
  destruct (String.eqb_spec k key) as [->|Hk]; [intros _; by left|].
  intros Hrest. right. by apply IH.
Qed.

Lemma getProp_subseteq copy key (h h' : heap) l :
  h ⊆ h' -> getProp copy key h = RRef l -> getProp copy key h' = RRef l.
Proof.
  unfold getProp, objectProps. intros Hsub.
  destruct (h !! copy) as [o|] eqn:E; [|discriminate].
  by rewrite (lookup_weaken _ _ _ _ E Hsub).
Qed.

Section store_cycle.
Variable recur : ref_value -> heap -> heap * option ref_value.
Variable h0 : heap.
Variable l : loc.
Hypothesis Hframe : forall v (h : heap), h ⊆ (recur v h).1.
Hypothesis Hcycle : forall h : heap, h0 ⊆ h -> (recur (RRef l) h).2 = None.

Lemma forEachLoop_cycle config copy key :
  isSensitiveKey config key = false ->
  forall keys (h : heap),
    key ∈ keys -> h0 ⊆ h -> h0 !! copy = None ->
    getProp copy key h = RRef l ->
    (forEachLoop recur config copy keys h).2 = None.
Proof.
  intros Hplain keys. induction keys as [|key' keys IH]; intros h Hin Hsub Hcopy Hprop.
  - by apply elem_of_nil in Hin.
  - cbn [forEachLoop]. destruct (decide (key' = key)) as [->|Hne].
    + rewrite Hplain, Hprop. pose proof (Hcycle h Hsub) as Hnone.
      destruct (recur (RRef l) h) as [h' r]. cbn [snd] in Hnone. by rewrite Hnone.
    + apply elem_of_cons in Hin as [Heq|Hin]; [congruence|].
      assert (forall v, (forEachLoop recur config copy keys (setProp copy key' v h)).2
                        = None) as Hset.
      { intros v. apply IH; [exact Hin|by apply setProp_frame|exact Hcopy|].
        rewrite getProp_setProp_other by congruence. exact Hprop. }
      destruct (isSensitiveKey config key'); [apply Hset|].
      destruct (getProp copy key' h) as [| | | |s|l'] eqn:Eprop;
        try (by apply IH); [apply Hset|].
      pose proof (Hframe (RRef l') h) as Hgrow.
      destruct (recur (RRef l') h) as [h' [sanitized|]]; [|reflexivity].
      cbn [fst] in Hgrow. apply IH; [exact Hin| |exact Hcopy|].
      * apply setProp_frame; [exact Hcopy|]. by etransitivity.
      * rewrite getProp_setProp_other by congruence.
        by apply (getProp_subseteq copy key h h').
Qed.

Lemma mapLoop_cycle target items i :
  h0 !! l = Some (HArray items) -> h0 !! target = None ->
  items !! i = Some (RRef l) ->
  forall count k (h : heap),
    h0 ⊆ h -> (k <= i < k + count)%nat ->
    (mapLoop recur l target k count h).2 = None.
Proof.
  intros Hl Htarget Hitem count.
  induction count as [|count IH]; intros k h Hsub Hrange; [lia|].
  cbn [mapLoop]. unfold getItem. rewrite (lookup_weaken _ _ _ _ Hl Hsub).
  destruct (decide (k = i)) as [->|Hne].
  - rewrite Hitem. cbn [isRef]. pose proof (Hcycle h Hsub) as Hnone.
    destruct (recur (RRef l) h) as [h' r]. cbn [snd] in Hnone. by rewrite Hnone.
  - destruct (items !! k) as [item|]; [|apply IH; [exact Hsub|lia]].
    destruct (isRef item).
    + pose proof (Hframe item h) as Hgrow.
      destruct (recur item h) as [h' [mapped|]]; [|reflexivity].
      cbn [fst] in Hgrow. apply IH; [|lia].
      apply pushItem_frame; [exact Htarget|]. by etransitivity.
    + apply IH; [|lia]. by apply pushItem_frame.
Qed.

End store_cycle.

(** Property X25.
    A structure that contains itself exhausts the call stack: for an
    object one of whose properties, under a key neither skipped nor
    masked, refers to the object itself, and for an array one of whose
    elements is the array itself, [sanitizeData] does not return a value,
    whatever room there is. *)
Theorem sanitizeData_exhausts_stack_on_cycle config depth :
  (forall (h : heap) l props key,
      h !! l = Some (HObject props) -> readProp key props = RRef l ->
      isSkippedKey config key = false -> isSensitiveKey config key = false ->
      (sanitizeDataH depth config (RRef l) h).2 = None)
  /\ (forall (h : heap) l items i,
        h !! l = Some (HArray items) -> items !! i = Some (RRef l) ->
        (sanitizeDataH depth config (RRef l) h).2 = None).
Proof.
  induction depth as [|depth [IHobject IHarray]]; [by split|]. split.
  - intros h l props key Hl Hself Hkept Hplain.
    cbn [sanitizeDataH]. rewrite Hl.
    pose proof (allocate_fresh (HObject props) h) as Hfresh.
    pose proof (allocate_subseteq (HObject props) h) as Hsub.
    destruct (allocate (HObject props) h) as [copy h1] eqn:Ealloc.
    cbn [fst snd] in Hfresh, Hsub.
    assert (h1 !! copy = Some (HObject props)) as Hcopy.
    { unfold allocate in Ealloc. injection Ealloc as <- <-. apply lookup_insert_eq. }
    set (h2 := match skipProperties config with
               | Some (_ :: _) => deleteLoop config copy (objectKeys copy h1) h1
               | _ => h1
               end).
    assert (h ⊆ h2) as Hsub2.
    { unfold h2. destruct (skipProperties config) as [[|? ?]|]; try exact Hsub.
      by apply deleteLoop_frame. }
    assert (readProp key (objectProps copy h2) = RRef l) as Hprop.
    { unfold h2. destruct (skipProperties config) as [[|? ?]|];
        try (unfold objectProps; by rewrite Hcopy).
      rewrite (deleteLoop_result _ _ _ _ _ Hcopy). unfold objectProps.
      rewrite lookup_insert_eq, readProp_filter; [exact Hself|].
      intros v. cbn [fst]. by rewrite Hkept. }
    pose proof (forEachLoop_cycle (sanitizeDataH depth config) h l
                  (sanitizeDataH_frame depth config)) as Hloop.
    specialize (Hloop (fun h' Hh' =>
                         IHobject h' l props key (lookup_weaken _ _ _ _ Hl Hh')
                           Hself Hkept Hplain)).
    specialize (Hloop config copy key Hplain (objectKeys copy h2) h2
                  (readProp_key _ _ _ Hprop) Hsub2 Hfresh Hprop).
    destruct (forEachLoop _ _ _ _ _) as [h3 r]. cbn [snd] in Hloop. by rewrite Hloop.
  - intros h l items i Hl Hitem. cbn [sanitizeDataH]. rewrite Hl.
    pose proof (allocate_fresh (HArray []) h) as Hfresh.
    pose proof (allocate_subseteq (HArray []) h) as Hsub.
    destruct (allocate (HArray []) h) as [target h1]. cbn [fst snd] in Hfresh, Hsub.
    pose proof (mapLoop_cycle (sanitizeDataH depth config) h l
                  (sanitizeDataH_frame depth config)) as Hloop.
    specialize (Hloop (fun h' Hh' =>
                         IHarray h' l items i (lookup_weaken _ _ _ _ Hl Hh') Hitem)).
    specialize (Hloop target items i Hl Hfresh Hitem (length items) 0%nat h1 Hsub).
    apply lookup_lt_Some in Hitem.
    specialize (Hloop ltac:(lia)).
    destruct (mapLoop _ _ _ _ _ _) as [h3 r]. cbn [snd] in Hloop. by rewrite Hloop.
Qed.

Lemma sanitizeData_exhausts_stack_on_cycle_witness :
  (sanitizeDataH 50 defaultSanitizationParams (RRef 0%nat) selfReferringStore).2 = None.
Proof.
  apply (proj1 (sanitizeData_exhausts_stack_on_cycle defaultSanitizationParams 50)
           selfReferringStore 0%nat
           [("name", RString "node"); ("parent", RRef 0%nat)] "parent");
    reflexivity.
Defined.

(** ** The fingerprint *)

Section FingerprintProperties.
Context `{platform : Platform}.

Lemma createErrorDetails_fields error from given details :
  createErrorDetails error from given = Ok details ->
  source details = from
  /\ getErrorMessage error = Ok (message details)
  /\ category details = categorizeError error.
Proof.
  intros Hdetails.
  destruct (createErrorDetails_inv _ _ _ _ Hdetails) as (label & text & _ & Hmsg & _ & ->).
  destruct (addHttpDetails_fields error
              {| source := from; context := label; message := text;
                 category := categorizeError error; statusCode := None; url := None |})
    as (-> & _ & -> & ->).
  done.
Qed.

(** Two records of one error from one source have the same
    fingerprint. *)
Lemma createCacheKey_context error from given1 given2 d1 d2 :
  createErrorDetails error from given1 = Ok d1 ->
  createErrorDetails error from given2 = Ok d2 ->
  createCacheKey d2 = createCacheKey d1.
Proof.
  intros E1 E2.
  destruct (createErrorDetails_fields _ _ _ _ E1) as (Hs1 & Hm1 & Hc1).
  destruct (createErrorDetails_fields _ _ _ _ E2) as (Hs2 & Hm2 & Hc2).
  unfold createCacheKey. rewrite Hs1, Hs2, Hc1, Hc2. do 2 f_equal. congruence.
Qed.

Lemma fingerprintOf_context error from given1 given2 key :
  userCode error = None ->
  shouldSkipErrorLogging error given2 = false ->
  fingerprintOf (error, from, given1) = Some key ->
  fingerprintOf (error, from, given2) = Some key.
Proof.
  unfold fingerprintOf. intros Hcode ->.
  destruct (shouldSkipErrorLogging error given1); [discriminate|].
  destruct (createErrorDetails error from given1) as [d1|] eqn:E1; [|discriminate].
  intros [= <-].
  destruct (createErrorDetails error from given2) as [d2|e] eqn:E2.
  - f_equal. by apply (createCacheKey_context error from given1 given2).
  - destruct (createErrorDetails_fields _ _ _ _ E1) as (_ & Hm1 & _).
    rewrite (createErrorDetails_ordinary _ _ _ Hcode), Hm1 in E2. discriminate.
Qed.

(** Property X26.
    The context plays no part in the fingerprint.  Once an error has
    been captured from a source, a later capture of the same error from
    the same source that gets as far as the check for duplicates finds
    the same fingerprint, whatever its context, and is dropped with the
    state unchanged.  The later capture gets that far unless its context
    marks the error as the expected outcome of a negative test, in which
    case it writes the informational line, or, for an error that brings
    code of its own, unless building its record raises. *)
Theorem captureError_ignores_context error from given1 given2 st key :
  fingerprintOf (error, from, given1) = Some key ->
  let st1 := (captureError error from given1 st).1 in
  (forall key',
      fingerprintOf (error, from, given2) = Some key' ->
      key' = key /\ captureError error from given2 st1 = (st1, Ok tt))
  /\ (userCode error = None -> shouldSkipErrorLogging error given2 = false ->
      fingerprintOf (error, from, given2) = Some key)
  /\ (shouldSkipErrorLogging error given2 = true ->
      exists line,
        captureError error from given2 st1 = (loggerInfo line st1, Ok tt)).
Proof.
  intros Hkey st1.
  assert (key ∈ loggedErrors st1) as Hcached.
  { unfold st1. destruct (decide (key ∈ loggedErrors st)) as [Hin|Hout].
    - by rewrite (captureError_duplicate _ _ _ _ _ Hkey Hin).
    - destruct (captureError_new _ _ _ _ _ Hkey Hout) as (details & rest & _ & _ & _ & ->).
      cbn [loggedErrors]. by apply manageCacheSize_keeps_new. }
  split; [|split].
  - intros key' Hkey'.
    assert (key' = key) as ->.
    { unfold fingerprintOf in Hkey, Hkey'.
      destruct (shouldSkipErrorLogging error given1); [discriminate|].
      destruct (shouldSkipErrorLogging error given2); [discriminate|].
      destruct (createErrorDetails error from given1) as [d1|] eqn:E1; [|discriminate].
      destruct (createErrorDetails error from given2) as [d2|] eqn:E2; [|discriminate].
      injection Hkey as <-. injection Hkey' as <-.
      by apply (createCacheKey_context error from given1 given2). }
    split; [reflexivity|]. by apply (captureError_duplicate _ _ _ _ key).
  - intros Hcode Hskip. by apply (fingerprintOf_context error from given1).
  - intros Hskip. unfold captureError, captureErrorTry. rewrite Hskip.
    unfold shouldSkipErrorLogging in Hskip.
    destruct given2 as [c|]; [|discriminate].
    destruct (nonEmpty c); [|discriminate].
    destruct (isAxiosError error) as [ax|]; [|discriminate].
    destruct (truthyStatus ax) as [n|]; [|discriminate].
    by eexists.
Qed.

(** ** The extra details of an axios error *)

Lemma lookupProp_app key props1 props2 :
  lookupProp key (props1 ++ props2)
  = match lookupProp key props1 with
    | Some v => Some v
    | None => lookupProp key props2
    end.
Proof.
  induction props1 as [|[k v] rest IH]; [reflexivity|].
  cbn [app lookupProp]. destruct (String.eqb k key); [reflexivity|exact IH].
Qed.

(** An array that holds no object and no array goes through
    [sanitizeObject] unchanged, whatever its strings hold. *)
Lemma sanitizeObject_flat_array items :
  (forall item, In item items -> isObjectLike item = false) ->
  sanitizeObject (VArray items) = VArray items.
Proof.
  intros Hflat. rewrite sanitizeObject_policy. cbn [truthy].
  rewrite sanitizeData_array. f_equal.
  induction items as [|item rest IH]; [reflexivity|].
  cbn [List.map]. unfold sanitizeItem at 1.
  rewrite (Hflat item) by (by left). f_equal.
  apply IH. intros other Hin. apply Hflat. by right.
Qed.

(** Property X27.
    What [extractAxiosDetails] reports of a request: the URL is the
    path name alone of the request URL; the headers are an object in
    which every property under a sensitive key, at any depth, holds the
    mask; the data are those of the response passed through
    [sanitizeObject], reported when the response holds an object or an
    array.  In them, at any depth, no object has a property under a
    skipped key, a property under a sensitive key holds the mask, and
    any other string property is free of [http] and within 1003
    characters.  That holds of the properties of objects only: the
    strings an array holds directly are reported as they are. *)
Theorem extractAxiosDetails_sanitized ax extra :
  extractAxiosDetails ax = Ok extra ->
  exists props,
    extra = VObject props
    /\ (forall u, lookupProp "url" props = Some (VString u) ->
                  exists full, requestUrl ax = Some full /\ urlPathname full = Some u)
    /\ (forall headers, lookupProp "headers" props = Some headers ->
                        isObjectLike headers = true
                        /\ allSensitiveMasked getDefaultParams headers = true)
    /\ (forall data, lookupProp "data" props = Some data ->
                     fitForLog customSanitizationParams 1000 data = true)
    /\ (forall r, response ax = Some r ->
                  lookupProp "data" props
                  = if truthy (data r) && isObjectLike (data r)
                    then Some (sanitizeObject (data r)) else None)
    /\ (forall r items,
          response ax = Some r -> data r = VArray items ->
          (forall item, In item items -> isObjectLike item = false) ->
          lookupProp "data" props = Some (VArray items)).
Proof.
  unfold extractAxiosDetails.
  set (base := [("status", match responseStatus ax with
                           | Some n => VNumber n | None => VUndefined end);
                ("statusText", optionalString (statusText <$> response ax))]).
  assert (forall request,
             (forall u, lookupProp "url" request = Some (VString u) ->
                        exists full, requestUrl ax = Some full /\ urlPathname full = Some u) ->
             (forall headers, lookupProp "headers" request = Some headers ->
                              isObjectLike headers = true
                              /\ allSensitiveMasked getDefaultParams headers = true) ->
             lookupProp "data" request = None ->
             (match response ax with
              | Some r =>
                  if truthy (data r) && isObjectLike (data r)
                  then Ok (VObject (request ++ [("data", sanitizeObject (data r))]))
                  else Ok (VObject request)
              | None => Ok (VObject request)
              end) = Ok extra ->
             exists props,
               extra = VObject props
               /\ (forall u, lookupProp "url" props = Some (VString u) ->
                             exists full, requestUrl ax = Some full
                                          /\ urlPathname full = Some u)
               /\ (forall headers, lookupProp "headers" props = Some headers ->
                                   isObjectLike headers = true
                                   /\ allSensitiveMasked getDefaultParams headers = true)
               /\ (forall data, lookupProp "data" props = Some data ->
                                fitForLog customSanitizationParams 1000 data = true)
               /\ (forall r, response ax = Some r ->
                             lookupProp "data" props
                             = if truthy (data r) && isObjectLike (data r)
                               then Some (sanitizeObject (data r)) else None)
               /\ (forall r items,
                     response ax = Some r -> data r = VArray items ->
                     (forall item, In item items -> isObjectLike item = false) ->
                     lookupProp "data" props = Some (VArray items)))
    as Hfinish.
  { intros request Hurl Hheaders Hdata Hextra.
    destruct (response ax) as [r|] eqn:Er.
    - destruct (truthy (data r) && isObjectLike (data r)) eqn:Econd.
      + injection Hextra as <-. eexists. split; [reflexivity|].
        assert (lookupProp "data" (request ++ [("data", sanitizeObject (data r))])
                = Some (sanitizeObject (data r))) as Hlook.
        { rewrite lookupProp_app, Hdata. reflexivity. }
        split; [|split; [|split; [|split]]].
        * intros u. rewrite lookupProp_app.
          destruct (lookupProp "url" request) eqn:E; [intros [= ->]; by apply Hurl|].
          discriminate.
        * intros headers. rewrite lookupProp_app.
          destruct (lookupProp "headers" request) eqn:E;
            [intros [= ->]; by apply Hheaders|].
          discriminate.
        * intros d. rewrite Hlook. intros [= <-]. rewrite sanitizeObject_policy.
          destruct (truthy (data r)); [|reflexivity].
          apply fitForLog_sanitizeData; [reflexivity|reflexivity|lia].
        * intros r' [= <-]. by rewrite Econd.
        * intros r' items [= <-] Hitems Hflat. rewrite Hlook, Hitems. f_equal.
          by apply sanitizeObject_flat_array.
      + injection Hextra as <-. exists request.
        split; [reflexivity|]. split; [exact Hurl|]. split; [exact Hheaders|].
        split; [|split].
        * intros d Hd. congruence.
        * intros r' [= <-]. by rewrite Econd.
        * intros r' items [= <-] Hitems. rewrite Hitems in Econd. discriminate.
    - injection Hextra as <-. exists request.
      split; [reflexivity|]. split; [exact Hurl|]. split; [exact Hheaders|].
      split; [|split].
      + intros d Hd. congruence.
      + intros r' [=].
      + intros r' items [=]. }
  assert (forall headers,
             isObjectLike (sanitizeHeaders headers) = true
             /\ allSensitiveMasked getDefaultParams (sanitizeHeaders headers) = true)
    as Hmasked.
  { intros headers. unfold sanitizeHeaders.
    destruct (truthy headers && isObjectLike headers) eqn:E; [|by split].
    apply andb_true_iff in E as [_ E].
    rewrite isObjectLike_sanitizeData. split; [exact E|].
    apply allSensitiveMasked_sanitizeData. }
  destruct (config ax) as [c|] eqn:Ec.
  - destruct (configUrl c) as [u|] eqn:Eu.
    + destruct (nonEmpty u) eqn:Ene.
      * destruct (urlPathname u) as [path|] eqn:Epath; [|discriminate].
        cbn [bindResult]. apply Hfinish.
        -- unfold base. cbn [app lookupProp String.eqb Ascii.eqb Bool.eqb].
           intros u' [= <-]. exists u. unfold requestUrl. by rewrite Ec.
        -- unfold base. cbn [app lookupProp String.eqb Ascii.eqb Bool.eqb].
           intros headers [= <-]. apply Hmasked.
        -- reflexivity.
      * cbn [bindResult]. apply Hfinish.
        -- unfold base. cbn [app lookupProp String.eqb Ascii.eqb Bool.eqb]. discriminate.
        -- unfold base. cbn [app lookupProp String.eqb Ascii.eqb Bool.eqb].
           intros headers [= <-]. apply Hmasked.
        -- reflexivity.
    + cbn [bindResult]. apply Hfinish.
      * unfold base. cbn [app lookupProp String.eqb Ascii.eqb Bool.eqb]. discriminate.
      * unfold base. cbn [app lookupProp String.eqb Ascii.eqb Bool.eqb].
        intros headers [= <-]. apply Hmasked.
      * reflexivity.
  - cbn [bindResult]. apply Hfinish.
    + unfold base. cbn [lookupProp String.eqb Ascii.eqb Bool.eqb].
      destruct (statusText <$> response ax); discriminate.
    + unfold base. cbn [lookupProp String.eqb Ascii.eqb Bool.eqb]. discriminate.
    + reflexivity.
Qed.

End FingerprintProperties.

Lemma captureError_ignores_context_witness :
  (let st1 :=
     (captureError (platform := samplePlatform)
        (ThrownValue (VString "worker stopped")) "1" None emptyState).1 in
   captureError (platform := samplePlatform)
     (ThrownValue (VString "worker stopped")) "1" (Some "second attempt") st1
   = (st1, Ok tt))
  /\ (let st1 :=
        (captureError (platform := negativeTestPlatform)
           (ThrownObject unauthorizedError) "loginApi" None emptyState).1 in
      exists line,
        captureError (platform := negativeTestPlatform)
          (ThrownObject unauthorizedError) "loginApi" (Some "negative login") st1
        = (loggerInfo line st1, Ok tt)).
Proof.
  split.
  - apply (proj1 (captureError_ignores_context (platform := samplePlatform)
                    (ThrownValue (VString "worker stopped")) "1" None
                    (Some "second attempt") emptyState "1_UNKNOWN_worker stopped"
                    eq_refl)
             "1_UNKNOWN_worker stopped").
    reflexivity.
  - apply (proj2 (proj2 (captureError_ignores_context (platform := negativeTestPlatform)
                           (ThrownObject unauthorizedError) "loginApi" None
                           (Some "negative login") emptyState
                           "loginApi_AUTHENTICATION_Request failed with status code 401"
                           eq_refl))).
    reflexivity.
Defined.

Lemma extractAxiosDetails_sanitized_witness :
  (exists props,
      loginFailureDetails = VObject props
      /\ (forall u, lookupProp "url" props = Some (VString u) ->
                    exists full,
                      requestUrl loginFailure = Some full
                      /\ simpleUrlPathname full = Some u)
      /\ (forall headers, lookupProp "headers" props = Some headers ->
                          isObjectLike headers = true
                          /\ allSensitiveMasked defaultSanitizationParams headers = true)
      /\ (forall data, lookupProp "data" props = Some data ->
                       fitForLog sampleObjectPolicy 1000 data = true))
  /\ lookupProp "data"
       [("status", VNumber 502); ("statusText", VString "Bad Gateway");
        ("data", VArray [VString "upstream refused";
                         VString "see https://status.example.com/incident?token=abc"])]
     = Some (VArray [VString "upstream refused";
                     VString "see https://status.example.com/incident?token=abc"]).
Proof.
  split.
  - destruct (extractAxiosDetails_sanitized (platform := samplePlatform)
                loginFailure loginFailureDetails eq_refl)
      as (props & Hprops & Hurl & Hheaders & Hdata & _).
    exists props. auto.
  - destruct (extractAxiosDetails_sanitized (platform := samplePlatform)
                listingFailure _ eq_refl)
      as (props & Hprops & _ & _ & _ & _ & Harray).
    injection Hprops as <-.
    apply (Harray _ _ eq_refl eq_refl).
    intros item [<-|[<-|[]]]; reflexivity.
Defined.

(** ** The cleaning pass over a sanitized object *)

Lemma processSanitizedString_http value :
  includes (processSanitizedString value) "http" = false.
Proof.
  unfold processSanitizedString.
  destruct (includes (cleanMessage value) "http") eqn:Ehttp.
  - destruct (indexOf (cleanMessage value) "http") as [i|] eqn:Ei.
    + unfold substring0. rewrite Nat2Z.id.
      apply includes_http_dots. by apply (includes_before_indexOf _ "http").
    + apply indexOf_None in Ei. congruence.
  - destruct (Z.of_nat (String.length (cleanMessage value)) >? 1000); [|exact Ehttp].
    apply includes_http_dots. by apply includes_takeChars_false.
Qed.

(** Property X28.
    What [processAndCleanSanitizedObject] returns: its keys are those of
    the argument that do not contain [stack], in their order, but for
    [__proto__], which an assignment cannot add to an object literal;
    every string in it is free of [http]; every object or array in it is
    the result of [sanitizeObject], under a key other than [parent] and
    [cause]. *)
Theorem processAndCleanSanitizedObject_result `{platform : Platform} sanitized :
  List.map fst (processAndCleanSanitizedObject sanitized)
  = List.filter
      (fun key => negb (includes (toLowerCase key) "stack")
                  && negb (String.eqb key "__proto__"))
      (List.map fst sanitized)
  /\ forall key v,
       In (key, v) (processAndCleanSanitizedObject sanitized) ->
       match v with
       | VString s => includes s "http" = false
       | VArray _ | VObject _ =>
           key <> "parent" /\ key <> "cause"
           /\ fitForLog customSanitizationParams 1000 v = true
       | _ => In (key, v) sanitized
       end.
Proof.
  unfold processAndCleanSanitizedObject. split.
  - rewrite List.map_map.
    rewrite (List.map_ext _ fst) by (intros kv; reflexivity).
    induction sanitized as [|[k v] rest IH]; [reflexivity|].
    cbn [List.filter List.map existsb fst]. rewrite orb_false_r.
    destruct (negb (includes (toLowerCase k) "stack") && negb (String.eqb k "__proto__"));
      [|exact IH].
    cbn [List.map fst]. f_equal. exact IH.
  - intros key v Hin. apply List.in_map_iff in Hin as ([k old] & Heq & Hin).
    apply List.filter_In in Hin as [Hin _]. cbn [fst snd] in Heq.
    injection Heq as -> <-. unfold processSanitizedValue.
    destruct old as [| |b|n|s|items|props]; try exact Hin.
    + apply processSanitizedString_http.
    + unfold processSanitizedObject.
      destruct (String.eqb_spec key "parent") as [->|Hparent]; [reflexivity|].
      destruct (String.eqb_spec key "cause") as [->|Hcause]; [reflexivity|].
      cbn [negb andb]. rewrite sanitizeObject_policy. cbn [truthy].
      rewrite sanitizeData_array. repeat split; try assumption.
      rewrite <- sanitizeData_array.
      apply fitForLog_sanitizeData; [reflexivity|reflexivity|lia].
    + unfold processSanitizedObject.
      destruct (String.eqb_spec key "parent") as [->|Hparent]; [reflexivity|].
      destruct (String.eqb_spec key "cause") as [->|Hcause]; [reflexivity|].
      cbn [negb andb]. rewrite sanitizeObject_policy. cbn [truthy].
      rewrite sanitizeData_object. repeat split; try assumption.
      rewrite <- sanitizeData_object.
      apply fitForLog_sanitizeData; [reflexivity|reflexivity|lia].
Qed.

Lemma processAndCleanSanitizedObject_result_witness :
  processAndCleanSanitizedObject (platform := samplePlatform)
    [("callStack", VString "at run (job.js:3)");
     ("note", VString "see https://example.com/help");
     ("cause", VObject [("token", VString "abc")]);
     ("request", VObject [("token", VString "abc")])]
  = [("note", VString "see ...");
     ("cause", VString "[Circular Reference]");
     ("request", VObject [("token", VString "********")])]
  /\ includes "see ..." "http" = false.
Proof.
  split; [reflexivity|].
  apply (proj2 (processAndCleanSanitizedObject_result (platform := samplePlatform)
                  [("callStack", VString "at run (job.js:3)");
                   ("note", VString "see https://example.com/help");
                   ("cause", VObject [("token", VString "abc")]);
                   ("request", VObject [("token", VString "abc")])])
           "note" (VString "see ...")).
  left. reflexivity.
Defined.

(** ** The API base URL outside CI *)

(** Property X29.
    Outside CI the API base URL is read from [API_BASE_URL], and the
    error raised when it is missing or blank names another variable,
    [API_URL], whether or not that one is set. *)
Theorem getApiBaseUrl_local `{platform : Platform} env st :
  isRunningInCIEnvironment env = false ->
  (forall v, env "API_BASE_URL" = Some v -> trim v <> EmptyString ->
             getApiBaseUrl env st = (st, Ok v))
  /\ ((forall v, env "API_BASE_URL" = Some v -> trim v = EmptyString) ->
      (getApiBaseUrl env st).2
      = Throw (newError "Environment variable API_URL is not set or is empty")).
Proof.
  intros Hlocal. unfold getApiBaseUrl.
  rewrite getEnvironmentValue_run
    by (intros st' e; destruct (isRunningInCIEnvironment env);
        apply getEnvironmentVariable_raises).
  rewrite Hlocal.
  unfold getLocalApiBaseUrl. rewrite getEnvironmentVariable_run.
  rewrite validateEnvironmentVariable_run. split.
  - intros v -> Hset. by destruct (String.eqb_spec (trim v) EmptyString).
  - intros Hblank. destruct (env "API_BASE_URL") as [v|]; [|reflexivity].
    by rewrite (Hblank v eq_refl).
Qed.

Lemma getApiBaseUrl_local_witness :
  (getApiBaseUrl (platform := samplePlatform) apiUrlEnvironment emptyState).2
  = Throw (newError "Environment variable API_URL is not set or is empty").
Proof.
  apply (proj2 (getApiBaseUrl_local (platform := samplePlatform)
                  apiUrlEnvironment emptyState eq_refl)).
  intros v [=].
Defined.

(** The properties of [sanitizeString] and [cleanMessage] on a markup
    fragment and on a plain word. *)
Lemma sanitizeString_idempotent_witness :
  containsChar "<" (sanitizeString " <a href='x'>go</a> ") = false
  /\ sanitizeString "robot" = "robot".
Proof.
  destruct (sanitizeString_idempotent " <a href='x'>go</a> ") as (_ & Hfree & _).
  destruct (sanitizeString_idempotent "robot") as (_ & _ & [_ Hfixed]).
  split.
  - apply Hfree. reflexivity.
  - apply Hfixed. split; [|reflexivity].
    intros c Hc. unfold isDangerousChar in Hc. cbn [existsb] in Hc.
    repeat (apply orb_true_iff in Hc as [Hc|Hc];
            [apply Ascii.eqb_eq in Hc as ->; reflexivity|]).
    discriminate.
Defined.

Lemma cleanMessage_only_removes_witness :
  containsChar "'" (cleanMessage "can't open <file>") = false.
Proof.
  apply (proj2 (cleanMessage_only_removes "can't open <file>")). reflexivity.
Defined.

(** ** Errors of Playwright assertions *)

Section PlaywrightProperties.
Context `{platform : Platform}.

(** Property X30.
    A failed Playwright assertion (an [Error] with a matcher result,
    not an axios error) is categorized [TEST] whatever its message says,
    and a first capture logs two lines: the record, and the matcher's
    details.  In the second line the expected and the actual value are
    those of the matcher, as they are: no mask is applied to them. *)
Theorem captureError_playwright o matcher from given st :
  instanceOfError o = true -> axiosError o = None ->
  matcherResult o = Some (Some matcher) ->
  exists details,
    createErrorDetails (ThrownObject o) from given = Ok details
    /\ category details = TEST
    /\ message details = cleanMessage (errorMessage o)
    /\ (createCacheKey details ∉ loggedErrors st ->
        exists extra,
          lookupProp "expected" extra = Some (expected matcher)
          /\ lookupProp "actual" extra = Some (actual matcher)
          /\ logLines (captureError (ThrownObject o) from given st).1
             = logLines st
               ++ [ErrorLine (sanitizeObject (detailsToValue details));
                   ErrorLine (VObject [("source", VString from);
                                       ("type", VString "Unknown");
                                       ("details", VObject extra)])]).
Proof.
  intros Hinst Hax Hmatcher.
  assert (shouldSkipErrorLogging (ThrownObject o) given = false) as Hskip.
  { unfold shouldSkipErrorLogging. cbn [isAxiosError]. rewrite Hax.
    destruct given as [c|]; [|reflexivity]. by destruct (nonEmpty c). }
  assert (hasMatcherResult (ThrownObject o) = true) as Hhas.
  { unfold hasMatcherResult. by rewrite Hinst, Hmatcher. }
  destruct (createErrorDetails (ThrownObject o) from given) as [details|failure] eqn:Ed.
  - exists details. destruct (createErrorDetails_fields _ _ _ _ Ed) as (_ & Hmsg & Hcat).
    split; [reflexivity|]. split; [|split].
    + rewrite Hcat. unfold categorizeError. cbn [isAxiosError]. by rewrite Hax, Hhas.
    + unfold getErrorMessage in Hmsg. rewrite Hinst in Hmsg. congruence.
    + intros Hnew. eexists. split; [|split].
      3: { unfold captureError, captureErrorTry.
           rewrite Hskip, Ed, bool_decide_eq_false_2 by done.
           unfold extractExtraDetails. rewrite Hhas, Hmatcher.
           cbn [extractPlaywrightDetails keyCount length Nat.ltb Nat.leb].
           unfold loggerError. cbn [fst loggedErrors logLines extraType lookupProp
                                      String.eqb Ascii.eqb Bool.eqb].
           rewrite <- app_assoc. reflexivity. }
      * reflexivity.
      * reflexivity.
  - exfalso. rewrite (createErrorDetails_ordinary (ThrownObject o) _ _ eq_refl) in Ed.
    unfold getErrorMessage in Ed. rewrite Hinst in Ed. discriminate.
Qed.

End PlaywrightProperties.

Lemma captureError_playwright_witness :
  exists extra,
    lookupProp "expected" extra = Some (VObject [("password", VString "hunter2")])
    /\ (exists record,
          logLines (captureError (platform := samplePlatform)
                      (ThrownObject failedAssertion) "loginSpec" None emptyState).1
          = [ErrorLine record;
             ErrorLine (VObject [("source", VString "loginSpec");
                                 ("type", VString "Unknown");
                                 ("details", VObject extra)])]).
Proof.
  destruct (captureError_playwright (platform := samplePlatform) failedAssertion
              _ "loginSpec" None emptyState eq_refl eq_refl eq_refl)
    as (details & _ & _ & _ & Hrun).
  destruct (Hrun (not_elem_of_nil _)) as (extra & Hexpected & _ & Hlines).
  exists extra. split; [exact Hexpected|]. eexists. exact Hlines.
Defined.
